(** * Radar visual: data transform, layout and rendering

    A shallow embedding of [src/visual.ts] (class [Visual] of the Power BI
    radar visual) together with the properties of its specification.

    Conventions of the embedding.
    - JavaScript numbers that carry geometry (angles, radii, coordinates)
      are idealised as real numbers; counters and ring orders are [nat].
    - A JavaScript object used as a map is a list of own properties in
      insertion order; reading a property also consults [Object.prototype],
      and [for .. in] enumerates array-index keys first.
    - A call either completes normally, throws, or leaves the declared
      TypeScript types (type [Completion]).
    - [Math.random] is an explicit stream of draws indexed by the number of
      draws already consumed.
    - The classes [Radar], [Sector], [Blip], [Ring] and [ColourGenerator]
      are not part of [visual.ts]; what the visual needs from them is
      modelled from the specification and marked as such. *)

From Stdlib Require Import List String Ascii Bool Arith NArith ZArith Lia.
From Stdlib Require Import Permutation Sorted.
From Stdlib Require Import Reals Lra.
From Equations Require Import Equations.
Import ListNotations.


(* ===================================================================== *)
(** ** JavaScript values, property keys and completions                   *)
(* ===================================================================== *)

Open Scope string_scope.
Open Scope list_scope.

(** The cell values a table row can hold (text and boolean columns), plus
    [undefined], which is what indexing a row out of range gives. *)
Inductive value : Type :=
| VUndefined
| VNull
| VBool (b : bool)
| VString (s : string).

(** [ToPropertyKey]: the string under which a value indexes an object. *)
Definition toPropertyKey (v : value) : string :=
  match v with
  | VUndefined => "undefined"
  | VNull => "null"
  | VBool true => "true"
  | VBool false => "false"
  | VString s => s
  end.

Inductive JsError : Type :=
| TypeError.

(** Outcome of running a piece of the visual.  [IllTyped] marks the point
    where [new Blip] receives, as its ring, a member of [Object.prototype]
    instead of a [Ring]: JavaScript goes on with a radar that is outside the
    declared types, and the embedding does not follow it further. *)
Inductive Completion (A : Type) : Type :=
| Normal (a : A)
| Throws (e : JsError)
| IllTyped.

Arguments Normal {A} a.
Arguments Throws {A} e.
Arguments IllTyped {A}.

Definition bind {A B} (c : Completion A) (k : A -> Completion B) : Completion B :=
  match c with
  | Normal a => k a
  | Throws e => Throws e
  | IllTyped => IllTyped
  end.

Notation "x <- c ;; k" := (bind c (fun x => k))
  (at level 61, c at next level, right associativity).

(** Left-to-right traversal that stops at the first abrupt completion. *)
Fixpoint mapM {A B} (f : A -> Completion B) (l : list A) : Completion (list B) :=
  match l with
  | [] => Normal []
  | x :: l' =>
      y <- f x ;;
      ys <- mapM f l' ;;
      Normal (y :: ys)
  end.

(* --------------------------------------------------------------------- *)
(** *** Objects used as maps                                              *)
(* --------------------------------------------------------------------- *)

(** The property names every plain object inherits from [Object.prototype]. *)
Definition objectPrototypeKeys : list string :=
  [ "constructor"; "hasOwnProperty"; "isPrototypeOf"; "propertyIsEnumerable";
    "toLocaleString"; "toString"; "valueOf"; "__proto__";
    "__defineGetter__"; "__defineSetter__"; "__lookupGetter__"; "__lookupSetter__" ].

Definition inheritedKey (k : string) : bool :=
  existsb (String.eqb k) objectPrototypeKeys.

(** Own properties, in insertion order. *)
Definition JsObject (V : Type) : Type := list (string * V).

Fixpoint getOwn {V} (o : JsObject V) (k : string) : option V :=
  match o with
  | [] => None
  | (k', v) :: o' => if String.eqb k k' then Some v else getOwn o' k
  end.

(** What [o[k]] evaluates to. *)
Inductive Lookup (V : Type) : Type :=
| Own (v : V)       (* an own property *)
| Inherited         (* a member of Object.prototype: truthy, not a V *)
| Missing.          (* undefined *)

Arguments Own {V} v.
Arguments Inherited {V}.
Arguments Missing {V}.

Definition getProp {V} (o : JsObject V) (k : string) : Lookup V :=
  match getOwn o k with
  | Some v => Own v
  | None => if inheritedKey k then Inherited else Missing
  end.

(** [o[k] = v]: overwrite in place, or append a new own property. *)
Fixpoint setProp {V} (o : JsObject V) (k : string) (v : V) : JsObject V :=
  match o with
  | [] => [(k, v)]
  | (k', v') :: o' =>
      if String.eqb k k' then (k', v) :: o' else (k', v') :: setProp o' k v
  end.

(** Array-index keys: canonical decimal numerals below [2^32 - 1]. *)
Definition digitOf (c : ascii) : option N :=
  let n := N_of_ascii c in
  if (48 <=? n)%N && (n <=? 57)%N then Some (n - 48)%N else None.

Fixpoint digitsValue (acc : N) (s : string) : option N :=
  match s with
  | EmptyString => Some acc
  | String c s' =>
      match digitOf c with
      | Some d => digitsValue (acc * 10 + d)%N s'
      | None => None
      end
  end.

Definition arrayIndex (s : string) : option N :=
  match s with
  | EmptyString => None
  | String c EmptyString => digitOf c
  | String c _ =>
      if Ascii.eqb c "0"%char then None
      else match digitsValue 0%N s with
           | Some n => if (n <=? 4294967294)%N then Some n else None
           | None => None
           end
  end.

(** Insertion of an array-index property among the others, ascending. *)
Fixpoint insertIndexKey {V} (n : N) (kv : string * V) (l : list (N * (string * V)))
  : list (N * (string * V)) :=
  match l with
  | [] => [(n, kv)]
  | (m, kv') :: l' =>
      if (n <=? m)%N then (n, kv) :: l else (m, kv') :: insertIndexKey n kv l'
  end.

Fixpoint indexProps {V} (o : JsObject V) : list (N * (string * V)) :=
  match o with
  | [] => []
  | (k, v) :: o' =>
      match arrayIndex k with
      | Some n => insertIndexKey n (k, v) (indexProps o')
      | None => indexProps o'
      end
  end.

Definition namedProps {V} (o : JsObject V) : JsObject V :=
  filter (fun kv => match arrayIndex (fst kv) with Some _ => false | None => true end) o.

(** The order in which [for (k in o)] visits the own properties of [o]:
    array-index keys in ascending numeric order, then the remaining keys
    in insertion order. *)
Definition forIn {V} (o : JsObject V) : JsObject V :=
  map snd (indexProps o) ++ namedProps o.

(* ===================================================================== *)
(** ** Domain model                                                       *)
(* ===================================================================== *)

Record Point : Type := mkPoint { x : R; y : R }.

Module Ring.
(** Modelled from the spec: class [Ring] (name, order, colour), built by
    [new Ring(name, order, colour)]. *)
Record t : Type := mk { name : string; order : nat; colour : string }.
End Ring.

Module Blip.
(** Modelled from the spec: class [Blip].  [sector] is the back-reference
    to the owning sector, held as that sector's key; [coordinates] is
    assigned by the layout and holds the origin until then. *)
Record t : Type := mk {
  id : string;
  name : value;
  ring : Ring.t;
  sector : string;
  isNew : value;
  description : value;
  coordinates : Point
}.

Definition setCoordinates (b : t) (p : Point) : t :=
  mk (id b) (name b) (ring b) (sector b) (isNew b) (description b) p.
End Blip.

Module Sector.
(** Modelled from the spec: class [Sector].  The angles are assigned by
    [Radar.setSectorAngles] and hold 0 until then. *)
Record t : Type := mk {
  id : string;
  name : value;
  colour : string;
  startAngle : R;
  endAngle : R;
  blips : list Blip.t
}.

(** Modelled from the spec: [addBlip] appends to the owned sequence. *)
Definition addBlip (s : t) (b : Blip.t) : t :=
  mk (id s) (name s) (colour s) (startAngle s) (endAngle s) (blips s ++ [b]).

Definition setColour (s : t) (c : string) : t :=
  mk (id s) (name s) c (startAngle s) (endAngle s) (blips s).

Definition setAngles (s : t) (a b : R) : t :=
  mk (id s) (name s) (colour s) a b (blips s).

Definition setBlips (s : t) (bs : list Blip.t) : t :=
  mk (id s) (name s) (colour s) (startAngle s) (endAngle s) bs.
End Sector.

(** The ring table of [transformData]. *)
Definition ringMap : JsObject Ring.t :=
  [ ("Accelerate", Ring.mk "Accelerate" 1 "#C7C7C7");
    ("Progress", Ring.mk "Progress" 2 "#A3A3A3");
    ("Monitor", Ring.mk "Monitor" 3 "#7A7A7A");
    ("Pause", Ring.mk "Pause" 4 "#525252") ].

Module Radar.
(** Modelled from the spec: class [Radar], the ordered sectors and the
    fixed ring set. *)
Record t : Type := mk { sectors : list Sector.t; rings : list Ring.t }.

(** Modelled from the spec: [new Radar()] has no sector and the four
    fixed rings in ring order. *)
Definition new : t := mk [] (map snd ringMap).

(** Modelled from the spec: [addSector] appends. *)
Definition addSector (r : t) (s : Sector.t) : t :=
  mk (sectors r ++ [s]) (rings r).

(** Modelled from the spec: the flattened view of all blips. *)
Definition blips (r : t) : list Blip.t :=
  flat_map Sector.blips (sectors r).

(** Modelled from the spec: with N sectors, sector i (0-indexed, in the
    radar's order) receives the arc from i*2pi/N to (i+1)*2pi/N. *)
Fixpoint assignAngles (n : nat) (i : nat) (l : list Sector.t) : list Sector.t :=
  match l with
  | [] => []
  | s :: l' =>
      Sector.setAngles s (INR i * (2 * PI) / INR n)%R (INR (S i) * (2 * PI) / INR n)%R
      :: assignAngles n (S i) l'
  end.

Definition setSectorAngles (r : t) : t :=
  mk (assignAngles (List.length (sectors r)) 0 (sectors r)) (rings r).
End Radar.


(* ===================================================================== *)
(** ** The data view handed over by the host                              *)
(* ===================================================================== *)

Definition Row : Type := list value.

(** A column carries the role names that are the keys of [column.roles]. *)
Record Column : Type := mkColumn { roles : list string }.

Record Table : Type := mkTable { columns : list Column; rows : list Row }.

(** The colour store of the host, as [transformData] reads it:
    [metadata.objects.colourSelector.$instances[id].fill.solid.color].
    Every step of the path up to [solid] may be missing ([None]: the
    property is absent or holds [undefined]); a solid fill names its
    colour. *)
Record Solid : Type := mkSolid { color : string }.

Record Fill : Type := mkFill { solid : option Solid }.

(** One value of [$instances]: the properties stored for a sector. *)
Record Instance : Type := mkInstance { fill : option Fill }.

(** [instances] is the property [$instances], an object keyed by sector
    id; like every object it inherits the members of [Object.prototype]. *)
Record ColourSelector : Type := mkColourSelector { instances : option (JsObject Instance) }.

(** [metadata.objects], when the metadata has it. *)
Record Objects : Type := mkObjects { colourSelector : option ColourSelector }.

(** [dataView.metadata]: [objects] is [None] when the metadata has no
    property [objects]. *)
Record Metadata : Type := mkMetadata { objects : option Objects }.

Record DataView : Type := mkDataView { table : Table; metadata : Metadata }.

(** [table.columns.map(column => Object.keys(column.roles)[0])] *)
Definition columnMap (t : Table) : list (option string) :=
  map (fun column => hd_error (roles column)) (columns t).

Fixpoint indexOfFrom (i : Z) (l : list (option string)) (role : string) : Z :=
  match l with
  | [] => (-1)%Z
  | Some r :: l' => if String.eqb r role then i else indexOfFrom (i + 1)%Z l' role
  | None :: l' => indexOfFrom (i + 1)%Z l' role
  end.

(** [Array.prototype.indexOf]: first position, or -1. *)
Definition indexOf (l : list (option string)) (role : string) : Z :=
  indexOfFrom 0%Z l role.

(** [v[i]] on a row: [undefined] outside the row. *)
Definition rowGet (v : Row) (i : Z) : value :=
  if (i <? 0)%Z then VUndefined else nth (Z.to_nat i) v VUndefined.

(* --------------------------------------------------------------------- *)
(** *** lodash [sortBy]                                                   *)
(* --------------------------------------------------------------------- *)

(** Ascending order on sort keys; [None] is [undefined], which lodash
    puts after every number. *)
Definition keyLe (a b : option nat) : bool :=
  match a, b with
  | Some m, Some n => (m <=? n)%nat
  | _, None => true
  | None, Some _ => false
  end.

Fixpoint insertByKey {A} (e : option nat * A) (l : list (option nat * A))
  : list (option nat * A) :=
  match l with
  | [] => [e]
  | e' :: l' => if keyLe (fst e) (fst e') then e :: l else e' :: insertByKey e l'
  end.

Definition sortKeyed {A} (l : list (option nat * A)) : list (option nat * A) :=
  fold_right insertByKey [] l.

(** [_.sortBy(collection, iteratee)]: the iteratee runs once on every
    element, then the elements are sorted by the keys, stably. *)
Definition sortBy {A} (collection : list A) (iteratee : A -> Completion (option nat))
  : Completion (list A) :=
  keyed <- mapM (fun o => k <- iteratee o ;; Normal (k, o)) collection ;;
  Normal (map snd (sortKeyed keyed)).

(** [array.forEach] threading the state that the callback mutates. *)
Fixpoint forEach {S A} (f : S -> A -> Completion S) (l : list A) (s : S) : Completion S :=
  match l with
  | [] => Normal s
  | v :: l' => s' <- f s v ;; forEach f l' s'
  end.

(* ===================================================================== *)
(** ** [transformData]                                                    *)
(* ===================================================================== *)

Definition origin : Point := mkPoint 0 0.

Section Transform.

(** Modelled from the spec: the ids that [Sector] and [Blip] derive from
    their names, and the successive colours of a [ColourGenerator]. *)
Variable sectorId : value -> string.
Variable blipId : value -> string.
Variable getColour : nat -> string.

(** Modelled from the spec: [new Sector(name)]. *)
Definition newSector (sectorName : value) : Sector.t :=
  Sector.mk (sectorId sectorName) sectorName "" 0 0 [].

(** Modelled from the spec: [new Blip(name, ring, sector, isNew, description)]. *)
Definition newBlip (name : value) (ring : Ring.t) (sectorKey : string)
    (isNew description : value) : Blip.t :=
  Blip.mk (blipId name) name ring sectorKey isNew description origin.

(** The iteratee of the sort: [ringMap[o[ringIndex]].order]. *)
Definition ringOrder (ringIndex : Z) (o : Row) : Completion (option nat) :=
  match getProp ringMap (toPropertyKey (rowGet o ringIndex)) with
  | Own ring => Normal (Some (Ring.order ring))
  | Inherited => Normal None
  | Missing => Throws TypeError
  end.

(** The state of the scan: the [sectors] object and the number of colours
    the colour generator has handed out. *)
Definition ScanState : Type := (JsObject Sector.t * nat)%type.

(** The condition and the read of the colour branch:
    ["objects" in metadata && id in metadata.objects.colourSelector.$instances],
    then [$instances[id].fill.solid.color].  [Normal (Some c)] is the stored
    colour, [Normal None] the [else] branch.  Reading a property of
    [undefined] throws, and so does [in] on [undefined]; [in] follows the
    prototype chain, and a member of [Object.prototype] has no [fill]. *)
Definition colourLookup (md : Metadata) (id : string) : Completion (option string) :=
  match objects md with
  | None => Normal None
  | Some o =>
      match colourSelector o with
      | None => Throws TypeError
      | Some selector =>
          match instances selector with
          | None => Throws TypeError
          | Some held =>
              match getProp held id with
              | Missing => Normal None
              | Inherited => Throws TypeError
              | Own instance =>
                  match fill instance with
                  | None => Throws TypeError
                  | Some f =>
                      match solid f with
                      | None => Throws TypeError
                      | Some sd => Normal (Some (color sd))
                      end
                  end
              end
          end
      end
  end.

(** The colour of a newly discovered sector, and the number of colours
    generated afterwards. *)
Definition sectorColour (md : Metadata) (s : Sector.t) (generated : nat)
  : Completion (string * nat) :=
  stored <- colourLookup md (Sector.id s) ;;
  match stored with
  | Some c => Normal (c, generated)
  | None => Normal (getColour generated, S generated)
  end.

(** The callback of [table.rows.forEach]. *)
Definition visitRow (md : Metadata)
    (nameIndex descriptionIndex sectorIndex ringIndex isNewIndex : Z)
    (st : ScanState) (v : Row) : Completion ScanState :=
  let name := rowGet v nameIndex in
  let description := rowGet v descriptionIndex in
  let sectorName := rowGet v sectorIndex in
  let ringName := rowGet v ringIndex in
  let isNew := rowGet v isNewIndex in
  let key := toPropertyKey sectorName in
  (* if (!sectors[sectorName]) { ... } *)
  st' <- match getProp (fst st) key with
         | Missing =>
             let s := newSector sectorName in
             cg <- sectorColour md s (snd st) ;;
             Normal (setProp (fst st) key (Sector.setColour s (fst cg)), snd cg)
         | _ => Normal st
         end ;;
  (* sectors[sectorName].addBlip(new Blip(name, ringMap[ringName], ...)):
     the blip is built, then the call of addBlip fails when the sector
     name resolved to a member of Object.prototype *)
  match getProp (fst st') key with
  | Own s =>
      match getProp ringMap (toPropertyKey ringName) with
      | Own ring =>
          let blip := newBlip name ring key isNew description in
          Normal (setProp (fst st') key (Sector.addBlip s blip), snd st')
      | _ => IllTyped
      end
  | _ => Throws TypeError  (* addBlip is not a function *)
  end.

(** The [sectors] object built from the sorted rows.  The sorted rows also
    replace [table.rows]; the table is not read again. *)
Definition scanRows (dataView : DataView) : Completion (JsObject Sector.t) :=
  let t := table dataView in
  let cm := columnMap t in
  let nameIndex := indexOf cm "name" in
  let descriptionIndex := indexOf cm "description" in
  let sectorIndex := indexOf cm "sector" in
  let ringIndex := indexOf cm "ring" in
  let isNewIndex := indexOf cm "isNew" in
  sorted <- sortBy (rows t) (ringOrder ringIndex) ;;
  st <- forEach (visitRow (metadata dataView)
                   nameIndex descriptionIndex sectorIndex ringIndex isNewIndex)
          sorted ([], 0) ;;
  Normal (fst st).

Definition transformData (dataView : DataView) : Completion Radar.t :=
  sectors <- scanRows dataView ;;
  let radar :=
    fold_left (fun radar kv => Radar.addSector radar (snd kv)) (forIn sectors) Radar.new in
  Normal (Radar.setSectorAngles radar).

End Transform.

(* ===================================================================== *)
(** ** The visual: state and drawn content                                *)
(* ===================================================================== *)

Open Scope R_scope.

(** One [path] of a sector group: a d3 arc and its attributes. *)
Record ArcPath : Type := mkArcPath {
  innerRadius : R;
  outerRadius : R;
  arcStartAngle : R;
  arcEndAngle : R;
  arcFill : string;
  arcTranslate : Point
}.

(** A [g.sector] element of the sector layer. *)
Record SectorGroup : Type := mkSectorGroup { groupId : string; paths : list ArcPath }.

(** A [g.blip] element and its circle. *)
Record BlipGroup : Type := mkBlipGroup {
  blipClass : string;
  cx : R;
  cy : R;
  r : R;
  blipFill : string
}.

(** The children of the left sidebar: one [div] per sector (its button
    and the list of its blips), and the description panel. *)
Inductive SidebarNode : Type :=
| SectorEntry (divId : string) (buttonText : value) (background : string)
    (items : list (value * string))
| BlipDescription.

(** The children of the right sidebar: a [ul] of coloured ring names. *)
Record LegendItem : Type := mkLegendItem { legendColour : string; legendText : string }.

Inductive LegendNode : Type :=
| Ul (items : list LegendItem).

(** The box of the [#main] container, as the browser measures it. *)
Record Container : Type := mkContainer {
  clientWidth : R;
  clientHeight : R;
  paddingPx : Z
}.

Record Svg : Type := mkSvg {
  svgWidth : R;
  svgHeight : R;
  sectorLayer : list SectorGroup;
  blipLayer : list BlipGroup
}.

Record Visual : Type := mkVisual {
  updateCount : nat;
  target : Container;
  leftSidebar : list SidebarNode;
  svg : Svg;
  rightSidebar : list LegendNode;
  radar : Radar.t
}.

(* ===================================================================== *)
(** ** Geometry                                                           *)
(* ===================================================================== *)

Record Polar : Type := mkPolar { distance : R; angle : R }.

Record Radii : Type := mkRadii { inner : R; outer : R }.

Definition getViewBoxSize (self : Visual) : R := 100.

Definition calculateCenter (self : Visual) : Point :=
  let viewBoxSize := getViewBoxSize self in
  mkPoint (viewBoxSize / 2) (viewBoxSize / 2).

Definition calculateMaxRadius (self : Visual) : R :=
  Rmin (clientWidth (target self)) (clientHeight (target self)) / 2
  - IZR (paddingPx (target self)) * 2.

Definition convertRelativeCoordinates (self : Visual) (coordinates : Point) : Point :=
  let center := calculateCenter self in
  mkPoint (x coordinates + x center) (y center - y coordinates).

Definition polarToCartesian (self : Visual) (polar : Polar) : Point :=
  mkPoint (distance polar * sin (angle polar)) (distance polar * cos (angle polar)).

Definition calculateRingRadii (self : Visual) (ring : Ring.t) : Radii :=
  let maxRadius := getViewBoxSize self / 2 in
  let ringCount := INR (List.length (Radar.rings (radar self))) in
  mkRadii (maxRadius * (INR (Ring.order ring) - 1) / ringCount)
          (maxRadius * INR (Ring.order ring) / ringCount).

Definition calculateBlipRadius (self : Visual) : R := 2.

Definition distanceBetweenPoints (self : Visual) (coordinates1 coordinates2 : Point) : R :=
  sqrt ((x coordinates1 - x coordinates2) ^ 2 + (y coordinates1 - y coordinates2) ^ 2).

Definition coordinatesAreFree (self : Visual) (coordinates : Point)
    (allCoordinates : list Point) : bool :=
  let blipRadius := calculateBlipRadius self in
  forallb
    (fun currentCoordinates =>
       if Rgt_dec (distanceBetweenPoints self coordinates currentCoordinates)
                  (blipRadius * 2.1)
       then true else false)
    allCoordinates.

(* ===================================================================== *)
(** ** Blip placement                                                     *)
(* ===================================================================== *)

Section Layout.

(** [Math.random]: the n-th draw of the run. *)
Variable random : nat -> R.

(** What a placement returns: the coordinates; with them, for the
    statements below, the final value of [attemptCount] and the number of
    draws consumed so far. *)
Record Placement : Type := mkPlacement {
  placed : Point;
  attempts : nat;
  nextDraw : nat
}.

(** One pass of the loop body up to the conversion: an angle and a
    distance are drawn, in this order, and turned into coordinates. *)
Definition candidate (self : Visual) (min_angle max_angle min_distance max_distance : R)
    (draw : nat) : Point :=
  let angle := random draw * (max_angle - min_angle) + min_angle in
  let distance := random (S draw) * (max_distance - min_distance) + min_distance in
  polarToCartesian self (mkPolar distance angle).

(** The [do .. while] loop of [generateBlipCoordinates], entered with the
    current [attemptCount].  The test [attemptCount >+ 10] reads
    [attemptCount > (+10)]. *)
Equations? placementLoop (self : Visual) (allCoordinates : list Point)
    (min_angle max_angle min_distance max_distance : R)
    (attemptCount : nat) (draw : nat) : Placement
    by wf (11 - attemptCount)%nat lt :=
  placementLoop self allCoordinates min_angle max_angle min_distance max_distance
      attemptCount draw
    with lt_dec 10 (S attemptCount) => {
    | left _ =>
        mkPlacement
          (candidate self min_angle max_angle min_distance max_distance draw)
          (S attemptCount) (S (S draw));
    | right _ with coordinatesAreFree self
          (candidate self min_angle max_angle min_distance max_distance draw)
          allCoordinates => {
      | true =>
          mkPlacement
            (candidate self min_angle max_angle min_distance max_distance draw)
            (S attemptCount) (S (S draw));
      | false =>
          placementLoop self allCoordinates min_angle max_angle min_distance max_distance
            (S attemptCount) (S (S draw)) } }.
Proof.
  do 11 (destruct attemptCount as [|attemptCount]; [cbn; lia |]).
  exfalso; lia.
Qed.

Definition generateBlipCoordinates (self : Visual) (sector : Sector.t) (ring : Ring.t)
    (allCoordinates : list Point) (draw : nat) : Placement :=
  let min_angle := Sector.startAngle sector + PI / 16 in
  let max_angle := Sector.endAngle sector - PI / 16 in
  let ringRadii := calculateRingRadii self ring in
  let min_distance := inner ringRadii * 1.1 in
  let max_distance := outer ringRadii * 0.9 in
  let min_distance :=
    if Req_dec_T min_distance 0 then max_distance / 2 else min_distance in
  placementLoop self allCoordinates min_angle max_angle min_distance max_distance 0 draw.

(** The bookkeeping of [setBlipCoordinates]: the coordinates placed so far
    and the position in the stream of draws; with them, for the statements
    below, the final [attemptCount] of every placement. *)
Record LayoutState : Type := mkLayoutState {
  allCoordinates : list Point;
  attemptLog : list nat;
  draws : nat
}.

(** The body of the inner [forEach]. *)
Definition placeBlip (self : Visual) (sector : Sector.t) (st : LayoutState)
    (blip : Blip.t) : Blip.t * LayoutState :=
  let p := generateBlipCoordinates self sector (Blip.ring blip)
             (allCoordinates st) (draws st) in
  (Blip.setCoordinates blip (placed p),
   mkLayoutState (allCoordinates st ++ [placed p])
                 (attemptLog st ++ [attempts p])
                 (nextDraw p)).

Fixpoint placeBlips (self : Visual) (sector : Sector.t) (blips : list Blip.t)
    (st : LayoutState) : list Blip.t * LayoutState :=
  match blips with
  | [] => ([], st)
  | blip :: blips' =>
      let '(blip', st1) := placeBlip self sector st blip in
      let '(rest, st2) := placeBlips self sector blips' st1 in
      (blip' :: rest, st2)
  end.

Fixpoint placeSectors (self : Visual) (sectors : list Sector.t) (st : LayoutState)
  : list Sector.t * LayoutState :=
  match sectors with
  | [] => ([], st)
  | sector :: sectors' =>
      let '(blips', st1) := placeBlips self sector (Sector.blips sector) st in
      let '(rest, st2) := placeSectors self sectors' st1 in
      (Sector.setBlips sector blips' :: rest, st2)
  end.

Definition setRadar (self : Visual) (radar' : Radar.t) : Visual :=
  mkVisual (updateCount self) (target self) (leftSidebar self) (svg self)
           (rightSidebar self) radar'.

(** [setBlipCoordinates]: every blip of the radar receives coordinates, in
    sector order and then in blip order. *)
Definition setBlipCoordinates (self : Visual) (draw : nat) : Visual * LayoutState :=
  let '(sectors', st) :=
    placeSectors self (Radar.sectors (radar self)) (mkLayoutState [] [] draw) in
  (setRadar self (Radar.mk sectors' (Radar.rings (radar self))), st).

End Layout.

(* ===================================================================== *)
(** ** Rendering                                                          *)
(* ===================================================================== *)

Definition plotSector (self : Visual) (sector : Sector.t) : SectorGroup :=
  mkSectorGroup
    (String.append "sector-" (Sector.id sector))
    (map (fun ring =>
            let radii := calculateRingRadii self ring in
            mkArcPath (inner radii) (outer radii)
                      (Sector.startAngle sector) (Sector.endAngle sector)
                      (Ring.colour ring) (calculateCenter self))
         (Radar.rings (radar self))).

(** The groups appended to [#sectors]. *)
Definition plotSectors (self : Visual) : list SectorGroup :=
  map (plotSector self) (Radar.sectors (radar self)).

(** [plotBlip]; [sector] is [blip.sector], the sector that owns the blip. *)
Definition plotBlip (self : Visual) (sector : Sector.t) (blip : Blip.t) : BlipGroup :=
  let absoluteCoordinates := convertRelativeCoordinates self (Blip.coordinates blip) in
  mkBlipGroup (String.append "blip-" (Blip.id blip))
              (x absoluteCoordinates) (y absoluteCoordinates)
              (calculateBlipRadius self) (Sector.colour sector).

(** The groups appended to [#blips], in the order of [radar.blips]. *)
Definition plotBlips (self : Visual) : list BlipGroup :=
  flat_map (fun sector => map (plotBlip self sector) (Sector.blips sector))
           (Radar.sectors (radar self)).

(** The children of the left sidebar once [plotLeftSidebar] has run. *)
Definition plotLeftSidebar (self : Visual) : list SidebarNode :=
  map (fun sector =>
         SectorEntry (String.append "sidebar-" (Sector.id sector))
                     (Sector.name sector) (Sector.colour sector)
                     (map (fun blip =>
                             (Blip.name blip, String.append "blip-" (Blip.id blip)))
                          (Sector.blips sector)))
      (Radar.sectors (radar self))
  ++ [BlipDescription].

(** The children of the right sidebar once [plotRightSidebar] has run. *)
Definition plotRightSidebar (self : Visual) : list LegendNode :=
  [Ul (map (fun ring => mkLegendItem (Ring.colour ring) (Ring.name ring))
           (Radar.rings (radar self)))].

Section Update.

Variable sectorId : value -> string.
Variable blipId : value -> string.
Variable getColour : nat -> string.
Variable random : nat -> R.

(** [update]: the visual after the call and how the call completes (on a
    normal completion, with the position reached in the stream of draws).
    Nothing is drawn or cleared before [transformData] returns, so a
    thrown error leaves the visual as it was.  When [transformData] leaves
    the declared types, the code goes on and redraws from a radar that the
    embedding has no value for: the outcome is [IllTyped] and the first
    component is then only the visual before the call, not the one drawn.
    The parsed settings and the console output are left out: nothing reads
    them. *)
Definition update (self : Visual) (dataView : DataView) (draw : nat)
  : Visual * Completion nat :=
  match transformData sectorId blipId getColour dataView with
  | Normal radar' =>
      let self1 := setRadar self radar' in
      let size := calculateMaxRadius self1 * 2 in
      let sectorGroups := plotSectors self1 in
      let '(self2, st) := setBlipCoordinates random self1 draw in
      (mkVisual (S (updateCount self2)) (target self2)
                (plotLeftSidebar self2)
                (mkSvg size size sectorGroups (plotBlips self2))
                (plotRightSidebar self2)
                (radar self2),
       Normal (draws st))
  | Throws e => (self, Throws e)
  | IllTyped => (self, IllTyped)
  end.

End Update.

(* ===================================================================== *)
(** ** Predicates and sample inputs used in the statements                *)
(* ===================================================================== *)

(** The same visual in a container of another size. *)
Definition withTarget (self : Visual) (c : Container) : Visual :=
  mkVisual (updateCount self) c (leftSidebar self) (svg self) (rightSidebar self)
           (radar self).

Definition sampleContainer : Container := mkContainer 640 480 10.

(** A stream of draws that keeps returning 0. *)
Definition zeroRandom (n : nat) : R := 0.

Definition accelerate : Ring.t := Ring.mk "Accelerate" 1 "#C7C7C7".

Definition sampleBlip (name : string) : Blip.t :=
  Blip.mk name (VString name) accelerate "X" (VBool false) (VString "") origin.

(** The only sector of a radar with one sector, angles assigned, holding
    two blips of ring Accelerate. *)
Definition fullSector : Sector.t :=
  Sector.mk "X" (VString "X") "#000000" 0 (2 * PI) [sampleBlip "A"; sampleBlip "B"].


(** The first of sixteen sectors, angles assigned, holding two blips of
    ring Accelerate. *)
Definition sixteenthSector : Sector.t :=
  Sector.mk "X" (VString "X") "#000000" 0 (2 * PI / 16) [sampleBlip "A"; sampleBlip "B"].

(** A spot of ring Accelerate on the middle line of [sixteenthSector],
    half-way between the least and the greatest distance of a candidate. *)
Definition midSpot : Point :=
  mkPoint (8.4375 * sin (PI / 16)) (8.4375 * cos (PI / 16)).

(** A visual whose radar is the one sector [fullSector], before layout. *)
Definition sampleVisual : Visual :=
  mkVisual 1 sampleContainer [] (mkSvg 0 0 [] []) []
           (Radar.mk [fullSector] (Radar.rings Radar.new)).


(** The invariant of a layout run: every placed point is further than 2.1
    blip radii from the points placed before it, unless its placement
    ended with [attemptCount] at 11. *)
Definition spaced (self : Visual) (st : LayoutState) : Prop :=
  List.length (attemptLog st) = List.length (allCoordinates st) /\
  forall i j ci cj aj,
    (i < j)%nat ->
    nth_error (allCoordinates st) i = Some ci ->
    nth_error (allCoordinates st) j = Some cj ->
    nth_error (attemptLog st) j = Some aj ->
    distanceBetweenPoints self cj ci > calculateBlipRadius self * 2.1 \/ aj = 11%nat.

(** The keys under which a row is filed, and what the scan makes of it. *)
Definition sectorIndexOf (dataView : DataView) : Z :=
  indexOf (columnMap (table dataView)) "sector".

Definition ringIndexOf (dataView : DataView) : Z :=
  indexOf (columnMap (table dataView)) "ring".

Definition rowSectorKey (dataView : DataView) (v : Row) : string :=
  toPropertyKey (rowGet v (sectorIndexOf dataView)).

Definition rowRingKey (dataView : DataView) (v : Row) : string :=
  toPropertyKey (rowGet v (ringIndexOf dataView)).

(** The ring of a row, when its ring field names one of the four rings. *)
Definition rowRing (dataView : DataView) (v : Row) : option Ring.t :=
  getOwn ringMap (rowRingKey dataView v).

Definition rowRingOrder (dataView : DataView) (v : Row) : option nat :=
  option_map Ring.order (rowRing dataView v).

(** The blip that the scan builds from a row. *)
Definition rowBlip (blipId : value -> string) (dataView : DataView) (v : Row)
  : option Blip.t :=
  let cm := columnMap (table dataView) in
  match rowRing dataView v with
  | Some ring =>
      Some (Blip.mk (blipId (rowGet v (indexOf cm "name")))
                    (rowGet v (indexOf cm "name"))
                    ring
                    (rowSectorKey dataView v)
                    (rowGet v (indexOf cm "isNew"))
                    (rowGet v (indexOf cm "description"))
                    origin)
  | None => None
  end.

(** Rows the scan can file: the ring is one of the four, and the sector
    name is not a member of [Object.prototype]. *)
Definition filedRow (dataView : DataView) (v : Row) : bool :=
  match rowRing dataView v with Some _ => true | None => false end
  && negb (inheritedKey (rowSectorKey dataView v)).

(** Rows that are filed and whose sector name is not an array index. *)
Definition plainRow (dataView : DataView) (v : Row) : bool :=
  filedRow dataView v
  && match arrayIndex (rowSectorKey dataView v) with Some _ => false | None => true end.

(** The test "this key is the ring order n". *)
Definition hasOrder (n : nat) (a : option nat) : bool :=
  match a with
  | Some m => (m =? n)%nat
  | None => false
  end.

(** Ascending order of the keys of a keyed list. *)
Definition keyOrdered {A : Type} (a b : option nat * A) : Prop :=
  keyLe (fst a) (fst b) = true.

(** The blips filed under a key of the [sectors] object. *)
Definition blipsUnder (o : JsObject Sector.t) (k : string) : list Blip.t :=
  match getOwn o k with
  | Some s => Sector.blips s
  | None => []
  end.

(** Every sector of the [sectors] object is filed under its own name. *)
Definition filedByName (o : JsObject Sector.t) : Prop :=
  Forall (fun kv => toPropertyKey (Sector.name (snd kv)) = fst kv) o.

(** The distinct elements of a list, in order of first appearance. *)
Fixpoint firstSeen (l : list string) : list string :=
  match l with
  | [] => []
  | k :: l' => k :: filter (fun k' => negb (String.eqb k' k)) (firstSeen l')
  end.

(** Sample host parameters: ids are the names themselves, and the colour
    generator keeps returning black. *)
Definition sampleId (v : value) : string := toPropertyKey v.

Definition sampleColour (n : nat) : string := "#000000".

Definition roleColumns : list Column :=
  map (fun role => mkColumn [role]) ["name"; "description"; "sector"; "ring"; "isNew"].

Definition sampleRow (name sector ring : string) : Row :=
  [VString name; VString ""; VString sector; VString ring; VBool false].

Definition sampleView (rs : list Row) : DataView :=
  mkDataView (mkTable roleColumns rs) (mkMetadata None).

(** The three rows of the specification's example. *)
Definition exampleRows : list Row :=
  [ sampleRow "A" "X" "Accelerate"; sampleRow "B" "X" "Pause";
    sampleRow "C" "Y" "Progress" ].

(** A good row followed by a row whose ring is unknown. *)
Definition unknownRingRows : list Row :=
  [ sampleRow "A" "X" "Accelerate"; sampleRow "B" "X" "Unknown" ].

(** Two sectors named by numerals, the larger one first. *)
Definition numeralRows : list Row :=
  [ sampleRow "A" "2" "Accelerate"; sampleRow "B" "1" "Accelerate" ].

(** A table without the ring column, and without rows. *)
Definition ringlessEmptyView : DataView :=
  mkDataView
    (mkTable (map (fun role => mkColumn [role]) ["name"; "description"; "sector"; "isNew"])
             [])
    (mkMetadata None).

(** A table without the ring column, with one row. *)
Definition ringlessView : DataView :=
  mkDataView
    (mkTable (map (fun role => mkColumn [role]) ["name"; "description"; "sector"; "isNew"])
             [[VString "A"; VString ""; VString "X"; VBool false]])
    (mkMetadata None).

(* ===================================================================== *)
(** ** Further code of the visual and notions for its properties         *)
(* ===================================================================== *)

(** One entry of the list that [enumerateObjectInstances] returns. *)
Record ObjectInstance : Type := mkObjectInstance {
  objectName : string;
  displayName : value;
  fillColour : string;
  selector : Sector.t
}.

(** [enumerateObjectInstances]: for the object [colourSelector], one
    instance per sector of the radar; for any other name, nothing. *)
Definition enumerateObjectInstances (self : Visual) (name : string)
  : list ObjectInstance :=
  if String.eqb name "colourSelector"
  then map (fun sector =>
              mkObjectInstance name (Sector.name sector) (Sector.colour sector) sector)
           (Radar.sectors (radar self))
  else [].

(** A blip and a sector with the layout's coordinates put back to the
    origin: what remains is what the layout must not touch. *)
Definition eraseCoordinates (b : Blip.t) : Blip.t := Blip.setCoordinates b origin.

Definition eraseLayout (s : Sector.t) : Sector.t :=
  Sector.setBlips s (map eraseCoordinates (Sector.blips s)).

(** All the blips held in a [sectors] object. *)
Definition allBlips (o : JsObject Sector.t) : list Blip.t :=
  flat_map (fun kv => Sector.blips (snd kv)) o.

(** The blips of a list of rows, in row order. *)
Definition rowBlips (blipId : value -> string) (dataView : DataView) (l : list Row)
  : list Blip.t :=
  flat_map (fun v => match rowBlip blipId dataView v with
                     | Some b => [b]
                     | None => []
                     end) l.

(** No key of the object is also a member of [Object.prototype]. *)
Definition noInheritedKey (o : JsObject Sector.t) : Prop :=
  Forall (fun k => inheritedKey k = false) (map fst o).

(** What the scan keeps true of every sector it holds: the id comes from
    the name, the colour is the stored one or a generated one according to
    the colour store, the sector has a blip, and every blip points back to
    the sector and carries one of the four rings. *)
Definition sectorInvariant (sectorId : value -> string) (getColour : nat -> string)
    (md : Metadata) (s : Sector.t) : Prop :=
  Sector.id s = sectorId (Sector.name s) /\
  (exists stored, colourLookup md (Sector.id s) = Normal stored /\
                  match stored with
                  | Some c => Sector.colour s = c
                  | None => exists n, Sector.colour s = getColour n
                  end) /\
  Sector.blips s <> [] /\
  Forall (fun b => Blip.sector b = toPropertyKey (Sector.name s) /\
                   In (Blip.ring b) (map snd ringMap))
         (Sector.blips s).

(** The five fields that the scan reads from a row. *)
Definition rowFields (dataView : DataView) (v : Row)
  : value * value * value * value * value :=
  let cm := columnMap (table dataView) in
  (rowGet v (indexOf cm "name"), rowGet v (indexOf cm "description"),
   rowGet v (indexOf cm "sector"), rowGet v (indexOf cm "ring"),
   rowGet v (indexOf cm "isNew")).

(** The example table with its columns in another order. *)
Definition shuffledExampleView : DataView :=
  mkDataView
    (mkTable
       (map (fun role => mkColumn [role]) ["ring"; "isNew"; "name"; "sector"; "description"])
       [ [VString "Accelerate"; VBool false; VString "A"; VString "X"; VString ""];
         [VString "Pause"; VBool false; VString "B"; VString "X"; VString ""];
         [VString "Progress"; VBool false; VString "C"; VString "Y"; VString ""] ])
    (mkMetadata None).

(** The colour store answers for an id: the condition of the colour
    branch and the read after it complete without throwing. *)
Definition storeReadable (md : Metadata) (id : string) : bool :=
  match colourLookup md id with
  | Normal _ => true
  | _ => false
  end.

(** The colour store answers for the sector of a row. *)
Definition readableRow (sectorId : value -> string) (dataView : DataView) (v : Row) : bool :=
  storeReadable (metadata dataView) (sectorId (rowGet v (sectorIndexOf dataView))).

(** A colour store whose [$instances] is the given object. *)
Definition storeOf (held : JsObject Instance) : Metadata :=
  mkMetadata (Some (mkObjects (Some (mkColourSelector (Some held))))).

(** An instance with a solid fill of the given colour. *)
Definition solidFill (c : string) : Instance :=
  mkInstance (Some (mkFill (Some (mkSolid c)))).

(** The example table with a store that holds the colour of sector X. *)
Definition storedExampleView : DataView :=
  mkDataView (mkTable roleColumns exampleRows) (storeOf [("X", solidFill "#123456")]).

(** A visual whose radar holds sector X with the colour of the store. *)
Definition storedVisual : Visual :=
  mkVisual 1 sampleContainer [] (mkSvg 0 0 [] []) []
           (Radar.mk [Sector.mk "X" (VString "X") "#123456" 0 (2 * PI) []]
                     (Radar.rings Radar.new)).

(** The example table with a store whose [$instances] is empty. *)
Definition emptyStoreView : DataView :=
  mkDataView (mkTable roleColumns exampleRows) (storeOf []).

(** The example table with a store that has no [colourSelector]. *)
Definition brokenStoreView : DataView :=
  mkDataView (mkTable roleColumns exampleRows) (mkMetadata (Some (mkObjects None))).

(** The order in which [for .. in] visits an object whose keys were
    inserted in the given order: array-index keys ascending, then the
    other keys as inserted. *)
Definition enumerationOrder (keys : list string) : list string :=
  map fst (forIn (map (fun k => (k, tt)) keys)).

(** The sector entries among the children of the left sidebar. *)
Definition sidebarGroups (l : list SidebarNode) : list SidebarNode :=
  filter (fun node => match node with
                      | SectorEntry _ _ _ _ => true
                      | BlipDescription => false
                      end) l.





(* ===================================================================== *)
(** ** The embedding on sample inputs                                     *)
(* ===================================================================== *)

(** [for .. in] lists the numeral keys first, in numeric order. *)
Example forIn_numerals_first :
  map fst (forIn [("b", 1%nat); ("10", 2%nat); ("2", 3%nat); ("a", 4%nat)])
  = ["2"; "10"; "b"; "a"].
Proof. reflexivity. Qed.

Example indexOf_absent : indexOf (columnMap (mkTable roleColumns [])) "colour" = (-1)%Z.
Proof. reflexivity. Qed.

Example rowGet_outside : rowGet (sampleRow "A" "X" "Pause") (-1) = VUndefined.
Proof. reflexivity. Qed.

(** The sort is by ring order and keeps the order of rows of one ring. *)
Example sortBy_rings :
  sortBy [ sampleRow "A" "X" "Pause"; sampleRow "B" "Y" "Accelerate";
           sampleRow "C" "Z" "Pause"; sampleRow "D" "X" "Accelerate" ]
         (ringOrder 3)
  = Normal [ sampleRow "B" "Y" "Accelerate"; sampleRow "D" "X" "Accelerate";
             sampleRow "A" "X" "Pause"; sampleRow "C" "Z" "Pause" ].
Proof. reflexivity. Qed.

(** A sector named like a member of Object.prototype is never created:
    the call of [addBlip] on the inherited member throws. *)
Example inherited_sector_name_throws :
  transformData sampleId sampleId sampleColour
    (sampleView [sampleRow "A" "constructor" "Accelerate"])
  = Throws TypeError.
Proof. reflexivity. Qed.

(** A ring named like a member of Object.prototype passes the sort and
    reaches [new Blip] as something that is not a ring. *)
Example inherited_ring_name_is_ill_typed :
  transformData sampleId sampleId sampleColour
    (sampleView [sampleRow "A" "X" "toString"])
  = IllTyped.
Proof. reflexivity. Qed.

(* ===================================================================== *)
(** ** Properties of the placement loop                                   *)
(* ===================================================================== *)

Section LoopFacts.

Variable random : nat -> R.
Variable self : Visual.
Variable allCoordinates : list Point.
Variables min_angle max_angle min_distance max_distance : R.

Local Abbreviation cand :=
  (candidate random self min_angle max_angle min_distance max_distance).
Local Abbreviation loop :=
  (placementLoop random self allCoordinates
     min_angle max_angle min_distance max_distance).

(** The loop, unfolded once. *)
Lemma placementLoop_step attemptCount draw :
  loop attemptCount draw =
  if lt_dec 10 (S attemptCount)
  then mkPlacement (cand draw) (S attemptCount) (S (S draw))
  else if coordinatesAreFree self (cand draw) allCoordinates
       then mkPlacement (cand draw) (S attemptCount) (S (S draw))
       else loop (S attemptCount) (S (S draw)).
Proof.
  rewrite placementLoop_unfold_eq at 1.
  unfold placementLoop_unfold.
  destruct (lt_dec 10 (S attemptCount)); simpl; [reflexivity |].
  destruct (coordinatesAreFree self _ allCoordinates); reflexivity.
Qed.

(** What a run of the loop entered at [attemptCount] returns: it makes
    some number [n] of rejected passes and then one accepted pass. *)
Lemma placementLoop_run attemptCount draw :
  (attemptCount <= 10)%nat ->
  exists n : nat,
    (attemptCount + n <= 10)%nat /\
    loop attemptCount draw =
      mkPlacement (cand (draw + 2 * n)) (S (attemptCount + n)) (draw + 2 * S n) /\
    (forall m, (m < n)%nat ->
       coordinatesAreFree self (cand (draw + 2 * m)) allCoordinates = false) /\
    ((attemptCount + n < 10)%nat ->
       coordinatesAreFree self (cand (draw + 2 * n)) allCoordinates = true).
Proof.
  intros Hle.
  remember (10 - attemptCount)%nat as k eqn:Hk.
  revert attemptCount draw Hle Hk.
  induction k as [|k IH]; intros attemptCount draw Hle Hk.
  - exists 0%nat. rewrite placementLoop_step.
    destruct (lt_dec 10 (S attemptCount)) as [_|Hn]; [|lia].
    replace (draw + 2 * 0)%nat with draw by lia.
    replace (draw + 2 * 1)%nat with (S (S draw)) by lia.
    replace (attemptCount + 0)%nat with attemptCount by lia.
    repeat split; try lia.
  - rewrite placementLoop_step.
    destruct (lt_dec 10 (S attemptCount)) as [Hl|_]; [lia|].
    destruct (coordinatesAreFree self (cand draw) allCoordinates) eqn:Hfree.
    + exists 0%nat.
      replace (draw + 2 * 0)%nat with draw by lia.
      replace (draw + 2 * 1)%nat with (S (S draw)) by lia.
      replace (attemptCount + 0)%nat with attemptCount by lia.
      repeat split; try lia. intros _. exact Hfree.
    + destruct (IH (S attemptCount) (S (S draw))) as (n & Hn & Heq & Hrej & Hacc);
        try lia.
      exists (S n).
      replace (draw + 2 * S n)%nat with (S (S draw) + 2 * n)%nat by lia.
      replace (draw + 2 * S (S n))%nat with (S (S draw) + 2 * S n)%nat by lia.
      replace (attemptCount + S n)%nat with (S attemptCount + n)%nat by lia.
      repeat split; try lia.
      * exact Heq.
      * intros m Hm. destruct m as [|m].
        -- replace (draw + 2 * 0)%nat with draw by lia. exact Hfree.
        -- replace (draw + 2 * S m)%nat with (S (S draw) + 2 * m)%nat by lia.
           apply Hrej. lia.
      * exact Hacc.
Qed.

(** When the first ten candidates all collide, an eleventh is drawn and
    returned without a check. *)
Lemma placementLoop_exhausts draw :
  (forall m, (m < 10)%nat ->
     coordinatesAreFree self (cand (draw + 2 * m)) allCoordinates = false) ->
  loop 0 draw = mkPlacement (cand (draw + 20)) 11 (draw + 22).
Proof.
  intros Hcollide.
  destruct (placementLoop_run 0 draw) as (n & Hn & Heq & _ & Hacc); [lia|].
  assert (n = 10)%nat as ->.
  { destruct (Nat.eq_dec n 10) as [|Hne]; [assumption|].
    assert (n < 10)%nat as Hlt by lia.
    specialize (Hcollide n Hlt). rewrite Hacc in Hcollide by lia. discriminate. }
  rewrite Heq. reflexivity.
Qed.

End LoopFacts.

(** A placement always comes back, after at most eleven candidates; up to
    the tenth the returned candidate has passed the overlap check. *)
Lemma generateBlipCoordinates_attempts random self sector ring allCoordinates draw :
  let p := generateBlipCoordinates random self sector ring allCoordinates draw in
  (1 <= attempts p <= 11)%nat /\
  nextDraw p = (draw + 2 * attempts p)%nat /\
  ((attempts p <= 10)%nat -> coordinatesAreFree self (placed p) allCoordinates = true).
Proof.
  unfold generateBlipCoordinates.
  match goal with
  | |- context [placementLoop random self allCoordinates ?a ?b ?c ?d 0 draw] =>
      destruct (placementLoop_run random self allCoordinates a b c d 0 draw)
        as (n & Hn & Heq & _ & Hacc); [lia|]; rewrite Heq
  end.
  simpl in *. repeat split; try lia.
  intros Hle. apply Hacc. lia.
Qed.

(* ===================================================================== *)
(** ** The drawing surface does not enter the layout                      *)
(* ===================================================================== *)

Lemma placementLoop_self_irrelevant random (self self' : Visual) allCoordinates
    min_angle max_angle min_distance max_distance attemptCount draw :
  placementLoop random self' allCoordinates min_angle max_angle
    min_distance max_distance attemptCount draw
  = placementLoop random self allCoordinates min_angle max_angle
    min_distance max_distance attemptCount draw.
Proof.
  remember (11 - attemptCount)%nat as k eqn:Hk.
  revert attemptCount draw Hk.
  induction k as [|k IH]; intros attemptCount draw Hk;
    rewrite (placementLoop_step random self'), (placementLoop_step random self);
    destruct (lt_dec 10 (S attemptCount)) as [Hl|Hn]; try reflexivity; try lia.
  change (coordinatesAreFree self'
            (candidate random self' min_angle max_angle min_distance max_distance draw)
            allCoordinates)
    with (coordinatesAreFree self
            (candidate random self min_angle max_angle min_distance max_distance draw)
            allCoordinates).
  destruct (coordinatesAreFree self _ allCoordinates); [reflexivity|].
  apply IH. lia.
Qed.

Lemma calculateRingRadii_same_radar (self self' : Visual) ring :
  radar self' = radar self ->
  calculateRingRadii self' ring = calculateRingRadii self ring.
Proof. intros H. unfold calculateRingRadii. rewrite H. reflexivity. Qed.

Lemma generateBlipCoordinates_same_radar random (self self' : Visual)
    sector ring allCoordinates draw :
  radar self' = radar self ->
  generateBlipCoordinates random self' sector ring allCoordinates draw
  = generateBlipCoordinates random self sector ring allCoordinates draw.
Proof.
  intros H. unfold generateBlipCoordinates.
  rewrite (calculateRingRadii_same_radar self self' ring H).
  apply placementLoop_self_irrelevant.
Qed.

Lemma placeBlips_same_radar random (self self' : Visual) sector blips st :
  radar self' = radar self ->
  placeBlips random self' sector blips st = placeBlips random self sector blips st.
Proof.
  intros H. revert st. induction blips as [|blip blips IH]; intros st; simpl.
  - reflexivity.
  - unfold placeBlip.
    rewrite (generateBlipCoordinates_same_radar random self self' _ _ _ _ H).
    rewrite IH. reflexivity.
Qed.

Lemma placeSectors_same_radar random (self self' : Visual) sectors st :
  radar self' = radar self ->
  placeSectors random self' sectors st = placeSectors random self sectors st.
Proof.
  intros H. revert st. induction sectors as [|sector sectors IH]; intros st; simpl.
  - reflexivity.
  - rewrite (placeBlips_same_radar random self self' _ _ _ H).
    destruct (placeBlips random self sector (Sector.blips sector) st) as [blips' st1].
    rewrite IH. reflexivity.
Qed.

(** C10: [getViewBoxSize] is always 100 and [calculateCenter] always
    (50, 50); ring radii are fractions of the radius 50, and neither they
    nor the coordinates given to the blips change with the width, height
    or padding of the container the visual is drawn in. *)
Theorem viewbox_space_is_fixed (self : Visual) (c : Container) :
  getViewBoxSize self = 100 /\
  calculateCenter self = mkPoint 50 50 /\
  (forall ring,
     calculateRingRadii self ring =
     mkRadii (50 * (INR (Ring.order ring) - 1) / INR (List.length (Radar.rings (radar self))))
             (50 * INR (Ring.order ring) / INR (List.length (Radar.rings (radar self))))) /\
  (forall ring,
     calculateRingRadii (withTarget self c) ring = calculateRingRadii self ring) /\
  (forall random sector ring allCoordinates draw,
     generateBlipCoordinates random (withTarget self c) sector ring allCoordinates draw
     = generateBlipCoordinates random self sector ring allCoordinates draw) /\
  (forall random draw,
     radar (fst (setBlipCoordinates random (withTarget self c) draw))
     = radar (fst (setBlipCoordinates random self draw))).
Proof.
  repeat split.
  - unfold calculateCenter, getViewBoxSize. f_equal; lra.
  - intros ring. unfold calculateRingRadii, getViewBoxSize.
    f_equal; f_equal; f_equal; lra.
  - intros random sector ring allCoordinates draw.
    apply generateBlipCoordinates_same_radar. reflexivity.
  - intros random draw. unfold setBlipCoordinates.
    rewrite (placeSectors_same_radar random self (withTarget self c)) by reflexivity.
    simpl.
    destruct (placeSectors random self (Radar.sectors (radar self))
                (mkLayoutState [] [] draw)) as [sectors' st].
    reflexivity.
Qed.

(* ===================================================================== *)
(** ** Ring radii                                                         *)
(* ===================================================================== *)

(** C4: with K rings and the radius R of the drawing space,
    [calculateRingRadii] gives ring k the radii R(k-1)/K and Rk/K; the
    inner radius of a ring is the outer radius of the ring before it, the
    last ring ends at R, the first starts at 0, and all rings have the
    same width R/K. *)
Theorem ring_radii_are_contiguous (self : Visual) :
  let radius := getViewBoxSize self / 2 in
  let K := List.length (Radar.rings (radar self)) in
  (0 < K)%nat ->
  (forall ring,
     calculateRingRadii self ring =
     mkRadii (radius * (INR (Ring.order ring) - 1) / INR K)
             (radius * INR (Ring.order ring) / INR K)) /\
  (forall ring ring',
     Ring.order ring = S (Ring.order ring') ->
     inner (calculateRingRadii self ring) = outer (calculateRingRadii self ring')) /\
  (forall ring,
     Ring.order ring = K -> outer (calculateRingRadii self ring) = radius) /\
  (forall ring,
     Ring.order ring = 1%nat -> inner (calculateRingRadii self ring) = 0) /\
  (forall ring,
     outer (calculateRingRadii self ring) - inner (calculateRingRadii self ring)
     = radius / INR K).
Proof.
  intros radius K HK.
  assert (INR K <> 0) as HK0 by (apply not_0_INR; lia).
  repeat split.
  - intros ring ring' Hk. unfold calculateRingRadii; simpl.
    rewrite Hk, S_INR. fold K. f_equal. f_equal. ring.
  - intros ring Hk. unfold calculateRingRadii; simpl.
    rewrite Hk. fold K. fold radius. field. exact HK0.
  - intros ring Hk. unfold calculateRingRadii; simpl.
    rewrite Hk. fold K. simpl INR. field. exact HK0.
  - intros ring. unfold calculateRingRadii; simpl. fold K. fold radius.
    field. exact HK0.
Qed.

Lemma ring_radii_are_contiguous_witness :
  (0 < List.length (Radar.rings (radar sampleVisual)))%nat /\
  (forall ring,
     Ring.order ring = List.length (Radar.rings (radar sampleVisual)) ->
     outer (calculateRingRadii sampleVisual ring) = getViewBoxSize sampleVisual / 2).
Proof.
  split.
  - simpl. lia.
  - apply (ring_radii_are_contiguous sampleVisual). simpl. lia.
Defined.

(* ===================================================================== *)
(** ** Blip placement: number of candidates                               *)
(* ===================================================================== *)


Lemma distanceBetweenPoints_sym self p q :
  distanceBetweenPoints self p q = distanceBetweenPoints self q p.
Proof.
  unfold distanceBetweenPoints. f_equal. ring.
Qed.


(** Being free means being further than 2.1 blip radii from every point. *)
Lemma coordinatesAreFree_spec self p allCoordinates :
  coordinatesAreFree self p allCoordinates = true <->
  forall q, In q allCoordinates ->
            distanceBetweenPoints self p q > calculateBlipRadius self * 2.1.
Proof.
  unfold coordinatesAreFree. rewrite forallb_forall. split.
  - intros H q Hq. specialize (H q Hq).
    destruct (Rgt_dec (distanceBetweenPoints self p q) (calculateBlipRadius self * 2.1));
      [assumption | discriminate].
  - intros H q Hq. specialize (H q Hq).
    destruct (Rgt_dec (distanceBetweenPoints self p q) (calculateBlipRadius self * 2.1));
      [reflexivity | contradiction].
Qed.


(** Two points on the same ray from the centre are as far apart as their
    distances from the centre differ. *)
Lemma distance_on_a_ray self d m a :
  distanceBetweenPoints self (polarToCartesian self (mkPolar d a))
                             (polarToCartesian self (mkPolar m a))
  = Rabs (d - m).
Proof.
  unfold distanceBetweenPoints, polarToCartesian. cbn [x y distance angle].
  replace ((d * sin a - m * sin a) ^ 2 + (d * cos a - m * cos a) ^ 2)
    with (Rsqr (d - m)).
  - apply sqrt_Rsqr_abs.
  - pose proof (sin2_cos2 a) as H. unfold Rsqr in *.
    transitivity ((d - m) * (d - m) * (sin a * sin a + cos a * cos a)).
    + rewrite H. ring.
    + ring.
Qed.

(** The ranges from which the candidates of ring Accelerate are drawn in
    [sixteenthSector]: a single angle, and the distances from 5.625 to
    11.25. *)
Lemma sixteenthSector_candidates random allCoordinates draw :
  exists max_angle min_distance,
    max_angle = PI / 16 /\ min_distance = 5.625 /\
    generateBlipCoordinates random sampleVisual sixteenthSector accelerate
      allCoordinates draw
    = placementLoop random sampleVisual allCoordinates
        (0 + PI / 16) max_angle min_distance (12.5 * 0.9) 0 draw.
Proof.
  unfold generateBlipCoordinates. cbv zeta.
  assert (calculateRingRadii sampleVisual accelerate = mkRadii 0 12.5) as ->.
  { unfold calculateRingRadii, getViewBoxSize. simpl. f_equal; lra. }
  cbn [inner outer Sector.startAngle Sector.endAngle sixteenthSector].
  do 2 eexists. split; [|split; [|reflexivity]].
  - lra.
  - destruct (Req_dec_T (0 * 1.1) 0) as [_|Hne]; lra.
Qed.

(** C2: placement does not stop at the tenth candidate.  In the first of
    sixteen sectors, with a blip of ring Accelerate already at [midSpot],
    every candidate for a second blip of that ring collides with it,
    whatever the draws are: ten candidates are drawn and rejected, an
    eleventh is drawn and returned unchecked, [attemptCount] ends at 11
    and 22 draws are consumed. *)
Theorem eleventh_candidate_is_drawn (random : nat -> R) :
  (forall n, 0 <= random n < 1) ->
  attempts (generateBlipCoordinates random sampleVisual sixteenthSector accelerate
              [midSpot] 0) = 11%nat /\
  nextDraw (generateBlipCoordinates random sampleVisual sixteenthSector accelerate
              [midSpot] 0) = 22%nat.
Proof.
  intros Hrandom.
  destruct (sixteenthSector_candidates random [midSpot] 0)
    as (max_angle & min_distance & -> & -> & ->).
  rewrite placementLoop_exhausts; [split; reflexivity|].
  intros m _.
  set (n := (0 + 2 * m)%nat).
  destruct (coordinatesAreFree sampleVisual
              (candidate random sampleVisual (0 + PI / 16) (PI / 16) 5.625 (12.5 * 0.9) n)
              [midSpot]) eqn:Hfree; [|reflexivity].
  exfalso. rewrite coordinatesAreFree_spec in Hfree.
  specialize (Hfree midSpot (or_introl eq_refl)).
  unfold candidate in Hfree.
  replace (random n * (PI / 16 - (0 + PI / 16)) + (0 + PI / 16)) with (PI / 16) in Hfree
    by ring.
  change midSpot
    with (polarToCartesian sampleVisual (mkPolar 8.4375 (PI / 16))) in Hfree.
  rewrite distance_on_a_ray in Hfree. unfold calculateBlipRadius in Hfree.
  pose proof (Hrandom (S n)) as Hr.
  unfold Rabs in Hfree.
  destruct (Rcase_abs (random (S n) * (12.5 * 0.9 - 5.625) + 5.625 - 8.4375)); lra.
Qed.

Lemma eleventh_candidate_is_drawn_witness :
  attempts (generateBlipCoordinates zeroRandom sampleVisual sixteenthSector accelerate
              [midSpot] 0) = 11%nat.
Proof.
  apply (eleventh_candidate_is_drawn zeroRandom).
  intros n. unfold zeroRandom. lra.
Defined.

(* ===================================================================== *)
(** ** Blip placement: where the coordinates lie                          *)
(* ===================================================================== *)

Lemma draw_in_range (u lo hi : R) :
  0 <= u < 1 -> lo <= hi -> lo <= u * (hi - lo) + lo <= hi.
Proof. intros Hu Hlh. nra. Qed.

(** The coordinates returned are one of the candidates of the run. *)
Lemma generateBlipCoordinates_is_candidate random self sector ring allCoordinates draw :
  exists n : nat,
    placed (generateBlipCoordinates random self sector ring allCoordinates draw) =
    candidate random self
      (Sector.startAngle sector + PI / 16) (Sector.endAngle sector - PI / 16)
      (if Req_dec_T (inner (calculateRingRadii self ring) * 1.1) 0
       then outer (calculateRingRadii self ring) * 0.9 / 2
       else inner (calculateRingRadii self ring) * 1.1)
      (outer (calculateRingRadii self ring) * 0.9)
      n.
Proof.
  unfold generateBlipCoordinates. cbv zeta.
  match goal with
  | |- context [placementLoop random self allCoordinates ?a ?b ?c ?d 0 draw] =>
      destruct (placementLoop_run random self allCoordinates a b c d 0 draw)
        as (n & _ & Heq & _); [lia|]; rewrite Heq
  end.
  exists (draw + 2 * n)%nat. reflexivity.
Qed.

(** Radial range of a ring of order 1 to 5. *)
Lemma ring_radii_bounds (self : Visual) (ring : Ring.t) :
  Radar.rings (radar self) <> [] ->
  (1 <= Ring.order ring <= 5)%nat ->
  let radii := calculateRingRadii self ring in
  0 <= inner radii /\ inner radii < outer radii /\
  inner radii * 1.1 <= outer radii * 0.9 /\
  (inner radii = 0 <-> Ring.order ring = 1%nat).
Proof.
  intros Hrings [Hlo Hhi]. unfold calculateRingRadii, getViewBoxSize. simpl.
  set (K := INR (List.length (Radar.rings (radar self)))).
  set (k := INR (Ring.order ring)).
  assert (0 < K) as HK.
  { unfold K. apply lt_0_INR. destruct (Radar.rings (radar self)); [congruence|simpl; lia]. }
  assert (1 <= k) as Hk1.
  { unfold k. change 1 with (INR 1). apply le_INR. exact Hlo. }
  assert (k <= 5) as Hk5.
  { unfold k. replace 5 with (INR 5) by (simpl; lra). apply le_INR. exact Hhi. }
  assert (0 < / K) as HiK by (apply Rinv_0_lt_compat; exact HK).
  unfold Rdiv.
  set (w := / K) in *.
  assert (w <= k * w) as Hkw by nra.
  assert (k * w <= 5 * w) as Hkw5 by nra.
  repeat split; try nra.
  - intros H0. assert (k = 1) as Hk by nra.
    unfold k in Hk. change 1 with (INR 1) in Hk. apply INR_eq in Hk. exact Hk.
  - intros H1. unfold k. rewrite H1. simpl. lra.
Qed.





(* ===================================================================== *)
(** ** Blip placement: spacing                                            *)
(* ===================================================================== *)

Lemma placeBlip_spaced random self sector st blip :
  spaced self st -> spaced self (snd (placeBlip random self sector st blip)).
Proof.
  intros [Hlen Hsp]. unfold placeBlip. simpl.
  set (p := generateBlipCoordinates random self sector (Blip.ring blip)
              (allCoordinates st) (draws st)).
  destruct (generateBlipCoordinates_attempts random self sector (Blip.ring blip)
              (allCoordinates st) (draws st)) as (Hatt & _ & Hfree).
  fold p in Hatt, Hfree.
  unfold spaced. cbn [allCoordinates attemptLog].
  split.
  - rewrite !length_app. simpl. lia.
  - intros i j ci cj aj Hij Hi Hj Ha.
    destruct (Nat.lt_ge_cases j (List.length (allCoordinates st))) as [Hjl|Hjl].
    + rewrite nth_error_app1 in Hi by lia.
      rewrite nth_error_app1 in Hj by lia.
      rewrite nth_error_app1 in Ha by lia.
      exact (Hsp i j ci cj aj Hij Hi Hj Ha).
    + assert (j = List.length (allCoordinates st)) as ->.
      { assert (nth_error (allCoordinates st ++ [placed p]) j <> None) as Hsome
          by (rewrite Hj; discriminate).
        apply nth_error_Some in Hsome. rewrite length_app in Hsome.
        simpl in Hsome. lia. }
      rewrite nth_error_app1 in Hi by lia.
      rewrite nth_error_app2 in Hj by lia.
      rewrite nth_error_app2 in Ha by lia.
      rewrite Nat.sub_diag in Hj. rewrite Hlen, Nat.sub_diag in Ha.
      simpl in Hj, Ha. injection Hj as <-. injection Ha as <-.
      destruct (Nat.eq_dec (attempts p) 11) as [|Hne]; [right; assumption|left].
      assert (coordinatesAreFree self (placed p) (allCoordinates st) = true) as Hf
          by (apply Hfree; lia).
      rewrite coordinatesAreFree_spec in Hf. apply Hf.
      eapply nth_error_In. exact Hi.
Qed.

Lemma placeBlips_spaced random self sector blips st :
  spaced self st ->
  let '(blips', st') := placeBlips random self sector blips st in
  spaced self st' /\
  allCoordinates st' = allCoordinates st ++ map Blip.coordinates blips'.
Proof.
  revert st. induction blips as [|blip blips IH]; intros st Hsp; cbn [placeBlips].
  - split; [assumption|]. cbn [map]. rewrite app_nil_r. reflexivity.
  - pose proof (placeBlip_spaced random self sector st blip Hsp) as Hsp1.
    destruct (placeBlip random self sector st blip) as [blip' st1] eqn:Hplace.
    simpl in Hsp1. specialize (IH st1 Hsp1).
    destruct (placeBlips random self sector blips st1) as [rest st2].
    destruct IH as [Hsp2 Hall]. split; [assumption|].
    rewrite Hall. unfold placeBlip in Hplace. injection Hplace as <- <-.
    simpl. rewrite <- app_assoc. reflexivity.
Qed.

Lemma placeSectors_spaced random self sectors st :
  spaced self st ->
  let '(sectors', st') := placeSectors random self sectors st in
  spaced self st' /\
  allCoordinates st' =
    allCoordinates st ++ map Blip.coordinates (flat_map Sector.blips sectors').
Proof.
  revert st. induction sectors as [|sector sectors IH]; intros st Hsp; cbn [placeSectors].
  - split; [assumption|]. cbn [flat_map map]. rewrite app_nil_r. reflexivity.
  - pose proof (placeBlips_spaced random self sector (Sector.blips sector) st Hsp) as H1.
    destruct (placeBlips random self sector (Sector.blips sector) st) as [blips' st1].
    destruct H1 as [Hsp1 Hall1]. specialize (IH st1 Hsp1).
    destruct (placeSectors random self sectors st1) as [rest st2].
    destruct IH as [Hsp2 Hall2]. split; [assumption|].
    rewrite Hall2, Hall1. simpl. rewrite map_app, app_assoc. reflexivity.
Qed.

(** After [setBlipCoordinates] the coordinates recorded on the blips are
    the placed points, in order, and the run is spaced. *)
Lemma setBlipCoordinates_spaced random self draw :
  let '(self', st) := setBlipCoordinates random self draw in
  spaced self st /\
  map Blip.coordinates (Radar.blips (radar self')) = allCoordinates st.
Proof.
  unfold setBlipCoordinates.
  pose proof (placeSectors_spaced random self (Radar.sectors (radar self))
                (mkLayoutState [] [] draw)) as H.
  destruct (placeSectors random self (Radar.sectors (radar self))
              (mkLayoutState [] [] draw)) as [sectors' st].
  destruct H as [Hsp Hall].
  - split; [reflexivity|]. intros i j ci cj aj _ Hi. destruct i; discriminate.
  - split; [assumption|]. rewrite Hall. reflexivity.
Qed.









(* ===================================================================== *)
(** ** Sector angles                                                      *)
(* ===================================================================== *)

Lemma assignAngles_length n i l :
  List.length (Radar.assignAngles n i l) = List.length l.
Proof.
  revert i. induction l as [|s l IH]; intros i; simpl; [reflexivity|].
  rewrite IH. reflexivity.
Qed.

Lemma assignAngles_nth n i l k s :
  nth_error (Radar.assignAngles n i l) k = Some s ->
  exists s0,
    nth_error l k = Some s0 /\
    s = Sector.setAngles s0 (INR (i + k) * (2 * PI) / INR n)
                            (INR (S (i + k)) * (2 * PI) / INR n).
Proof.
  revert i k. induction l as [|s0 l IH]; intros i k H; simpl in H.
  - destruct k; discriminate.
  - destruct k as [|k]; simpl in H.
    + injection H as <-. exists s0. rewrite Nat.add_0_r. split; reflexivity.
    + destruct (IH (S i) k H) as (s1 & Hs1 & ->).
      exists s1. split; [exact Hs1|].
      replace (S i + k)%nat with (i + S k)%nat by lia. reflexivity.
Qed.

Lemma assignAngles_names n i l :
  map Sector.name (Radar.assignAngles n i l) = map Sector.name l.
Proof.
  revert i. induction l as [|s l IH]; intros i; simpl; [reflexivity|].
  rewrite IH. reflexivity.
Qed.

(** An angle below n arcs of width w lies in one of them. *)
Lemma arc_of_angle (w theta : R) (n : nat) :
  0 <= theta < INR n * w ->
  exists i, (i < n)%nat /\ INR i * w <= theta < INR (S i) * w.
Proof.
  induction n as [|n IH]; intros [H0 Hn].
  - simpl in Hn. lra.
  - destruct (Rlt_le_dec theta (INR n * w)) as [Hlt|Hge].
    + destruct IH as (i & Hi & Harc); [split; assumption|].
      exists i. split; [lia | exact Harc].
    + exists n. split; [lia | split; assumption].
Qed.

(** The arcs that [setSectorAngles] hands out: arc i runs from i*2pi/N to
    (i+1)*2pi/N; the arcs are disjoint, equally wide, and cover exactly
    the angles from 0 (included) to 2pi (excluded). *)
Lemma setSectorAngles_partition (radar : Radar.t) :
  let N := List.length (Radar.sectors radar) in
  let arcs := Radar.sectors (Radar.setSectorAngles radar) in
  (0 < N)%nat ->
  (forall i s,
     nth_error arcs i = Some s ->
     Sector.startAngle s = INR i * (2 * PI) / INR N /\
     Sector.endAngle s = INR (S i) * (2 * PI) / INR N /\
     Sector.endAngle s - Sector.startAngle s = 2 * PI / INR N) /\
  (forall i j s t theta,
     i <> j ->
     nth_error arcs i = Some s ->
     nth_error arcs j = Some t ->
     ~ (Sector.startAngle s <= theta < Sector.endAngle s /\
        Sector.startAngle t <= theta < Sector.endAngle t)) /\
  (forall theta,
     0 <= theta < 2 * PI <->
     exists i s, nth_error arcs i = Some s /\
                 Sector.startAngle s <= theta < Sector.endAngle s).
Proof.
  intros N arcs HN.
  assert (0 < INR N) as HN0 by (apply lt_0_INR; exact HN).
  pose proof PI_RGT_0 as Hpi.
  set (w := 2 * PI / INR N).
  assert (0 < w) as Hw by (unfold w; apply Rdiv_lt_0_compat; lra).
  assert (forall k, INR k * (2 * PI) / INR N = INR k * w) as Hform
      by (intros k; unfold w; field; lra).
  assert (INR N * w = 2 * PI) as Hfull by (unfold w; field; lra).
  assert (forall i s, nth_error arcs i = Some s ->
            Sector.startAngle s = INR i * w /\ Sector.endAngle s = INR (S i) * w)
    as Harc.
  { intros i s Hs. unfold arcs, Radar.setSectorAngles in Hs. simpl in Hs.
    destruct (assignAngles_nth _ _ _ _ _ Hs) as (s0 & _ & ->). simpl Nat.add.
    fold N. rewrite !Hform. split; reflexivity. }
  assert (forall i j : nat, (i < j)%nat -> INR (S i) * w <= INR j * w) as Hmono.
  { intros i j Hij. apply Rmult_le_compat_r; [lra|]. apply le_INR. lia. }
  repeat split.
  - rewrite Hform. apply Harc. assumption.
  - rewrite Hform. apply Harc. assumption.
  - destruct (Harc i s H) as [-> ->]. rewrite S_INR. fold w. ring.
  - intros i j s t theta Hij Hs Ht [[Hs1 Hs2] [Ht1 Ht2]].
    destruct (Harc i s Hs) as [Es1 Es2]. destruct (Harc j t Ht) as [Et1 Et2].
    rewrite Es1, Es2 in *. rewrite Et1, Et2 in *.
    destruct (Nat.lt_total i j) as [Hlt|[Heq|Hgt]]; [| contradiction |].
    + pose proof (Hmono i j Hlt). lra.
    + pose proof (Hmono j i Hgt). lra.
  - intros Htheta.
    destruct (arc_of_angle w theta N) as (i & Hi & Hin); [rewrite Hfull; exact Htheta|].
    assert (i < List.length arcs)%nat as Hlen.
    { unfold arcs, Radar.setSectorAngles. simpl. rewrite assignAngles_length. exact Hi. }
    apply nth_error_Some in Hlen.
    destruct (nth_error arcs i) as [s|] eqn:Hs; [|congruence].
    exists i, s. split; [exact Hs|].
    destruct (Harc i s Hs) as [-> ->]. exact Hin.
  - destruct H as (i & s & Hs & Hs1 & Hs2).
    destruct (Harc i s Hs) as [Es1 Es2]. rewrite Es1 in Hs1.
    assert (0 <= INR i) by apply pos_INR. nra.
  - destruct H as (i & s & Hs & Hs1 & Hs2).
    destruct (Harc i s Hs) as [Es1 Es2]. rewrite Es2 in Hs2.
    assert (i < N)%nat as Hi.
    { assert (nth_error arcs i <> None) as Hn by (rewrite Hs; discriminate).
      apply nth_error_Some in Hn. unfold arcs, Radar.setSectorAngles in Hn.
      simpl in Hn. rewrite assignAngles_length in Hn. exact Hn. }
    assert (INR (S i) * w <= INR N * w) as Hle.
    { apply Rmult_le_compat_r; [lra|]. apply le_INR. lia. }
    lra.
Qed.

(* ===================================================================== *)
(** ** The sort                                                           *)
(* ===================================================================== *)

Lemma keyLe_total a b : keyLe a b = false -> keyLe b a = true.
Proof.
  destruct a as [m|], b as [n|]; simpl; intros H; try reflexivity; try discriminate.
  apply Nat.leb_gt in H. apply Nat.leb_le. lia.
Qed.

Lemma keyLe_trans a b c : keyLe a b = true -> keyLe b c = true -> keyLe a c = true.
Proof.
  destruct a as [m|], b as [n|], c as [p|]; simpl; intros H1 H2;
    try reflexivity; try discriminate.
  apply Nat.leb_le in H1, H2. apply Nat.leb_le. lia.
Qed.

Section SortFacts.

Context {A : Type}.

Local Abbreviation keyed := (list (option nat * A)).

Lemma insertByKey_perm (e : option nat * A) (l : keyed) :
  Permutation (e :: l) (insertByKey e l).
Proof.
  induction l as [|e' l IH]; simpl; [apply Permutation_refl|].
  destruct (keyLe (fst e) (fst e')); [apply Permutation_refl|].
  eapply perm_trans; [apply perm_swap|]. apply perm_skip. exact IH.
Qed.

Lemma sortKeyed_perm (l : keyed) : Permutation l (sortKeyed l).
Proof.
  induction l as [|e l IH]; simpl; [apply perm_nil|].
  eapply perm_trans; [apply perm_skip; exact IH|]. apply insertByKey_perm.
Qed.

Lemma insertByKey_sorted (e : option nat * A) (l : keyed) :
  StronglySorted (@keyOrdered A) l -> StronglySorted (@keyOrdered A) (insertByKey e l).
Proof.
  induction l as [|e' l IH]; intros Hs; simpl.
  - constructor; constructor.
  - inversion Hs as [|? ? Hs' Hall]; subst.
    destruct (keyLe (fst e) (fst e')) eqn:Hle.
    + constructor; [exact Hs|]. constructor; [exact Hle|].
      eapply Forall_impl; [|exact Hall]. intros c Hc.
      unfold keyOrdered in *. eapply keyLe_trans; eassumption.
    + constructor; [apply IH; exact Hs'|].
      apply (Permutation_Forall (insertByKey_perm e l)).
      constructor; [|exact Hall].
      unfold keyOrdered. apply keyLe_total. exact Hle.
Qed.

Lemma sortKeyed_sorted (l : keyed) : StronglySorted (@keyOrdered A) (sortKeyed l).
Proof.
  induction l as [|e l IH]; simpl; [constructor|].
  apply insertByKey_sorted. exact IH.
Qed.

(** Stability: what is selected by a test on the key keeps its order. *)
Lemma insertByKey_filter (p : option nat -> bool) (e : option nat * A) (l : keyed) :
  (forall a b, p a = true -> p b = true -> keyLe a b = true) ->
  filter (fun c => p (fst c)) (insertByKey e l)
  = filter (fun c => p (fst c)) (e :: l).
Proof.
  intros Hp. induction l as [|e' l IH]; simpl; [reflexivity|].
  destruct (keyLe (fst e) (fst e')) eqn:Hle; [reflexivity|].
  simpl. simpl in IH. rewrite IH.
  destruct (p (fst e)) eqn:He; [|reflexivity].
  destruct (p (fst e')) eqn:He'; [|reflexivity].
  rewrite (Hp _ _ He He') in Hle. discriminate.
Qed.

Lemma sortKeyed_filter (p : option nat -> bool) (l : keyed) :
  (forall a b, p a = true -> p b = true -> keyLe a b = true) ->
  filter (fun c => p (fst c)) (sortKeyed l) = filter (fun c => p (fst c)) l.
Proof.
  intros Hp. induction l as [|e l IH]; simpl; [reflexivity|].
  rewrite (insertByKey_filter p e (sortKeyed l) Hp). simpl. rewrite IH. reflexivity.
Qed.

End SortFacts.

(** [sortBy] with an iteratee that returns a key on every element. *)
Lemma sortBy_spec {A : Type} (l : list A) (f : A -> Completion (option nat))
    (k : A -> option nat) :
  (forall o, In o l -> f o = Normal (k o)) ->
  exists sorted,
    sortBy l f = Normal sorted /\
    Permutation l sorted /\
    StronglySorted (fun a b => keyLe (k a) (k b) = true) sorted /\
    (forall p : option nat -> bool,
       (forall a b, p a = true -> p b = true -> keyLe a b = true) ->
       filter (fun o => p (k o)) sorted = filter (fun o => p (k o)) l).
Proof.
  intros Hf.
  set (kl := map (fun o => (k o, o)) l).
  assert (mapM (fun o => bind (f o) (fun key => Normal (key, o))) l = Normal kl) as HmapM.
  { unfold kl. clear - Hf. induction l as [|o l IH]; simpl; [reflexivity|].
    rewrite (Hf o) by (left; reflexivity). simpl.
    rewrite IH by (intros o' Ho'; apply Hf; right; exact Ho'). reflexivity. }
  assert (map snd kl = l) as Hsnd.
  { unfold kl. rewrite map_map. simpl. apply map_id. }
  assert (Forall (fun e => fst e = k (snd e)) (sortKeyed kl)) as Hcons.
  { apply (Permutation_Forall (sortKeyed_perm kl)).
    unfold kl. apply Forall_forall. intros e He.
    apply in_map_iff in He. destruct He as (o & <- & _). reflexivity. }
  exists (map snd (sortKeyed kl)). repeat split.
  - unfold sortBy. rewrite HmapM. reflexivity.
  - rewrite <- Hsnd at 1. apply Permutation_map. apply sortKeyed_perm.
  - assert (forall L : list (option nat * A),
              StronglySorted (@keyOrdered A) L ->
              Forall (fun e => fst e = k (snd e)) L ->
              StronglySorted (fun a b => keyLe (k a) (k b) = true) (map snd L)) as Hss.
    { intros L Hs. induction Hs as [|e L Hs IH Hall]; intros HL0; simpl; [constructor|].
      pose proof (Forall_inv HL0) as He. pose proof (Forall_inv_tail HL0) as HL.
      simpl in He.
      constructor; [apply IH; exact HL|].
      apply Forall_map. rewrite Forall_forall in *. intros c Hc.
      specialize (Hall c Hc). specialize (HL c Hc). unfold keyOrdered in Hall.
      rewrite <- He, <- HL. exact Hall. }
    apply Hss; [apply sortKeyed_sorted | exact Hcons].
  - intros p Hp.
    assert (forall L : list (option nat * A),
              Forall (fun e => fst e = k (snd e)) L ->
              filter (fun o => p (k o)) (map snd L)
              = map snd (filter (fun c => p (fst c)) L)) as Hfm.
    { induction L as [|e L IH]; intros HL; simpl; [reflexivity|].
      pose proof (Forall_inv HL) as He. pose proof (Forall_inv_tail HL) as HL'.
      simpl in He. rewrite <- He.
      destruct (p (fst e)); simpl; rewrite IH by exact HL'; reflexivity. }
    rewrite Hfm by exact Hcons.
    rewrite (sortKeyed_filter p kl Hp).
    rewrite <- Hfm; [rewrite Hsnd; reflexivity|].
    unfold kl. apply Forall_forall. intros e He.
    apply in_map_iff in He. destruct He as (o & <- & _). reflexivity.
Qed.

(** The sort throws as soon as the iteratee throws on one element. *)
Lemma sortBy_throws {A : Type} (l : list A) (f : A -> Completion (option nat)) :
  (forall o, f o <> IllTyped) ->
  (exists o e, In o l /\ f o = Throws e) ->
  sortBy l f = Throws TypeError.
Proof.
  intros Hty (o & e & Ho & Hthrow). unfold sortBy.
  assert (mapM (fun o => bind (f o) (fun key => Normal (key, o))) l = Throws TypeError)
    as ->; [|reflexivity].
  induction l as [|o' l IH]; [contradiction|]. simpl.
  destruct (f o') as [key|e'|] eqn:Hfo'.
  - simpl. destruct Ho as [->|Ho]; [congruence|]. rewrite (IH Ho). reflexivity.
  - destruct e'. reflexivity.
  - exfalso. exact (Hty o' Hfo').
Qed.

(* ===================================================================== *)
(** ** Objects used as maps                                               *)
(* ===================================================================== *)

Section ObjectFacts.

Context {V : Type}.

Lemma getOwn_setProp (o : JsObject V) k v k' :
  getOwn (setProp o k v) k' = if String.eqb k' k then Some v else getOwn o k'.
Proof.
  induction o as [|[k0 v0] o IH]; simpl.
  - reflexivity.
  - destruct (String.eqb_spec k k0) as [->|Hk]; simpl.
    + destruct (String.eqb k' k0); reflexivity.
    + rewrite IH. destruct (String.eqb_spec k' k0) as [->|Hk'].
      * destruct (String.eqb_spec k0 k) as [->|_]; [contradiction | reflexivity].
      * reflexivity.
Qed.

Lemma getOwn_None (o : JsObject V) k :
  getOwn o k = None <-> existsb (String.eqb k) (map fst o) = false.
Proof.
  induction o as [|[k0 v0] o IH]; simpl; [tauto|].
  destruct (String.eqb k k0); simpl; [split; discriminate | exact IH].
Qed.

Lemma keys_setProp (o : JsObject V) k v :
  map fst (setProp o k v) =
  if existsb (String.eqb k) (map fst o) then map fst o else map fst o ++ [k].
Proof.
  induction o as [|[k0 v0] o IH]; simpl; [reflexivity|].
  destruct (String.eqb k k0); simpl; [reflexivity|].
  rewrite IH. destruct (existsb (String.eqb k) (map fst o)); reflexivity.
Qed.

Lemma getOwn_In (o : JsObject V) k v :
  NoDup (map fst o) -> In (k, v) o -> getOwn o k = Some v.
Proof.
  induction o as [|[k0 v0] o IH]; simpl; intros Hnd Hin; [contradiction|].
  apply NoDup_cons_iff in Hnd. destruct Hnd as [Hnotin Hnd'].
  destruct Hin as [Heq|Hin].
  - injection Heq as -> ->. rewrite String.eqb_refl. reflexivity.
  - destruct (String.eqb_spec k k0) as [->|_].
    + exfalso. apply Hnotin. apply in_map_iff. exists (k0, v). split; [reflexivity|exact Hin].
    + apply IH; assumption.
Qed.

(** Without array-index keys, [for .. in] follows insertion order. *)
Lemma forIn_named (o : JsObject V) :
  Forall (fun k => arrayIndex k = None) (map fst o) -> forIn o = o.
Proof.
  intros H. unfold forIn.
  assert (indexProps o = []) as ->.
  { induction o as [|[k v] o IH]; simpl; [reflexivity|].
    pose proof (Forall_inv H) as Hk. pose proof (Forall_inv_tail H) as Ho.
    simpl in Hk. rewrite Hk. apply IH. exact Ho. }
  simpl. unfold namedProps.
  induction o as [|[k v] o IH]; simpl; [reflexivity|].
  pose proof (Forall_inv H) as Hk. pose proof (Forall_inv_tail H) as Ho.
  simpl in Hk. rewrite Hk. rewrite IH by exact Ho.
  reflexivity.
Qed.

End ObjectFacts.

Lemma filedByName_setProp (o : JsObject Sector.t) k s :
  filedByName o -> toPropertyKey (Sector.name s) = k -> filedByName (setProp o k s).
Proof.
  unfold filedByName. intros Ho Hs.
  induction o as [|[k0 s0] o IH]; simpl.
  - constructor; [exact Hs | constructor].
  - pose proof (Forall_inv Ho) as H0. pose proof (Forall_inv_tail Ho) as Ho'.
    destruct (String.eqb_spec k k0) as [->|_].
    + constructor; [exact Hs | exact Ho'].
    + constructor; [exact H0 | apply IH; exact Ho'].
Qed.

Lemma firstSeen_incl (l : list string) k : In k (firstSeen l) -> In k l.
Proof.
  induction l as [|k0 l IH]; simpl; [tauto|].
  intros [->|Hin]; [left; reflexivity|].
  apply filter_In in Hin. right. apply IH. apply Hin.
Qed.

Lemma firstSeen_NoDup (l : list string) : NoDup (firstSeen l).
Proof.
  induction l as [|k l IH]; simpl; [constructor|].
  constructor.
  - intros Hin. apply filter_In in Hin. destruct Hin as [_ Hne].
    rewrite String.eqb_refl in Hne. discriminate.
  - apply NoDup_filter. exact IH.
Qed.

Lemma fold_addSector (l : JsObject Sector.t) (radar0 : Radar.t) :
  fold_left (fun radar kv => Radar.addSector radar (snd kv)) l radar0
  = Radar.mk (Radar.sectors radar0 ++ map snd l) (Radar.rings radar0).
Proof.
  revert radar0. induction l as [|kv l IH]; intros radar0; simpl.
  - rewrite app_nil_r. destruct radar0; reflexivity.
  - rewrite IH. simpl. rewrite <- app_assoc. reflexivity.
Qed.

(* ===================================================================== *)
(** ** The scan of the sorted rows                                        *)
(* ===================================================================== *)

Lemma filter_twice {A : Type} (f g : A -> bool) (l : list A) :
  filter f (filter g l) = filter (fun a => f a && g a) l.
Proof.
  induction l as [|a l IH]; simpl; [reflexivity|].
  destruct (g a); simpl; rewrite ?IH.
  - rewrite andb_true_r. destruct (f a); reflexivity.
  - rewrite andb_false_r. reflexivity.
Qed.

(** When the store answers for the id of a sector, the sector gets a
    colour. *)
Lemma sectorColour_readable getColour md s g :
  storeReadable md (Sector.id s) = true ->
  exists c g', sectorColour getColour md s g = Normal (c, g').
Proof.
  unfold storeReadable, sectorColour. intros H.
  destruct (colourLookup md (Sector.id s)) as [[c|]| |]; try discriminate;
    cbn [bind]; eauto.
Qed.

Section ScanFacts.

Variables sectorId blipId : value -> string.
Variable getColour : nat -> string.
Variable dataView : DataView.

Local Abbreviation cm := (columnMap (table dataView)).
Local Abbreviation visit :=
  (visitRow sectorId blipId getColour (metadata dataView)
     (indexOf cm "name") (indexOf cm "description") (indexOf cm "sector")
     (indexOf cm "ring") (indexOf cm "isNew")).
Local Abbreviation key := (rowSectorKey dataView).

Lemma filedRow_inv v :
  filedRow dataView v = true ->
  (exists ring, rowRing dataView v = Some ring) /\
  inheritedKey (key v) = false.
Proof.
  unfold filedRow. intros H.
  apply andb_prop in H. destruct H as [Hring Hinh].
  split.
  - destruct (rowRing dataView v) as [ring|]; [exists ring; reflexivity | discriminate].
  - apply negb_true_iff. exact Hinh.
Qed.

(** One row of the scan, when the row can be filed and the store answers
    for its sector. *)
Lemma visitRow_filed (o : JsObject Sector.t) (g : nat) (v : Row) :
  filedRow dataView v = true ->
  readableRow sectorId dataView v = true ->
  filedByName o ->
  exists o1 g1 blip,
    visit (o, g) v = Normal (o1, g1) /\
    rowBlip blipId dataView v = Some blip /\
    map fst o1 =
      (if existsb (String.eqb (key v)) (map fst o)
       then map fst o else map fst o ++ [key v]) /\
    (forall k, blipsUnder o1 k =
               if String.eqb k (key v) then blipsUnder o (key v) ++ [blip]
               else blipsUnder o k) /\
    filedByName o1.
Proof.
  intros Hplain Hread Hfiled.
  destruct (filedRow_inv v Hplain) as ((ring & Hring) & Hinh).
  unfold visitRow, rowBlip. rewrite Hring.
  unfold rowRing, rowRingKey, ringIndexOf in Hring.
  fold (sectorIndexOf dataView). fold (key v).
  unfold getProp. cbn [fst snd].
  destruct (getOwn o (key v)) as [s|] eqn:Hown.
  - (* the sector exists already *)
    cbn [bind fst snd]. rewrite Hown, Hring.
    do 3 eexists. split; [reflexivity|]. split; [reflexivity|].
    assert (existsb (String.eqb (key v)) (map fst o) = true) as Hmem.
    { destruct (existsb (String.eqb (key v)) (map fst o)) eqn:E; [reflexivity|].
      apply getOwn_None in E. congruence. }
    repeat split.
    + rewrite keys_setProp, Hmem. reflexivity.
    + intros k. unfold blipsUnder. rewrite getOwn_setProp.
      destruct (String.eqb k (key v)); [rewrite Hown|]; reflexivity.
    + apply filedByName_setProp; [exact Hfiled|]. simpl.
      clear - Hown Hfiled. unfold filedByName in Hfiled.
      induction o as [|[k0 s0] o IH]; simpl in Hown; [discriminate|].
      pose proof (Forall_inv Hfiled) as H0. pose proof (Forall_inv_tail Hfiled) as Ho.
      destruct (String.eqb_spec (key v) k0) as [E|_].
      * injection Hown as <-. rewrite E. exact H0.
      * apply IH; assumption.
  - (* a new sector is created *)
    rewrite Hinh.
    destruct (sectorColour_readable getColour (metadata dataView)
                (newSector sectorId (rowGet v (sectorIndexOf dataView))) g Hread)
      as (c & g' & Hcol).
    rewrite Hcol. cbn [bind fst snd].
    rewrite getOwn_setProp, String.eqb_refl, Hring.
    do 3 eexists. split; [reflexivity|]. split; [reflexivity|].
    assert (existsb (String.eqb (key v)) (map fst o) = false) as Hmem
        by (apply getOwn_None; exact Hown).
    repeat split.
    + rewrite !keys_setProp, Hmem.
      rewrite existsb_app. simpl. rewrite String.eqb_refl, orb_true_r. reflexivity.
    + intros k. unfold blipsUnder. rewrite !getOwn_setProp.
      destruct (String.eqb k (key v)); [rewrite Hown|]; reflexivity.
    + apply filedByName_setProp; [|reflexivity].
      apply filedByName_setProp; [exact Hfiled | reflexivity].
Qed.

(** The whole scan, when every row can be filed: the keys of the object are
    the sector keys in order of first appearance, and under every key lie
    the blips of the rows of that sector, in the order of the rows. *)
Lemma forEach_filed (l : list Row) :
  forall (o : JsObject Sector.t) (g : nat),
  (forall v, In v l -> filedRow dataView v = true) ->
  (forall v, In v l -> readableRow sectorId dataView v = true) ->
  filedByName o ->
  exists o' g',
    forEach visit l (o, g) = Normal (o', g') /\
    map fst o' =
      map fst o ++
      filter (fun k => negb (existsb (String.eqb k) (map fst o)))
             (firstSeen (map key l)) /\
    (forall k,
       map Some (blipsUnder o' k) =
       map Some (blipsUnder o k) ++
       map (rowBlip blipId dataView) (filter (fun v => String.eqb (key v) k) l)) /\
    filedByName o'.
Proof.
  induction l as [|v l IH]; intros o g Hplain Hread Hfiled.
  - exists o, g. simpl. repeat split.
    + rewrite app_nil_r. reflexivity.
    + intros k. rewrite app_nil_r. reflexivity.
    + exact Hfiled.
  - destruct (visitRow_filed o g v (Hplain v (or_introl eq_refl))
                (Hread v (or_introl eq_refl)) Hfiled)
      as (o1 & g1 & blip & Hvisit & Hblip & Hkeys1 & Hblips1 & Hfiled1).
    destruct (IH o1 g1 (fun v' Hv' => Hplain v' (or_intror Hv'))
                (fun v' Hv' => Hread v' (or_intror Hv')) Hfiled1)
      as (o' & g' & Hrun & Hkeys & Hblips & Hfiled').
    exists o', g'. cbn [forEach]. rewrite Hvisit. cbn [bind].
    split; [exact Hrun|]. split; [|split; [|exact Hfiled']].
    + rewrite Hkeys, Hkeys1. cbn [map firstSeen filter].
      destruct (existsb (String.eqb (key v)) (map fst o)) eqn:Hmem.
      * cbn [negb]. f_equal.
        rewrite filter_twice. apply filter_ext. intros k.
        destruct (String.eqb_spec k (key v)) as [->|_]; [rewrite Hmem|]; simpl.
        -- reflexivity.
        -- rewrite andb_true_r. reflexivity.
      * cbn [negb]. rewrite <- app_assoc. cbn [app]. do 2 f_equal.
        rewrite filter_twice. apply filter_ext. intros k.
        rewrite existsb_app. simpl. rewrite orb_false_r, negb_orb.
        reflexivity.
    + intros k. rewrite Hblips, Hblips1. cbn [filter].
      rewrite (String.eqb_sym (key v) k).
      destruct (String.eqb_spec k (key v)) as [->|_].
      * rewrite map_app. cbn [map]. rewrite Hblip, <- app_assoc. reflexivity.
      * reflexivity.
Qed.

End ScanFacts.

Lemma firstSeen_In (l : list string) k : In k (firstSeen l) <-> In k l.
Proof.
  split; [apply firstSeen_incl|].
  induction l as [|k0 l IH]; simpl; [tauto|].
  intros [->|Hin]; [left; reflexivity|].
  destruct (String.eqb_spec k k0) as [->|Hne]; [left; reflexivity|].
  right. apply filter_In. split; [apply IH; exact Hin|].
  apply negb_true_iff. apply String.eqb_neq. exact Hne.
Qed.

(** The number of distinct elements does not depend on the order. *)
Lemma firstSeen_length_perm (l l' : list string) :
  Permutation l l' -> List.length (firstSeen l) = List.length (firstSeen l').
Proof.
  intros Hperm. apply Permutation_length.
  apply NoDup_Permutation; try apply firstSeen_NoDup.
  intros k. rewrite !firstSeen_In.
  split; intros Hin.
  - eapply Permutation_in; eassumption.
  - eapply Permutation_in; [apply Permutation_sym|]; eassumption.
Qed.

Lemma hasOrder_class n a b :
  hasOrder n a = true -> hasOrder n b = true -> keyLe a b = true.
Proof.
  destruct a as [m|], b as [p|]; simpl; try discriminate.
  intros Hm Hp. apply Nat.eqb_eq in Hm, Hp. apply Nat.leb_le. lia.
Qed.

Section TransformFacts.

Variables sectorId blipId : value -> string.
Variable getColour : nat -> string.
Variable dataView : DataView.

Local Abbreviation key := (rowSectorKey dataView).

(** [scanRows] on a table whose rows can all be filed, in terms of the
    rows as [sortBy] returns them. *)
Lemma scanRows_filed_sort :
  (forall v, In v (rows (table dataView)) -> filedRow dataView v = true) ->
  (forall v, In v (rows (table dataView)) -> readableRow sectorId dataView v = true) ->
  exists (sorted : list Row) (o : JsObject Sector.t),
    sortBy (rows (table dataView)) (ringOrder (ringIndexOf dataView)) = Normal sorted /\
    scanRows sectorId blipId getColour dataView = Normal o /\
    Permutation (rows (table dataView)) sorted /\
    StronglySorted
      (fun a b => keyLe (rowRingOrder dataView a) (rowRingOrder dataView b) = true)
      sorted /\
    (forall n,
       filter (fun v => hasOrder n (rowRingOrder dataView v)) sorted
       = filter (fun v => hasOrder n (rowRingOrder dataView v)) (rows (table dataView))) /\
    map fst o = firstSeen (map key sorted) /\
    (forall k,
       map Some (blipsUnder o k)
       = map (rowBlip blipId dataView) (filter (fun v => String.eqb (key v) k) sorted)) /\
    filedByName o.
Proof.
  intros Hfiled Hread.
  destruct (sortBy_spec (rows (table dataView))
              (ringOrder (ringIndexOf dataView)) (rowRingOrder dataView))
    as (sorted & Hsort & Hperm & Hsorted & Hstable).
  { intros v Hv.
    destruct (filedRow_inv dataView v (Hfiled v Hv)) as ((ring & Hring) & _).
    unfold ringOrder, rowRingOrder. rewrite Hring.
    unfold rowRing, rowRingKey in Hring. unfold getProp. rewrite Hring. reflexivity. }
  destruct (forEach_filed sectorId blipId getColour dataView sorted [] 0)
    as (o & g & Hrun & Hkeys & Hblips & Hfiled').
  { intros v Hv. apply Hfiled. eapply Permutation_in; [apply Permutation_sym|]; eassumption. }
  { intros v Hv. apply Hread. eapply Permutation_in; [apply Permutation_sym|]; eassumption. }
  { constructor. }
  exists sorted, o. split; [exact Hsort|]. repeat split.
  - unfold scanRows. unfold ringIndexOf in Hsort. rewrite Hsort. cbn [bind].
    match goal with
    | |- bind ?c _ = _ => replace c with (Normal (A:=ScanState) (o, g))
                            by (symmetry; exact Hrun)
    end.
    reflexivity.
  - exact Hperm.
  - exact Hsorted.
  - intros n. apply (Hstable (hasOrder n)). apply hasOrder_class.
  - rewrite Hkeys. cbn [map app existsb negb].
    clear. induction (firstSeen (map key sorted)) as [|k l IH]; simpl; [reflexivity|].
    rewrite IH. reflexivity.
  - intros k. rewrite Hblips. reflexivity.
  - exact Hfiled'.
Qed.

(** [scanRows] on a table whose rows can all be filed. *)
Lemma scanRows_filed :
  (forall v, In v (rows (table dataView)) -> filedRow dataView v = true) ->
  (forall v, In v (rows (table dataView)) -> readableRow sectorId dataView v = true) ->
  exists (sorted : list Row) (o : JsObject Sector.t),
    scanRows sectorId blipId getColour dataView = Normal o /\
    Permutation (rows (table dataView)) sorted /\
    StronglySorted
      (fun a b => keyLe (rowRingOrder dataView a) (rowRingOrder dataView b) = true)
      sorted /\
    (forall n,
       filter (fun v => hasOrder n (rowRingOrder dataView v)) sorted
       = filter (fun v => hasOrder n (rowRingOrder dataView v)) (rows (table dataView))) /\
    map fst o = firstSeen (map key sorted) /\
    (forall k,
       map Some (blipsUnder o k)
       = map (rowBlip blipId dataView) (filter (fun v => String.eqb (key v) k) sorted)) /\
    filedByName o.
Proof.
  intros Hfiled Hread.
  destruct (scanRows_filed_sort Hfiled Hread) as (sorted & o & _ & H).
  exists sorted, o. exact H.
Qed.

(** The radar that [transformData] makes of the scanned sectors. *)
Lemma transformData_from_scan (o : JsObject Sector.t) :
  scanRows sectorId blipId getColour dataView = Normal o ->
  transformData sectorId blipId getColour dataView =
  Normal (Radar.setSectorAngles
            (Radar.mk (map snd (forIn o)) (Radar.rings Radar.new))).
Proof.
  intros Hscan. unfold transformData. rewrite Hscan. cbn [bind].
  rewrite fold_addSector. reflexivity.
Qed.

End TransformFacts.

(* ===================================================================== *)
(** ** The transform: grouping                                            *)
(* ===================================================================== *)

Lemma insertIndexKey_length {V : Type} n (kv : string * V) l :
  List.length (insertIndexKey n kv l) = S (List.length l).
Proof.
  induction l as [|[m kv'] l IH]; simpl; [reflexivity|].
  destruct (n <=? m)%N; simpl; [reflexivity | rewrite IH; reflexivity].
Qed.

(** [for .. in] visits every own property once. *)
Lemma forIn_length {V : Type} (o : JsObject V) : List.length (forIn o) = List.length o.
Proof.
  unfold forIn, namedProps. rewrite length_app, length_map.
  induction o as [|[k v] o IH]; simpl; [reflexivity|].
  destruct (arrayIndex k); simpl.
  - rewrite insertIndexKey_length. simpl. rewrite IH. reflexivity.
  - rewrite Nat.add_succ_r, IH. reflexivity.
Qed.

Lemma plainRow_filed dataView v : plainRow dataView v = true -> filedRow dataView v = true.
Proof. unfold plainRow. intros H. apply andb_prop in H. apply H. Qed.

Lemma plainRow_named dataView v :
  plainRow dataView v = true -> arrayIndex (rowSectorKey dataView v) = None.
Proof.
  unfold plainRow. intros H. apply andb_prop in H. destruct H as [_ H].
  destruct (arrayIndex (rowSectorKey dataView v)); [discriminate | reflexivity].
Qed.

Lemma filedByName_keys (o : JsObject Sector.t) :
  filedByName o -> map (fun s => toPropertyKey (Sector.name s)) (map snd o) = map fst o.
Proof.
  unfold filedByName. induction 1 as [|kv o Hkv _ IH]; simpl; [reflexivity|].
  rewrite Hkv, IH. reflexivity.
Qed.

(** The scan and the radar on the rows of the specification's example. *)
Lemma example_scan sectorId blipId getColour :
  scanRows sectorId blipId getColour (sampleView exampleRows) =
  Normal
    [ ("X", Sector.mk (sectorId (VString "X")) (VString "X") (getColour 0%nat) 0 0
              [ Blip.mk (blipId (VString "A")) (VString "A")
                        (Ring.mk "Accelerate" 1 "#C7C7C7") "X" (VBool false) (VString "")
                        origin;
                Blip.mk (blipId (VString "B")) (VString "B")
                        (Ring.mk "Pause" 4 "#525252") "X" (VBool false) (VString "")
                        origin ]);
      ("Y", Sector.mk (sectorId (VString "Y")) (VString "Y") (getColour 1%nat) 0 0
              [ Blip.mk (blipId (VString "C")) (VString "C")
                        (Ring.mk "Progress" 2 "#A3A3A3") "Y" (VBool false) (VString "")
                        origin ]) ].
Proof. reflexivity. Qed.

(** C7 (as amended): when every ring is one of the four, no sector name
    is an array index or a member of Object.prototype, and the colour store
    answers for the sector of every row, the transform sorts the rows by
    ring order, ascending and stably; the sectors of the radar
    are the sector values in order of first appearance in the sorted rows,
    one sector per value, and the blips of a sector are those of its rows,
    in sorted order.  On the rows A/X/Accelerate, B/X/Pause, C/Y/Progress
    the radar has exactly the sectors X and Y, in this order, spanning 0
    to pi and pi to 2pi, and X holds the blips A and B in this order. *)
Theorem rows_are_grouped_by_sector sectorId blipId getColour :
  (forall dataView,
     (forall v, In v (rows (table dataView)) -> plainRow dataView v = true) ->
     (forall v, In v (rows (table dataView)) -> readableRow sectorId dataView v = true) ->
     exists sorted radar,
       transformData sectorId blipId getColour dataView = Normal radar /\
       Permutation (rows (table dataView)) sorted /\
       StronglySorted
         (fun a b => keyLe (rowRingOrder dataView a) (rowRingOrder dataView b) = true)
         sorted /\
       (forall n,
          filter (fun v => hasOrder n (rowRingOrder dataView v)) sorted
          = filter (fun v => hasOrder n (rowRingOrder dataView v))
                   (rows (table dataView))) /\
       map (fun s => toPropertyKey (Sector.name s)) (Radar.sectors radar)
       = firstSeen (map (rowSectorKey dataView) sorted) /\
       (forall s,
          In s (Radar.sectors radar) ->
          map Some (Sector.blips s)
          = map (rowBlip blipId dataView)
                (filter (fun v => String.eqb (rowSectorKey dataView v)
                                             (toPropertyKey (Sector.name s)))
                        sorted))) /\
  (exists sX sY bA bB bC,
     transformData sectorId blipId getColour (sampleView exampleRows)
     = Normal (Radar.mk [sX; sY] (Radar.rings Radar.new)) /\
     Sector.name sX = VString "X" /\ Sector.name sY = VString "Y" /\
     Sector.startAngle sX = 0 /\ Sector.endAngle sX = PI /\
     Sector.startAngle sY = PI /\ Sector.endAngle sY = 2 * PI /\
     Sector.blips sX = [bA; bB] /\ Sector.blips sY = [bC] /\
     Blip.name bA = VString "A" /\ Ring.name (Blip.ring bA) = "Accelerate" /\
     Blip.name bB = VString "B" /\ Ring.name (Blip.ring bB) = "Pause" /\
     Blip.name bC = VString "C" /\ Ring.name (Blip.ring bC) = "Progress").
Proof.
  split.
  - intros dataView Hplain Hread.
    destruct (scanRows_filed sectorId blipId getColour dataView)
      as (sorted & o & Hscan & Hperm & Hsorted & Hstable & Hkeys & Hblips & Hfiled).
    { intros v Hv. apply plainRow_filed. apply Hplain. exact Hv. }
    { exact Hread. }
    assert (forIn o = o) as HforIn.
    { apply forIn_named. rewrite Hkeys. apply Forall_forall. intros k Hk.
      apply firstSeen_incl in Hk. apply in_map_iff in Hk. destruct Hk as (v & <- & Hv).
      apply plainRow_named. apply Hplain.
      eapply Permutation_in; [apply Permutation_sym|]; eassumption. }
    exists sorted. eexists. split.
    { rewrite (transformData_from_scan sectorId blipId getColour dataView o Hscan).
      rewrite HforIn. reflexivity. }
    cbn [Radar.setSectorAngles Radar.sectors].
    repeat split; try assumption.
    + rewrite <- Hkeys, <- (filedByName_keys o Hfiled).
      rewrite <- !map_map with (f := Sector.name) (g := toPropertyKey).
      rewrite assignAngles_names. reflexivity.
    + intros s Hs. apply In_nth_error in Hs. destruct Hs as (i & Hi).
      destruct (assignAngles_nth _ _ _ _ _ Hi) as (s0 & Hs0 & ->).
      apply nth_error_In in Hs0. apply in_map_iff in Hs0.
      destruct Hs0 as ([k s1] & Hsnd & Hin). simpl in Hsnd. subst s1.
      assert (toPropertyKey (Sector.name s0) = k) as Hk.
      { unfold filedByName in Hfiled. rewrite Forall_forall in Hfiled.
        exact (Hfiled _ Hin). }
      cbn [Sector.setAngles Sector.blips Sector.name]. rewrite Hk, <- Hblips.
      unfold blipsUnder. rewrite (getOwn_In o k s0); [reflexivity| |exact Hin].
      rewrite Hkeys. apply firstSeen_NoDup.
  - do 5 eexists. split.
    { rewrite (transformData_from_scan sectorId blipId getColour _ _
                 (example_scan sectorId blipId getColour)).
      reflexivity. }
    cbn [Sector.setAngles Sector.name Sector.startAngle Sector.endAngle Sector.blips
         Blip.name Blip.ring Ring.name Nat.add].
    repeat split; simpl; field.
Qed.

Lemma rows_are_grouped_by_sector_witness :
  (forall v, In v (rows (table (sampleView exampleRows))) ->
             plainRow (sampleView exampleRows) v = true) /\
  (forall v, In v (rows (table (sampleView exampleRows))) ->
             readableRow sampleId (sampleView exampleRows) v = true) /\
  exists sorted radar,
    transformData sampleId sampleId sampleColour (sampleView exampleRows) = Normal radar /\
    map (fun s => toPropertyKey (Sector.name s)) (Radar.sectors radar)
    = firstSeen (map (rowSectorKey (sampleView exampleRows)) sorted).
Proof.
  assert (forall v, In v (rows (table (sampleView exampleRows))) ->
                    plainRow (sampleView exampleRows) v = true) as Hplain.
  { intros v Hv. simpl in Hv.
    destruct Hv as [<-|[<-|[<-|[]]]]; reflexivity. }
  assert (forall v, In v (rows (table (sampleView exampleRows))) ->
                    readableRow sampleId (sampleView exampleRows) v = true) as Hread.
  { intros v Hv. reflexivity. }
  split; [exact Hplain|]. split; [exact Hread|].
  destruct (proj1 (rows_are_grouped_by_sector sampleId sampleId sampleColour)
              (sampleView exampleRows) Hplain Hread)
    as (sorted & radar & Hrun & _ & _ & _ & Hkeys & _).
  exists sorted, radar. split; [exact Hrun | exact Hkeys].
Defined.

(** C7, as stated, fails when sector names are numerals: the rows
    A/2/Accelerate, B/1/Accelerate stay in this order when sorted, so
    sector 2 appears first, yet the radar lists sector 1 before sector 2. *)
Lemma numeral_sectors_are_reordered :
  sortBy numeralRows (ringOrder (ringIndexOf (sampleView numeralRows)))
    = Normal numeralRows /\
  firstSeen (map (rowSectorKey (sampleView numeralRows)) numeralRows) = ["2"; "1"] /\
  exists radar,
    transformData sampleId sampleId sampleColour (sampleView numeralRows) = Normal radar /\
    map Sector.name (Radar.sectors radar) = [VString "1"; VString "2"].
Proof.
  split; [reflexivity|]. split; [reflexivity|].
  eexists. split; [reflexivity|]. reflexivity.
Qed.

(* ===================================================================== *)
(** ** The transform: rows with an unknown ring, missing columns          *)
(* ===================================================================== *)

(** When [transformData] throws, [update] rethrows and leaves the visual
    as it was. *)
Lemma update_rethrows sectorId blipId getColour random self dataView draw e :
  transformData sectorId blipId getColour dataView = Throws e ->
  update sectorId blipId getColour random self dataView draw = (self, Throws e).
Proof. intros H. unfold update. rewrite H. reflexivity. Qed.

(** A ring field that [ringMap] does not resolve makes the sort throw. *)
Lemma unresolved_ring_throws sectorId blipId getColour dataView v :
  In v (rows (table dataView)) ->
  getProp ringMap (rowRingKey dataView v) = Missing ->
  transformData sectorId blipId getColour dataView = Throws TypeError.
Proof.
  intros Hv Hmissing. unfold transformData, scanRows.
  rewrite (sortBy_throws (rows (table dataView))
             (ringOrder (indexOf (columnMap (table dataView)) "ring"))).
  - reflexivity.
  - intros o. unfold ringOrder.
    destruct (getProp ringMap (toPropertyKey (rowGet o _))); intros H; discriminate.
  - exists v, TypeError. split; [exact Hv|].
    unfold ringOrder. unfold rowRingKey, ringIndexOf in Hmissing.
    rewrite Hmissing. reflexivity.
Qed.

(** C1 (as amended): a row whose ring field is none of the four ring
    names (nor the name of a member of Object.prototype) is not skipped:
    the sort throws a TypeError on it, the transform produces no radar
    whatever the other rows are, and the update draws nothing. *)
Theorem unknown_ring_aborts_the_transform sectorId blipId getColour dataView v :
  In v (rows (table dataView)) ->
  ~ In (rowRingKey dataView v) ["Accelerate"; "Progress"; "Monitor"; "Pause"] ->
  inheritedKey (rowRingKey dataView v) = false ->
  transformData sectorId blipId getColour dataView = Throws TypeError /\
  (forall random self draw,
     update sectorId blipId getColour random self dataView draw
     = (self, Throws TypeError)).
Proof.
  intros Hv Hunknown Hinh.
  assert (transformData sectorId blipId getColour dataView = Throws TypeError) as Hthrow.
  { apply (unresolved_ring_throws sectorId blipId getColour dataView v Hv).
    unfold getProp. rewrite Hinh.
    destruct (getOwn ringMap (rowRingKey dataView v)) eqn:Hown; [|reflexivity].
    exfalso. apply Hunknown. simpl in Hown. simpl.
    repeat match type of Hown with
           | (if String.eqb ?a ?b then _ else _) = _ =>
               destruct (String.eqb_spec a b) as [->|_]; [tauto|]
           end.
    discriminate. }
  split; [exact Hthrow|].
  intros random self draw. apply update_rethrows. exact Hthrow.
Qed.

Lemma unknown_ring_aborts_the_transform_witness :
  transformData sampleId sampleId sampleColour (sampleView unknownRingRows)
  = Throws TypeError.
Proof.
  apply (unknown_ring_aborts_the_transform sampleId sampleId sampleColour
           (sampleView unknownRingRows) (sampleRow "B" "X" "Unknown")).
  - simpl. right. left. reflexivity.
  - simpl. intros [H|[H|[H|[H|[]]]]]; discriminate.
  - reflexivity.
Defined.

(** C1, as stated, fails: with a good row and a row of ring Unknown the
    transform returns no radar at all, so none that keeps the good row. *)
Lemma unknown_ring_row_is_not_skipped :
  ~ exists radar,
      transformData sampleId sampleId sampleColour (sampleView unknownRingRows)
      = Normal radar.
Proof.
  intros (radar & H).
  assert (transformData sampleId sampleId sampleColour (sampleView unknownRingRows)
          = Throws TypeError) as Hthrow by reflexivity.
  rewrite Hthrow in H. discriminate.
Qed.

(** C6 (as amended): when the ring column is missing and the table has a
    row, the transform fails, with the TypeError that the sort throws on
    the undefined ring field; the update rethrows it before anything is
    cleared or drawn, so the visual keeps its previous state. *)
Theorem missing_ring_column_aborts_the_update sectorId blipId getColour dataView :
  ringIndexOf dataView = (-1)%Z ->
  rows (table dataView) <> [] ->
  transformData sectorId blipId getColour dataView = Throws TypeError /\
  (forall random self draw,
     update sectorId blipId getColour random self dataView draw
     = (self, Throws TypeError)).
Proof.
  intros Hindex Hrows.
  destruct (rows (table dataView)) as [|v l] eqn:Hl; [contradiction|].
  assert (transformData sectorId blipId getColour dataView = Throws TypeError) as Hthrow.
  { apply (unresolved_ring_throws sectorId blipId getColour dataView v).
    - rewrite Hl. left. reflexivity.
    - unfold rowRingKey. rewrite Hindex. reflexivity. }
  split; [exact Hthrow|].
  intros random self draw. apply update_rethrows. exact Hthrow.
Qed.

Lemma missing_ring_column_aborts_the_update_witness :
  ringIndexOf ringlessView = (-1)%Z /\
  rows (table ringlessView) <> [] /\
  transformData sampleId sampleId sampleColour ringlessView = Throws TypeError.
Proof.
  split; [reflexivity|]. split; [discriminate|].
  apply (missing_ring_column_aborts_the_update sampleId sampleId sampleColour ringlessView).
  - reflexivity.
  - discriminate.
Defined.

(** C6, as stated, fails: a table without the ring column and without rows
    is transformed into an empty radar, with no error. *)
Lemma missing_column_without_rows_is_accepted :
  ringIndexOf ringlessEmptyView = (-1)%Z /\
  transformData sampleId sampleId sampleColour ringlessEmptyView = Normal Radar.new.
Proof. split; reflexivity. Qed.

(* ===================================================================== *)
(** ** The empty table                                                    *)
(* ===================================================================== *)

(** C9: an empty row set is transformed, without an error, into a radar
    with no sector and no blip; the update then draws an empty sector
    layer and no blip, the left sidebar holds no sector group (its only
    child is the description panel that every update appends), and the
    right sidebar lists the rings of the new radar, one item per ring:
    the four rings Accelerate, Progress, Monitor and Pause, in ring
    order. *)
Theorem empty_table_renders_empty_radar sectorId blipId getColour dataView :
  rows (table dataView) = [] ->
  transformData sectorId blipId getColour dataView = Normal Radar.new /\
  Radar.sectors Radar.new = [] /\
  Radar.blips Radar.new = [] /\
  (forall random self draw,
     let after := fst (update sectorId blipId getColour random self dataView draw) in
     snd (update sectorId blipId getColour random self dataView draw) = Normal draw /\
     sectorLayer (svg after) = [] /\
     blipLayer (svg after) = [] /\
     sidebarGroups (leftSidebar after) = [] /\
     leftSidebar after = [BlipDescription] /\
     rightSidebar after =
       [Ul (map (fun ring => mkLegendItem (Ring.colour ring) (Ring.name ring))
                (Radar.rings Radar.new))] /\
     map Ring.name (Radar.rings Radar.new)
       = ["Accelerate"; "Progress"; "Monitor"; "Pause"] /\
     map Ring.order (Radar.rings Radar.new) = [1; 2; 3; 4]%nat).
Proof.
  intros Hrows.
  assert (transformData sectorId blipId getColour dataView = Normal Radar.new) as Hrun.
  { unfold transformData, scanRows. rewrite Hrows. reflexivity. }
  split; [exact Hrun|]. split; [reflexivity|]. split; [reflexivity|].
  intros random self draw after. subst after.
  unfold update. rewrite Hrun. cbn. repeat split.
Qed.

Lemma empty_table_renders_empty_radar_witness :
  rows (table (sampleView [])) = [] /\
  transformData sampleId sampleId sampleColour (sampleView []) = Normal Radar.new.
Proof.
  split; [reflexivity|].
  apply (empty_table_renders_empty_radar sampleId sampleId sampleColour (sampleView [])).
  reflexivity.
Defined.

(* ===================================================================== *)
(** ** Further properties: geometry                                       *)
(* ===================================================================== *)




(** A spot is free among the blips of two lists exactly when it is free
    among those of each; it is free when nothing is placed yet; being out
    of each other's way is mutual; and removing placed blips never makes
    a free spot taken. *)
Theorem coordinatesAreFree_composes (self : Visual) (p q : Point)
    (placed1 placed2 : list Point) :
  coordinatesAreFree self p [] = true /\
  coordinatesAreFree self p (placed1 ++ placed2)
    = coordinatesAreFree self p placed1 && coordinatesAreFree self p placed2 /\
  coordinatesAreFree self p [q] = coordinatesAreFree self q [p] /\
  (incl placed1 placed2 ->
   coordinatesAreFree self p placed2 = true ->
   coordinatesAreFree self p placed1 = true).
Proof.
  repeat split.
  - unfold coordinatesAreFree. apply forallb_app.
  - unfold coordinatesAreFree. cbn [forallb].
    rewrite (distanceBetweenPoints_sym self p q). reflexivity.
  - intros Hincl Hfree. rewrite coordinatesAreFree_spec in *.
    intros c Hc. apply Hfree. apply Hincl. exact Hc.
Qed.

Lemma coordinatesAreFree_composes_witness :
  coordinatesAreFree sampleVisual origin [] = true.
Proof.
  apply (coordinatesAreFree_composes sampleVisual origin origin [] []).
  - intros c Hc. exact Hc.
  - reflexivity.
Defined.

(* ===================================================================== *)
(** ** Further properties: placement                                      *)
(* ===================================================================== *)




(** The distance of a returned point from the centre, for the fixed rings:
    at least 0 and at most 45, whatever the sector. *)
Lemma placed_distance_bound random self sector ring allCoordinates draw :
  (forall n, 0 <= random n < 1) ->
  Radar.rings (radar self) = Radar.rings Radar.new ->
  In ring (Radar.rings (radar self)) ->
  exists d a,
    placed (generateBlipCoordinates random self sector ring allCoordinates draw)
      = polarToCartesian self (mkPolar d a) /\
    0 <= d <= 45.
Proof.
  intros Hrandom Hrings Hring.
  assert (Radar.rings (radar self) <> []) as Hne by (rewrite Hrings; discriminate).
  assert (1 <= Ring.order ring <= 4)%nat as Horder.
  { rewrite Hrings in Hring. simpl in Hring.
    destruct Hring as [<-|[<-|[<-|[<-|[]]]]]; simpl; lia. }
  destruct (ring_radii_bounds self ring Hne) as (Hin0 & Hio & Hmargin & _); [lia|].
  assert (outer (calculateRingRadii self ring) <= 50) as Hout.
  { unfold calculateRingRadii, getViewBoxSize. cbn [outer]. rewrite Hrings.
    assert (INR (Ring.order ring) <= 4) as Hk.
    { replace 4 with (INR 4) by (simpl; lra). apply le_INR. lia. }
    simpl. lra. }
  destruct (generateBlipCoordinates_is_candidate random self sector ring
              allCoordinates draw) as (n & Hplaced).
  set (radii := calculateRingRadii self ring) in *.
  unfold candidate in Hplaced.
  eexists _, _. split; [exact Hplaced|].
  destruct (Req_dec_T (inner radii * 1.1) 0) as [Hzero|Hpos].
  - assert (outer radii * 0.9 / 2 <= outer radii * 0.9) as Hd by lra.
    pose proof (draw_in_range (random (S n)) _ _ (Hrandom (S n)) Hd). lra.
  - pose proof (draw_in_range (random (S n)) _ _ (Hrandom (S n)) Hmargin). lra.
Qed.

(** The circle drawn for a blip of one of the fixed rings lies inside the
    100 by 100 view box, also when it is enlarged by half on focus. *)
Theorem blip_circle_stays_in_the_view_box
    random self sector ring allCoordinates draw :
  (forall n, 0 <= random n < 1) ->
  Radar.rings (radar self) = Radar.rings Radar.new ->
  In ring (Radar.rings (radar self)) ->
  let c := convertRelativeCoordinates self
             (placed (generateBlipCoordinates random self sector ring
                        allCoordinates draw)) in
  let r := calculateBlipRadius self * 1.5 in
  0 <= x c - r /\ x c + r <= getViewBoxSize self /\
  0 <= y c - r /\ y c + r <= getViewBoxSize self.
Proof.
  intros Hrandom Hrings Hring c r.
  destruct (placed_distance_bound random self sector ring allCoordinates draw
              Hrandom Hrings Hring) as (d & a & Hplaced & Hd).
  subst c r. rewrite Hplaced.
  unfold convertRelativeCoordinates, calculateCenter, getViewBoxSize,
    calculateBlipRadius, polarToCartesian.
  cbn [x y distance angle].
  pose proof (SIN_bound a) as Hs. pose proof (COS_bound a) as Hc.
  repeat split; nra.
Qed.

Lemma blip_circle_stays_in_the_view_box_witness :
  0 <= x (convertRelativeCoordinates sampleVisual
            (placed (generateBlipCoordinates zeroRandom sampleVisual fullSector
                       accelerate [] 0)))
       - calculateBlipRadius sampleVisual * 1.5.
Proof.
  apply (blip_circle_stays_in_the_view_box zeroRandom sampleVisual fullSector
           accelerate [] 0).
  - intros n. unfold zeroRandom. lra.
  - reflexivity.
  - simpl. left. reflexivity.
Defined.

(** What placing the blips of one sector does to the bookkeeping. *)
Lemma placeBlips_shape random self sector blips st :
  let '(blips', st') := placeBlips random self sector blips st in
  map eraseCoordinates blips' = map eraseCoordinates blips /\
  exists log,
    attemptLog st' = attemptLog st ++ log /\
    List.length log = List.length blips /\
    Forall (fun a => 1 <= a <= 11)%nat log /\
    draws st' = (draws st + 2 * list_sum log)%nat.
Proof.
  revert st. induction blips as [|blip blips IH]; intros st; cbn [placeBlips].
  - split; [reflexivity|]. exists []. rewrite app_nil_r. cbn.
    repeat split; [constructor | lia].
  - destruct (placeBlip random self sector st blip) as [blip' st1] eqn:Hplace.
    specialize (IH st1).
    destruct (placeBlips random self sector blips st1) as [rest st2].
    destruct IH as (Herase & log & Hlog & Hlen & Hall & Hdraws).
    unfold placeBlip in Hplace. injection Hplace as <- <-.
    destruct (generateBlipCoordinates_attempts random self sector (Blip.ring blip)
                (allCoordinates st) (draws st)) as (Hatt & Hnext & _).
    cbn [attemptLog draws] in Hlog, Hdraws.
    split.
    + cbn [map]. rewrite Herase. reflexivity.
    + eexists (_ :: log). rewrite Hlog, <- app_assoc. cbn [app].
      split; [reflexivity|]. split; [cbn; rewrite Hlen; reflexivity|].
      split; [constructor; [exact Hatt | exact Hall]|].
      rewrite Hdraws, Hnext. unfold list_sum. cbn [fold_right]. lia.
Qed.

Lemma placeSectors_shape random self sectors st :
  let '(sectors', st') := placeSectors random self sectors st in
  map eraseLayout sectors' = map eraseLayout sectors /\
  exists log,
    attemptLog st' = attemptLog st ++ log /\
    List.length log = List.length (flat_map Sector.blips sectors) /\
    Forall (fun a => 1 <= a <= 11)%nat log /\
    draws st' = (draws st + 2 * list_sum log)%nat.
Proof.
  revert st. induction sectors as [|sector sectors IH]; intros st; cbn [placeSectors].
  - split; [reflexivity|]. exists []. rewrite app_nil_r. cbn.
    repeat split; [constructor | lia].
  - pose proof (placeBlips_shape random self sector (Sector.blips sector) st) as H1.
    destruct (placeBlips random self sector (Sector.blips sector) st) as [blips' st1].
    destruct H1 as (Herase1 & log1 & Hlog1 & Hlen1 & Hall1 & Hdraws1).
    specialize (IH st1).
    destruct (placeSectors random self sectors st1) as [rest st2].
    destruct IH as (Herase & log & Hlog & Hlen & Hall & Hdraws).
    split.
    + cbn [map]. rewrite Herase. f_equal.
      unfold eraseLayout. destruct sector. cbn. rewrite Herase1. reflexivity.
    + exists (log1 ++ log). rewrite Hlog, Hlog1, <- app_assoc.
      split; [reflexivity|].
      split; [cbn [flat_map]; rewrite !length_app, Hlen1, Hlen; reflexivity|].
      split; [apply Forall_app; split; assumption|].
      rewrite Hdraws, Hdraws1.
      rewrite list_sum_app. lia.
Qed.

Lemma list_sum_bounds (log : list nat) :
  Forall (fun a => 1 <= a <= 11)%nat log ->
  (List.length log <= list_sum log <= 11 * List.length log)%nat.
Proof.
  induction 1 as [|a log Ha _ IH]; [cbn; lia|].
  change (list_sum (a :: log)) with (a + list_sum log)%nat.
  cbn [List.length]. lia.
Qed.

(** [setBlipCoordinates] changes nothing but the coordinates of the blips:
    the sectors, their angles and colours, the blips and their order stay;
    it places every blip once, and consumes two draws per candidate, that
    is between 2 and 22 draws for each blip. *)
Theorem layout_only_sets_coordinates random self draw :
  let self' := fst (setBlipCoordinates random self draw) in
  let st := snd (setBlipCoordinates random self draw) in
  let n := List.length (Radar.blips (radar self)) in
  setRadar self' (radar self) = self /\
  Radar.rings (radar self') = Radar.rings (radar self) /\
  map eraseLayout (Radar.sectors (radar self'))
    = map eraseLayout (Radar.sectors (radar self)) /\
  List.length (allCoordinates st) = n /\
  List.length (attemptLog st) = n /\
  draws st = (draw + 2 * list_sum (attemptLog st))%nat /\
  (draw + 2 * n <= draws st <= draw + 22 * n)%nat.
Proof.
  intros self' st n. subst self' st n.
  pose proof (setBlipCoordinates_spaced random self draw) as Hsp.
  unfold setBlipCoordinates in *. unfold Radar.blips.
  pose proof (placeSectors_shape random self (Radar.sectors (radar self))
                (mkLayoutState [] [] draw)) as H.
  destruct (placeSectors random self (Radar.sectors (radar self))
              (mkLayoutState [] [] draw)) as [sectors' st].
  destruct H as (Herase & log & Hlog & Hlen & Hall & Hdraws).
  destruct Hsp as [[Hlens _] _].
  cbn [fst snd radar setRadar Radar.rings Radar.sectors attemptLog draws app] in *.
  subst log.
  pose proof (list_sum_bounds (attemptLog st) Hall) as Hsum.
  repeat split; try assumption; try lia.
  - destruct self as [? ? ? ? ? []]; reflexivity.
Qed.

(* ===================================================================== *)
(** ** Further properties: the transform                                  *)
(* ===================================================================== *)

Lemma insertIndexKey_perm {V : Type} n (kv : string * V) l :
  Permutation (map snd (insertIndexKey n kv l)) (kv :: map snd l).
Proof.
  induction l as [|[m kv'] l IH]; simpl; [apply Permutation_refl|].
  destruct (n <=? m)%N; simpl; [apply Permutation_refl|].
  eapply perm_trans; [apply perm_skip; exact IH | apply perm_swap].
Qed.

(** [for .. in] visits every own property exactly once. *)
Lemma forIn_perm {V : Type} (o : JsObject V) : Permutation (forIn o) o.
Proof.
  unfold forIn, namedProps.
  induction o as [|[k v] o IH]; simpl; [apply perm_nil|].
  destruct (arrayIndex k); simpl.
  - eapply perm_trans; [apply Permutation_app_tail; apply insertIndexKey_perm|].
    simpl. apply perm_skip. exact IH.
  - apply Permutation_sym. apply Permutation_cons_app. apply Permutation_sym. exact IH.
Qed.

Lemma setProp_new {V : Type} (o : JsObject V) k v :
  getOwn o k = None -> setProp o k v = o ++ [(k, v)].
Proof.
  induction o as [|[k0 v0] o IH]; simpl; [reflexivity|].
  destruct (String.eqb k k0); [discriminate|].
  intros H. rewrite (IH H). reflexivity.
Qed.

Lemma setProp_setProp {V : Type} (o : JsObject V) k v v' :
  setProp (setProp o k v) k v' = setProp o k v'.
Proof.
  induction o as [|[k0 v0] o IH]; simpl.
  - rewrite String.eqb_refl. reflexivity.
  - destruct (String.eqb k k0) eqn:E; simpl; rewrite E; [reflexivity|].
    rewrite IH. reflexivity.
Qed.

Lemma getOwn_Some_In {V : Type} (o : JsObject V) k v :
  getOwn o k = Some v -> In (k, v) o.
Proof.
  induction o as [|[k0 v0] o IH]; simpl; [discriminate|].
  destruct (String.eqb_spec k k0) as [->|_].
  - intros H. injection H as ->. left. reflexivity.
  - intros H. right. apply IH. exact H.
Qed.

(** Replacing the value under a key, seen on the list of values. *)
Lemma setProp_replaces {V : Type} (o : JsObject V) k v v' :
  getOwn o k = Some v ->
  exists o1 o2,
    o = o1 ++ (k, v) :: o2 /\ setProp o k v' = o1 ++ (k, v') :: o2.
Proof.
  induction o as [|[k0 v0] o IH]; simpl; [discriminate|].
  destruct (String.eqb_spec k k0) as [->|_].
  - intros H. injection H as ->. exists [], o. split; reflexivity.
  - intros H. destruct (IH H) as (o1 & o2 & -> & ->).
    exists ((k0, v0) :: o1), o2. split; reflexivity.
Qed.

(** The colour of a new sector, by what the store answers. *)
Lemma sectorColour_cases getColour md s g stored :
  colourLookup md (Sector.id s) = Normal stored ->
  sectorColour getColour md s g
  = Normal match stored with
           | Some c => (c, g)
           | None => (getColour g, S g)
           end.
Proof.
  intros H. unfold sectorColour. rewrite H. cbn [bind].
  destruct stored; reflexivity.
Qed.

(** The colour branch completes normally or throws. *)
Lemma sectorColour_outcome getColour md s g :
  (exists cg, sectorColour getColour md s g = Normal cg)
  \/ sectorColour getColour md s g = Throws TypeError.
Proof.
  unfold sectorColour, colourLookup.
  destruct (objects md) as [o|]; [|left; eexists; reflexivity].
  destruct (colourSelector o) as [selector|]; [|right; reflexivity].
  destruct (instances selector) as [held|]; [|right; reflexivity].
  destruct (getProp held (Sector.id s)) as [instance| |];
    [|right; reflexivity|left; eexists; reflexivity].
  destruct (fill instance) as [f|]; [|right; reflexivity].
  destruct (solid f) as [sd|]; [|right; reflexivity].
  left. eexists. reflexivity.
Qed.

Section ScanMore.

Variables sectorId blipId : value -> string.
Variable getColour : nat -> string.
Variable dataView : DataView.

Local Abbreviation cm := (columnMap (table dataView)).
Local Abbreviation md := (metadata dataView).
Local Abbreviation visit :=
  (visitRow sectorId blipId getColour (metadata dataView)
     (indexOf cm "name") (indexOf cm "description") (indexOf cm "sector")
     (indexOf cm "ring") (indexOf cm "isNew")).
Local Abbreviation key := (rowSectorKey dataView).
Local Abbreviation inv := (sectorInvariant sectorId getColour (metadata dataView)).

(** What one step of the scan returns on a row that can be filed. *)
Lemma visitRow_filed_form (o : JsObject Sector.t) (g : nat) (v : Row) :
  filedRow dataView v = true ->
  exists blip,
    rowBlip blipId dataView v = Some blip /\
    Blip.sector blip = key v /\
    In (Blip.ring blip) (map snd ringMap) /\
    visit (o, g) v =
      match getOwn o (key v) with
      | Some s => Normal (setProp o (key v) (Sector.addBlip s blip), g)
      | None =>
          let s := newSector sectorId (rowGet v (sectorIndexOf dataView)) in
          cg <- sectorColour getColour (metadata dataView) s g ;;
          Normal (o ++ [(key v, Sector.addBlip (Sector.setColour s (fst cg)) blip)],
                  snd cg)
      end.
Proof.
  intros Hfiled.
  destruct (filedRow_inv dataView v Hfiled) as ((ring & Hring) & Hinh).
  unfold visitRow, rowBlip. rewrite Hring.
  unfold rowRing, rowRingKey, ringIndexOf in Hring.
  fold (sectorIndexOf dataView). fold (key v).
  eexists. split; [reflexivity|]. split; [reflexivity|].
  split.
  { cbn [Blip.ring]. pose proof (getOwn_Some_In ringMap _ ring Hring) as Hin.
    apply (in_map snd) in Hin. exact Hin. }
  unfold getProp. cbn [fst snd].
  destruct (getOwn o (key v)) as [s|] eqn:Hown.
  - cbn [bind fst snd]. rewrite Hown, Hring. reflexivity.
  - rewrite Hinh. cbv zeta.
    destruct (sectorColour getColour (metadata dataView)
                (newSector sectorId (rowGet v (sectorIndexOf dataView))) g)
      as [[c g']| |]; cbn [bind fst snd]; try reflexivity.
    rewrite getOwn_setProp, String.eqb_refl, Hring.
    rewrite setProp_setProp, (setProp_new o _ _ Hown). reflexivity.
Qed.

(** A row that can be filed is filed, unless the colour store throws. *)
Lemma visitRow_filed_outcome (o : JsObject Sector.t) (g : nat) (v : Row) :
  filedRow dataView v = true ->
  (exists st, visit (o, g) v = Normal st) \/ visit (o, g) v = Throws TypeError.
Proof.
  intros Hfiled.
  destruct (visitRow_filed_form o g v Hfiled) as (blip & _ & _ & _ & ->).
  destruct (getOwn o (key v)) as [s|]; [left; eexists; reflexivity|].
  cbv zeta.
  destruct (sectorColour_outcome getColour (metadata dataView)
              (newSector sectorId (rowGet v (sectorIndexOf dataView))) g)
    as [(cg & ->)| ->]; cbn [bind].
  - left. eexists. reflexivity.
  - right. reflexivity.
Qed.

(** Filing a row never puts a sector under a name of [Object.prototype]. *)
Lemma visitRow_keeps_keys (o : JsObject Sector.t) (g : nat) (v : Row) st :
  filedRow dataView v = true ->
  noInheritedKey o ->
  visit (o, g) v = Normal st ->
  noInheritedKey (fst st).
Proof.
  intros Hfiled Hkeys Hvisit.
  destruct (visitRow_filed_form o g v Hfiled) as (blip & _ & _ & _ & Hform).
  destruct (filedRow_inv dataView v Hfiled) as (_ & Hinh).
  rewrite Hform in Hvisit. clear Hform.
  destruct (getOwn o (key v)) as [s|] eqn:Hown.
  - injection Hvisit as <-. cbn [fst].
    unfold noInheritedKey. rewrite keys_setProp.
    destruct (existsb (String.eqb (key v)) (map fst o)) eqn:E; [exact Hkeys|].
    apply getOwn_None in E. congruence.
  - cbv zeta in Hvisit.
    destruct (sectorColour getColour (metadata dataView)
                (newSector sectorId (rowGet v (sectorIndexOf dataView))) g)
      as [cg| |]; cbn [bind] in Hvisit; try discriminate.
    injection Hvisit as <-. cbn [fst].
    unfold noInheritedKey in *. rewrite map_app. apply Forall_app.
    split; [exact Hkeys|]. constructor; [exact Hinh | constructor].
Qed.

(** A row that cannot be filed stops the scan. *)
Lemma visitRow_unfiled (o : JsObject Sector.t) (g : nat) (v : Row) :
  filedRow dataView v = false ->
  noInheritedKey o ->
  forall st, visit (o, g) v <> Normal st.
Proof.
  intros Hunfiled Hkeys st. unfold visitRow.
  unfold filedRow, rowRing, rowRingKey, ringIndexOf in Hunfiled.
  fold (sectorIndexOf dataView). fold (key v).
  unfold getProp. cbn [fst snd].
  destruct (getOwn o (key v)) as [s|] eqn:Hown.
  - (* the sector exists: the ring is not one of the four *)
    assert (inheritedKey (key v) = false) as Hinh.
    { apply getOwn_Some_In in Hown. apply (in_map fst) in Hown.
      unfold noInheritedKey in Hkeys. rewrite Forall_forall in Hkeys.
      exact (Hkeys _ Hown). }
    fold (sectorIndexOf dataView) in Hunfiled. fold (key v) in Hunfiled.
    rewrite Hinh in Hunfiled. cbn [negb] in Hunfiled. rewrite andb_true_r in Hunfiled.
    cbn [bind fst snd]. rewrite Hown.
    destruct (getOwn ringMap
                (toPropertyKey (rowGet v (indexOf (columnMap (table dataView)) "ring"))));
      [discriminate Hunfiled|].
    destruct (inheritedKey
                (toPropertyKey (rowGet v (indexOf (columnMap (table dataView)) "ring"))));
      discriminate.
  - destruct (inheritedKey (key v)) eqn:Hinh.
    + cbn [bind fst snd]. rewrite Hown. discriminate.
    + destruct (sectorColour getColour (metadata dataView)
                  (newSector sectorId (rowGet v (sectorIndexOf dataView))) g)
        as [[c g']| |]; cbn [bind fst snd]; try discriminate.
      rewrite getOwn_setProp, String.eqb_refl.
      cbn [negb] in Hunfiled. rewrite andb_true_r in Hunfiled.
      destruct (getOwn ringMap
                  (toPropertyKey (rowGet v (indexOf (columnMap (table dataView)) "ring"))));
        [discriminate Hunfiled|].
      destruct (inheritedKey
                (toPropertyKey (rowGet v (indexOf (columnMap (table dataView)) "ring"))));
      discriminate.
Qed.

(** The invariants of the scan, over one row. *)
Lemma visitRow_keeps_invariants (o : JsObject Sector.t) (g : nat) (v : Row) :
  filedRow dataView v = true ->
  readableRow sectorId dataView v = true ->
  filedByName o ->
  noInheritedKey o ->
  Forall inv (map snd o) ->
  exists o1 g1 blip,
    visit (o, g) v = Normal (o1, g1) /\
    rowBlip blipId dataView v = Some blip /\
    filedByName o1 /\ noInheritedKey o1 /\ Forall inv (map snd o1) /\
    Permutation (allBlips o1) (allBlips o ++ [blip]) /\
    (objects (metadata dataView) = None ->
     g = List.length o ->
     map Sector.colour (map snd o) = map getColour (seq 0 (List.length o)) ->
     g1 = List.length o1 /\
     map Sector.colour (map snd o1) = map getColour (seq 0 (List.length o1))).
Proof.
  intros Hfiled Hread Hnames Hkeys Hinv.
  destruct (visitRow_filed_form o g v Hfiled) as (blip & Hblip & Hback & Hring & Hvisit).
  destruct (filedRow_inv dataView v Hfiled) as (_ & Hinh).
  destruct (getOwn o (key v)) as [s|] eqn:Hown.
  - (* the blip joins an existing sector *)
    destruct (setProp_replaces o (key v) s (Sector.addBlip s blip) Hown)
      as (o1 & o2 & Ho & Hset).
    assert (toPropertyKey (Sector.name s) = key v) as Hs.
    { unfold filedByName in Hnames. rewrite Forall_forall in Hnames.
      exact (Hnames _ (getOwn_Some_In o _ s Hown)). }
    assert (inv s) as Hinvs.
    { rewrite Forall_forall in Hinv. apply Hinv.
      pose proof (getOwn_Some_In o _ s Hown) as Hin.
      apply (in_map snd) in Hin. exact Hin. }
    exists (setProp o (key v) (Sector.addBlip s blip)), g, blip.
    split; [exact Hvisit|]. split; [exact Hblip|].
    split; [apply filedByName_setProp; [exact Hnames | exact Hs]|].
    rewrite Hset. rewrite Ho in Hkeys, Hinv |- *.
    split.
    { unfold noInheritedKey in *. rewrite map_app in *. cbn [map fst] in *. exact Hkeys. }
    split.
    { rewrite map_app in *. cbn [map snd] in *.
      apply Forall_app in Hinv. destruct Hinv as [H1 H2].
      apply Forall_app. split; [exact H1|].
      constructor; [|exact (Forall_inv_tail H2)].
      destruct Hinvs as (Hid & Hcol & _ & Hall).
      unfold sectorInvariant, Sector.addBlip. cbn.
      repeat split; try assumption.
      - intros E. apply app_eq_nil in E. destruct E as [_ E]. discriminate.
      - apply Forall_app. split; [exact Hall|].
        constructor; [|constructor]. split; [rewrite Hs; exact Hback | exact Hring]. }
    split.
    { unfold allBlips. rewrite !flat_map_app. cbn [flat_map snd Sector.addBlip Sector.blips].
      rewrite <- !app_assoc.
      apply Permutation_app_head. apply Permutation_app_head.
      apply Permutation_app_comm. }
    intros _ Hg Hcols. rewrite !length_app in *. cbn [List.length] in *.
    split; [exact Hg|].
    rewrite <- Hcols. rewrite !map_app. cbn [map snd]. reflexivity.
  - (* a sector is created *)
    set (s := newSector sectorId (rowGet v (sectorIndexOf dataView))) in *.
    cbv zeta in Hvisit.
    assert (exists stored, colourLookup (metadata dataView) (Sector.id s) = Normal stored)
      as (stored & Hstored).
    { unfold readableRow, storeReadable in Hread. unfold s. cbn [newSector Sector.id].
      destruct (colourLookup (metadata dataView)
                  (sectorId (rowGet v (sectorIndexOf dataView)))) as [st| |];
        try discriminate.
      exists st. reflexivity. }
    rewrite (sectorColour_cases getColour _ s g stored Hstored) in Hvisit.
    cbn [bind] in Hvisit.
    eexists _, _, blip.
    split; [exact Hvisit|]. split; [exact Hblip|].
    split.
    { unfold filedByName in *. apply Forall_app. split; [exact Hnames|].
      constructor; [reflexivity | constructor]. }
    split.
    { unfold noInheritedKey in *. rewrite map_app. apply Forall_app.
      split; [exact Hkeys|]. constructor; [exact Hinh | constructor]. }
    split.
    { rewrite map_app. apply Forall_app. split; [exact Hinv|].
      constructor; [|constructor].
      unfold sectorInvariant.
      cbn [snd Sector.addBlip Sector.setColour Sector.id Sector.name Sector.colour
           Sector.blips].
      split; [reflexivity|]. split.
      { exists stored. split; [exact Hstored|].
        destruct stored as [c|]; cbn [fst]; [reflexivity | exists g; reflexivity]. }
      split; [unfold s; cbn; discriminate|].
      unfold s. cbn [newSector Sector.blips Sector.name app].
      constructor; [|constructor]. split; [exact Hback | exact Hring]. }
    split.
    { unfold allBlips. rewrite flat_map_app. cbn. rewrite ?app_nil_r.
      apply Permutation_refl. }
    intros Hnone Hg Hcols. rewrite length_app. cbn [List.length].
    assert (stored = None) as ->.
    { unfold colourLookup in Hstored. rewrite Hnone in Hstored. congruence. }
    cbn [fst snd].
    split; [lia|].
    rewrite !map_app, Hcols. cbn [map snd Sector.addBlip Sector.setColour Sector.colour].
    rewrite Nat.add_1_r, seq_S, map_app. cbn [map Nat.add]. rewrite Hg. reflexivity.
Qed.

End ScanMore.

Lemma bind_not_normal {A B : Type} (c : Completion A) (k : A -> Completion B) :
  (forall a, c <> Normal a) -> forall b, bind c k <> Normal b.
Proof.
  intros Hc b. destruct c as [a| |]; simpl; try discriminate.
  exfalso. exact (Hc a eq_refl).
Qed.

(** A sort that returns has only reordered the rows. *)
Lemma sortBy_perm {A : Type} (l sorted : list A) (f : A -> Completion (option nat)) :
  sortBy l f = Normal sorted -> Permutation l sorted.
Proof.
  unfold sortBy. intros H.
  destruct (mapM (fun o => bind (f o) (fun key => Normal (key, o))) l) as [kl| |] eqn:Hm;
    simpl in H; try discriminate.
  injection H as <-.
  assert (map snd kl = l) as <-.
  { clear - Hm. revert kl Hm. induction l as [|o l IH]; intros kl Hm; simpl in Hm.
    - injection Hm as <-. reflexivity.
    - destruct (f o) as [key| |]; simpl in Hm; try discriminate.
      destruct (mapM (fun o => bind (f o) (fun key => Normal (key, o))) l)
        as [kl'| |]; simpl in Hm; try discriminate.
      injection Hm as <-. simpl. rewrite (IH kl' eq_refl). reflexivity. }
  apply Permutation_map. apply sortKeyed_perm.
Qed.

Lemma assignAngles_Forall (P : Sector.t -> Prop) n i l :
  (forall s a b, P s -> P (Sector.setAngles s a b)) ->
  Forall P l -> Forall P (Radar.assignAngles n i l).
Proof.
  intros HP. revert i. induction l as [|s l IH]; intros i H; simpl; [constructor|].
  constructor; [apply HP; exact (Forall_inv H) | apply IH; exact (Forall_inv_tail H)].
Qed.

Lemma assignAngles_map {B : Type} (f : Sector.t -> B) n i l :
  (forall s a b, f (Sector.setAngles s a b) = f s) ->
  map f (Radar.assignAngles n i l) = map f l.
Proof.
  intros Hf. revert i. induction l as [|s l IH]; intros i; simpl; [reflexivity|].
  rewrite Hf, IH. reflexivity.
Qed.

Lemma assignAngles_flat_blips n i l :
  flat_map Sector.blips (Radar.assignAngles n i l) = flat_map Sector.blips l.
Proof.
  revert i. induction l as [|s l IH]; intros i; simpl; [reflexivity|].
  rewrite IH. reflexivity.
Qed.

Lemma rowBlips_length blipId dataView (l : list Row) :
  (forall v, In v l -> filedRow dataView v = true) ->
  List.length (rowBlips blipId dataView l) = List.length l.
Proof.
  induction l as [|v l IH]; intros H; [reflexivity|].
  unfold rowBlips in *. cbn [flat_map]. rewrite length_app.
  rewrite IH by (intros v' Hv'; apply H; right; exact Hv').
  destruct (filedRow_inv dataView v (H v (or_introl eq_refl))) as ((ring & Hring) & _).
  unfold rowBlip. rewrite Hring. reflexivity.
Qed.

Section ScanWhole.

Variables sectorId blipId : value -> string.
Variable getColour : nat -> string.
Variable dataView : DataView.

Local Abbreviation cm := (columnMap (table dataView)).
Local Abbreviation visit :=
  (visitRow sectorId blipId getColour (metadata dataView)
     (indexOf cm "name") (indexOf cm "description") (indexOf cm "sector")
     (indexOf cm "ring") (indexOf cm "isNew")).
Local Abbreviation key := (rowSectorKey dataView).
Local Abbreviation inv := (sectorInvariant sectorId getColour (metadata dataView)).

Lemma forEach_keeps_invariants (l : list Row) :
  forall (o : JsObject Sector.t) (g : nat),
  (forall v, In v l -> filedRow dataView v = true) ->
  (forall v, In v l -> readableRow sectorId dataView v = true) ->
  filedByName o -> noInheritedKey o -> Forall inv (map snd o) ->
  exists o' g',
    forEach visit l (o, g) = Normal (o', g') /\
    Forall inv (map snd o') /\
    Permutation (allBlips o') (allBlips o ++ rowBlips blipId dataView l) /\
    (objects (metadata dataView) = None ->
     g = List.length o ->
     map Sector.colour (map snd o) = map getColour (seq 0 (List.length o)) ->
     map Sector.colour (map snd o') = map getColour (seq 0 (List.length o'))).
Proof.
  induction l as [|v l IH]; intros o g Hfiled Hread Hnames Hkeys Hinv.
  - exists o, g. cbn. rewrite app_nil_r. repeat split; auto.
  - destruct (visitRow_keeps_invariants sectorId blipId getColour dataView o g v
                (Hfiled v (or_introl eq_refl)) (Hread v (or_introl eq_refl))
                Hnames Hkeys Hinv)
      as (o1 & g1 & blip & Hvisit & Hblip & Hnames1 & Hkeys1 & Hinv1 & Hperm1 & Hcol1).
    destruct (IH o1 g1 (fun v' Hv' => Hfiled v' (or_intror Hv'))
                (fun v' Hv' => Hread v' (or_intror Hv')) Hnames1 Hkeys1 Hinv1)
      as (o' & g' & Hrun & Hinv' & Hperm & Hcol).
    exists o', g'. cbn [forEach]. rewrite Hvisit. cbn [bind].
    split; [exact Hrun|]. split; [exact Hinv'|]. split.
    + eapply perm_trans; [exact Hperm|].
      unfold rowBlips at 2. cbn [flat_map]. rewrite Hblip. fold (rowBlips blipId dataView l).
      rewrite app_assoc. apply Permutation_app_tail. exact Hperm1.
    + intros Hnone Hg Hcols.
      destruct (Hcol1 Hnone Hg Hcols) as [Hg1 Hcols1].
      exact (Hcol Hnone Hg1 Hcols1).
Qed.

Lemma forEach_unfiled (l : list Row) :
  forall (o : JsObject Sector.t) (g : nat),
  noInheritedKey o ->
  (exists v, In v l /\ filedRow dataView v = false) ->
  forall st, forEach visit l (o, g) <> Normal st.
Proof.
  induction l as [|v l IH]; intros o g Hkeys (bad & Hin & Hbad) st.
  - contradiction.
  - cbn [forEach].
    destruct (filedRow dataView v) eqn:Hv.
    + destruct (visit (o, g) v) as [[o1 g1]| |] eqn:Hvisit; cbn [bind];
        try discriminate.
      apply (IH o1 g1).
      * exact (visitRow_keeps_keys sectorId blipId getColour dataView o g v _
                 Hv Hkeys Hvisit).
      * exists bad. split; [|exact Hbad].
        destruct Hin as [<-|Hin]; [congruence | exact Hin].
    + apply bind_not_normal.
      apply (visitRow_unfiled sectorId blipId getColour dataView o g v Hv Hkeys).
Qed.

(** Everything the scan guarantees on a table whose rows can be filed. *)
Lemma scanRows_invariants :
  (forall v, In v (rows (table dataView)) -> filedRow dataView v = true) ->
  (forall v, In v (rows (table dataView)) -> readableRow sectorId dataView v = true) ->
  exists (sorted : list Row) (o : JsObject Sector.t),
    scanRows sectorId blipId getColour dataView = Normal o /\
    Permutation (rows (table dataView)) sorted /\
    map fst o = firstSeen (map key sorted) /\
    filedByName o /\
    Forall inv (map snd o) /\
    Permutation (allBlips o) (rowBlips blipId dataView (rows (table dataView))) /\
    (objects (metadata dataView) = None ->
     map Sector.colour (map snd o) = map getColour (seq 0 (List.length o))).
Proof.
  intros Hfiled Hread.
  destruct (sortBy_spec (rows (table dataView))
              (ringOrder (ringIndexOf dataView)) (rowRingOrder dataView))
    as (sorted & Hsort & Hperm & _ & _).
  { intros v Hv.
    destruct (filedRow_inv dataView v (Hfiled v Hv)) as ((ring & Hring) & _).
    unfold ringOrder, rowRingOrder. rewrite Hring.
    unfold rowRing, rowRingKey in Hring. unfold getProp. rewrite Hring. reflexivity. }
  assert (forall v, In v sorted -> filedRow dataView v = true) as Hfiled'.
  { intros v Hv. apply Hfiled. eapply Permutation_in; [apply Permutation_sym|]; eassumption. }
  assert (forall v, In v sorted -> readableRow sectorId dataView v = true) as Hread'.
  { intros v Hv. apply Hread. eapply Permutation_in; [apply Permutation_sym|]; eassumption. }
  destruct (forEach_filed sectorId blipId getColour dataView sorted [] 0 Hfiled' Hread')
    as (o & g & Hrun & Hkeys & _ & Hnames); [constructor|].
  destruct (forEach_keeps_invariants sorted [] 0 Hfiled' Hread')
    as (o2 & g2 & Hrun2 & Hinv & Hblips & Hcol); try constructor.
  pose proof (eq_trans (eq_sym Hrun) Hrun2) as E.
  injection E as <- <-.
  exists sorted, o. repeat split; try assumption.
  - unfold scanRows. unfold ringIndexOf in Hsort. rewrite Hsort. cbn [bind].
    match goal with
    | |- bind ?c _ = _ => replace c with (Normal (A:=ScanState) (o, g))
                            by (symmetry; exact Hrun)
    end.
    reflexivity.
  - rewrite Hkeys. cbn [map app existsb negb].
    clear. induction (firstSeen (map key sorted)) as [|k l IH]; simpl; [reflexivity|].
    rewrite IH. reflexivity.
  - eapply perm_trans; [exact Hblips|]. cbn [allBlips flat_map app].
    unfold rowBlips. apply Permutation_flat_map. apply Permutation_sym. exact Hperm.
  - intros Hnone. apply Hcol; [exact Hnone | reflexivity | reflexivity].
Qed.

(** The scan stops on a table with a row that cannot be filed. *)
Lemma scanRows_unfiled (bad : Row) :
  In bad (rows (table dataView)) ->
  filedRow dataView bad = false ->
  forall o, scanRows sectorId blipId getColour dataView <> Normal o.
Proof.
  intros Hin Hbad o. unfold scanRows.
  destruct (sortBy (rows (table dataView))
              (ringOrder (indexOf (columnMap (table dataView)) "ring")))
    as [sorted| |] eqn:Hsort; cbn [bind]; try discriminate.
  apply sortBy_perm in Hsort.
  apply bind_not_normal.
  apply forEach_unfiled; try constructor.
  exists bad. split; [|exact Hbad].
  eapply Permutation_in; eassumption.
Qed.

End ScanWhole.

Section TransformMore.

Variables sectorId blipId : value -> string.
Variable getColour : nat -> string.
Variable dataView : DataView.

Local Abbreviation key := (rowSectorKey dataView).
Local Abbreviation inv := (sectorInvariant sectorId getColour (metadata dataView)).
Local Abbreviation sectorKey := (fun s : Sector.t => toPropertyKey (Sector.name s)).

(** The radar of a table whose rows can be filed, with what the scan
    guarantees carried over to its sectors. *)
Lemma radar_of_filed_table :
  (forall v, In v (rows (table dataView)) -> filedRow dataView v = true) ->
  (forall v, In v (rows (table dataView)) -> readableRow sectorId dataView v = true) ->
  exists (o : JsObject Sector.t) (radar : Radar.t),
    transformData sectorId blipId getColour dataView = Normal radar /\
    Radar.rings radar = Radar.rings Radar.new /\
    Radar.sectors radar
      = Radar.assignAngles (List.length (map snd (forIn o))) 0 (map snd (forIn o)) /\
    Permutation (map sectorKey (Radar.sectors radar))
                (firstSeen (map key (rows (table dataView)))) /\
    Forall inv (Radar.sectors radar) /\
    Permutation (Radar.blips radar) (rowBlips blipId dataView (rows (table dataView))) /\
    (objects (metadata dataView) = None ->
     map Sector.colour (map snd o) = map getColour (seq 0 (List.length o))).
Proof.
  intros Hfiled Hread.
  destruct (scanRows_invariants sectorId blipId getColour dataView Hfiled Hread)
    as (sorted & o & Hscan & Hperm & Hkeys & Hnames & Hinv & Hblips & Hcol).
  exists o. eexists.
  split; [exact (transformData_from_scan sectorId blipId getColour dataView o Hscan)|].
  cbn [Radar.setSectorAngles Radar.sectors Radar.rings].
  split; [reflexivity|]. split; [reflexivity|].
  pose proof (forIn_perm o) as Hfor.
  split; [|split; [|split; [|exact Hcol]]].
  - rewrite (assignAngles_map sectorKey) by reflexivity.
    assert (filedByName (forIn o)) as Hnames'.
    { unfold filedByName in *. eapply Permutation_Forall; [|exact Hnames].
      apply Permutation_sym. exact Hfor. }
    rewrite (filedByName_keys (forIn o) Hnames').
    eapply perm_trans; [apply Permutation_map; exact Hfor|].
    rewrite Hkeys.
    apply NoDup_Permutation; try apply firstSeen_NoDup.
    intros k. rewrite !firstSeen_In. split; intros Hk.
    + eapply Permutation_in; [apply Permutation_map, Permutation_sym|]; eassumption.
    + eapply Permutation_in; [apply Permutation_map|]; eassumption.
  - apply assignAngles_Forall; [intros s a b H; exact H|].
    eapply Permutation_Forall; [|exact Hinv].
    apply Permutation_map. apply Permutation_sym. exact Hfor.
  - unfold Radar.blips, Radar.setSectorAngles. cbn [Radar.sectors].
    rewrite assignAngles_flat_blips.
    eapply perm_trans; [|exact Hblips].
    unfold allBlips. rewrite flat_map_concat_map, map_map, <- flat_map_concat_map.
    apply Permutation_flat_map. exact Hfor.
Qed.

End TransformMore.

(** Without the property [objects], the store answers for every id. *)
Lemma readable_without_store sectorId dataView :
  objects (metadata dataView) = None ->
  forall v, readableRow sectorId dataView v = true.
Proof.
  intros Hnone v. unfold readableRow, storeReadable, colourLookup.
  rewrite Hnone. reflexivity.
Qed.

Lemma exampleRows_filed :
  forall v, In v (rows (table (sampleView exampleRows))) ->
            filedRow (sampleView exampleRows) v = true.
Proof. intros v Hv. simpl in Hv. destruct Hv as [<-|[<-|[<-|[]]]]; reflexivity. Qed.

Lemma storedExampleView_filed :
  forall v, In v (rows (table storedExampleView)) -> filedRow storedExampleView v = true.
Proof. intros v Hv. simpl in Hv. destruct Hv as [<-|[<-|[<-|[]]]]; reflexivity. Qed.

Lemma storedExampleView_readable :
  forall v, In v (rows (table storedExampleView)) ->
            readableRow sampleId storedExampleView v = true.
Proof. intros v Hv. simpl in Hv. destruct Hv as [<-|[<-|[<-|[]]]]; reflexivity. Qed.

(** The transform returns a radar only if every row carries one of the
    four ring names and a sector name that is not the name of a member of
    Object.prototype; and it does return one when, besides, the colour
    store answers for the sector of every row. *)
Theorem transform_returns_when_rows_can_be_filed sectorId blipId getColour dataView :
  ((exists radar, transformData sectorId blipId getColour dataView = Normal radar) ->
   forall v, In v (rows (table dataView)) -> filedRow dataView v = true) /\
  ((forall v, In v (rows (table dataView)) -> filedRow dataView v = true) ->
   (forall v, In v (rows (table dataView)) -> readableRow sectorId dataView v = true) ->
   exists radar, transformData sectorId blipId getColour dataView = Normal radar).
Proof.
  split.
  - intros (radar & Hrun) v Hv.
    destruct (filedRow dataView v) eqn:Hfiled; [reflexivity|]. exfalso.
    unfold transformData in Hrun.
    destruct (scanRows sectorId blipId getColour dataView) as [o| |] eqn:Hscan;
      cbn [bind] in Hrun; try discriminate.
    exact (scanRows_unfiled sectorId blipId getColour dataView v Hv Hfiled o Hscan).
  - intros Hfiled Hread.
    destruct (radar_of_filed_table sectorId blipId getColour dataView Hfiled Hread)
      as (o & radar & Hrun & _).
    exists radar. exact Hrun.
Qed.

Lemma transform_returns_when_rows_can_be_filed_witness :
  filedRow (sampleView exampleRows) (sampleRow "B" "X" "Pause") = true /\
  exists radar,
    transformData sampleId sampleId sampleColour storedExampleView = Normal radar.
Proof.
  split.
  - apply (proj1 (transform_returns_when_rows_can_be_filed sampleId sampleId sampleColour
                    (sampleView exampleRows))).
    + eexists. reflexivity.
    + simpl. right. left. reflexivity.
  - apply (proj2 (transform_returns_when_rows_can_be_filed sampleId sampleId sampleColour
                    storedExampleView)).
    + exact storedExampleView_filed.
    + exact storedExampleView_readable.
Defined.

(** No row is lost or doubled: on a table whose rows can be filed, read
    with a colour store that answers, the blips of the radar are the blips
    of the rows, one for each row. *)
Theorem every_row_becomes_one_blip sectorId blipId getColour dataView :
  (forall v, In v (rows (table dataView)) -> filedRow dataView v = true) ->
  (forall v, In v (rows (table dataView)) -> readableRow sectorId dataView v = true) ->
  exists radar,
    transformData sectorId blipId getColour dataView = Normal radar /\
    Permutation (Radar.blips radar) (rowBlips blipId dataView (rows (table dataView))) /\
    List.length (Radar.blips radar) = List.length (rows (table dataView)).
Proof.
  intros Hfiled Hread.
  destruct (radar_of_filed_table sectorId blipId getColour dataView Hfiled Hread)
    as (o & radar & Hrun & _ & _ & _ & _ & Hblips & _).
  exists radar. split; [exact Hrun|]. split; [exact Hblips|].
  rewrite (Permutation_length Hblips). apply rowBlips_length. exact Hfiled.
Qed.

Lemma every_row_becomes_one_blip_witness :
  exists radar,
    transformData sampleId sampleId sampleColour storedExampleView = Normal radar /\
    List.length (Radar.blips radar) = 3%nat.
Proof.
  destruct (every_row_becomes_one_blip sampleId sampleId sampleColour storedExampleView
              storedExampleView_filed storedExampleView_readable)
    as (radar & Hrun & _ & Hlen).
  exists radar. split; [exact Hrun | exact Hlen].
Defined.

(** On a table whose rows can be filed, read with a colour store that
    answers, the sectors of the radar are the distinct sector values, each
    once, also when they are numerals; every sector has at least one blip,
    its id is derived from its name, and each of its blips points back to
    it and carries a ring of the ring table of [transformData]. *)
Theorem sectors_are_the_distinct_sector_values sectorId blipId getColour dataView :
  (forall v, In v (rows (table dataView)) -> filedRow dataView v = true) ->
  (forall v, In v (rows (table dataView)) -> readableRow sectorId dataView v = true) ->
  exists radar,
    transformData sectorId blipId getColour dataView = Normal radar /\
    NoDup (map (fun s => toPropertyKey (Sector.name s)) (Radar.sectors radar)) /\
    (forall k,
       In k (map (fun s => toPropertyKey (Sector.name s)) (Radar.sectors radar)) <->
       In k (map (rowSectorKey dataView) (rows (table dataView)))) /\
    (forall s,
       In s (Radar.sectors radar) ->
       Sector.id s = sectorId (Sector.name s) /\
       Sector.blips s <> [] /\
       forall b, In b (Sector.blips s) ->
                 Blip.sector b = toPropertyKey (Sector.name s) /\
                 In (Blip.ring b) (map snd ringMap)).
Proof.
  intros Hfiled Hread.
  destruct (radar_of_filed_table sectorId blipId getColour dataView Hfiled Hread)
    as (o & radar & Hrun & Hrings & _ & Hkeys & Hinv & _ & _).
  exists radar. split; [exact Hrun|]. split; [|split].
  - eapply Permutation_NoDup; [apply Permutation_sym; exact Hkeys|].
    apply firstSeen_NoDup.
  - intros k.
    rewrite <- (firstSeen_In (map (rowSectorKey dataView) (rows (table dataView))) k).
    split; intros Hk.
    + eapply Permutation_in; eassumption.
    + eapply Permutation_in; [apply Permutation_sym|]; eassumption.
  - intros s Hs. rewrite Forall_forall in Hinv.
    destruct (Hinv s Hs) as (Hid & _ & Hne & Hall).
    split; [exact Hid|]. split; [exact Hne|].
    intros b Hb. rewrite Forall_forall in Hall. exact (Hall b Hb).
Qed.

Lemma sectors_are_the_distinct_sector_values_witness :
  exists radar,
    transformData sampleId sampleId sampleColour (sampleView numeralRows) = Normal radar /\
    NoDup (map (fun s => toPropertyKey (Sector.name s)) (Radar.sectors radar)).
Proof.
  destruct (sectors_are_the_distinct_sector_values sampleId sampleId sampleColour
              (sampleView numeralRows)) as (radar & Hrun & Hnd & _).
  - intros v Hv. simpl in Hv. destruct Hv as [<-|[<-|[]]]; reflexivity.
  - intros v Hv. reflexivity.
  - exists radar. split; [exact Hrun | exact Hnd].
Defined.

(** The colour of a sector of the radar, by what the store answers for
    its id: the stored colour, or a generated colour. *)
Lemma colour_of_a_sector sectorId blipId getColour dataView :
  (forall v, In v (rows (table dataView)) -> filedRow dataView v = true) ->
  (forall v, In v (rows (table dataView)) -> readableRow sectorId dataView v = true) ->
  exists radar,
    transformData sectorId blipId getColour dataView = Normal radar /\
    forall s,
      In s (Radar.sectors radar) ->
      exists stored,
        colourLookup (metadata dataView) (Sector.id s) = Normal stored /\
        match stored with
        | Some c => Sector.colour s = c
        | None => exists n, Sector.colour s = getColour n
        end.
Proof.
  intros Hfiled Hread.
  destruct (radar_of_filed_table sectorId blipId getColour dataView Hfiled Hread)
    as (o & radar & Hrun & _ & _ & _ & Hinv & _ & _).
  exists radar. split; [exact Hrun|].
  intros s Hs. rewrite Forall_forall in Hinv.
  destruct (Hinv s Hs) as (_ & Hcol & _ & _). exact Hcol.
Qed.

(** What the store answers for an id under which it holds an instance
    with a solid fill, and for an id it does not know. *)
Lemma colourLookup_storeOf held id :
  colourLookup (storeOf held) id =
  match getProp held id with
  | Own instance =>
      match fill instance with
      | Some f =>
          match solid f with
          | Some sd => Normal (Some (color sd))
          | None => Throws TypeError
          end
      | None => Throws TypeError
      end
  | Inherited => Throws TypeError
  | Missing => Normal None
  end.
Proof. reflexivity. Qed.

(** When the store answers for the sector of every row: a sector whose id
    is a key of [$instances] gets the colour of that instance's solid
    fill, whatever the colour generator would give; any other sector gets
    a colour of the colour generator. *)
Theorem stored_colour_wins sectorId blipId getColour dataView held :
  metadata dataView = storeOf held ->
  (forall v, In v (rows (table dataView)) -> filedRow dataView v = true) ->
  (forall v, In v (rows (table dataView)) -> readableRow sectorId dataView v = true) ->
  exists radar,
    transformData sectorId blipId getColour dataView = Normal radar /\
    forall s,
      In s (Radar.sectors radar) ->
      match getOwn held (Sector.id s) with
      | Some instance =>
          exists f sd, fill instance = Some f /\ solid f = Some sd /\
                       Sector.colour s = color sd
      | None =>
          inheritedKey (Sector.id s) = false /\
          exists n, Sector.colour s = getColour n
      end.
Proof.
  intros Hstore Hfiled Hread.
  destruct (colour_of_a_sector sectorId blipId getColour dataView Hfiled Hread)
    as (radar & Hrun & Hcol).
  exists radar. split; [exact Hrun|].
  intros s Hs. destruct (Hcol s Hs) as (stored & Hlook & Hc).
  rewrite Hstore, colourLookup_storeOf in Hlook. unfold getProp in Hlook.
  destruct (getOwn held (Sector.id s)) as [instance|].
  - destruct (fill instance) as [f|]; [|discriminate].
    destruct (solid f) as [sd|] eqn:Hsd; [|discriminate].
    injection Hlook as <-. exists f, sd.
    split; [reflexivity|]. split; [exact Hsd | exact Hc].
  - destruct (inheritedKey (Sector.id s)); [discriminate|].
    injection Hlook as <-. split; [reflexivity | exact Hc].
Qed.

Lemma stored_colour_wins_witness :
  exists radar,
    transformData sampleId sampleId sampleColour storedExampleView = Normal radar /\
    forall s,
      In s (Radar.sectors radar) ->
      match getOwn [("X", solidFill "#123456")] (Sector.id s) with
      | Some instance =>
          exists f sd, fill instance = Some f /\ solid f = Some sd /\
                       Sector.colour s = color sd
      | None =>
          inheritedKey (Sector.id s) = false /\
          exists n, Sector.colour s = sampleColour n
      end.
Proof.
  apply (stored_colour_wins sampleId sampleId sampleColour storedExampleView
           [("X", solidFill "#123456")]).
  - reflexivity.
  - exact storedExampleView_filed.
  - exact storedExampleView_readable.
Defined.

(** [in] follows the prototype chain: a sector whose id is the name of a
    member of Object.prototype passes the test on an empty [$instances],
    and reading [fill.solid] of that member throws; with ids that are the
    sector names the same table is transformed. *)
Example inherited_sector_id_throws :
  transformData (fun _ => "constructor") sampleId sampleColour emptyStoreView
    = Throws TypeError /\
  exists radar, transformData sampleId sampleId sampleColour emptyStoreView = Normal radar.
Proof. split; [reflexivity | eexists; reflexivity]. Qed.

(** A colour store that cannot be read makes the transform throw: on a
    table with a row, all rows filed, when the store answers for the
    sector of no row (the metadata has [objects] but
    [objects.colourSelector.$instances] is missing, say), the transform
    throws a TypeError and the update leaves the visual as it was. *)
Theorem unreadable_store_throws sectorId blipId getColour dataView :
  rows (table dataView) <> [] ->
  (forall v, In v (rows (table dataView)) -> filedRow dataView v = true) ->
  (forall v, In v (rows (table dataView)) -> readableRow sectorId dataView v = false) ->
  transformData sectorId blipId getColour dataView = Throws TypeError /\
  (forall random self draw,
     update sectorId blipId getColour random self dataView draw
     = (self, Throws TypeError)).
Proof.
  intros Hrows Hfiled Hbroken.
  assert (transformData sectorId blipId getColour dataView = Throws TypeError) as Hthrow.
  { destruct (sortBy_spec (rows (table dataView))
                (ringOrder (ringIndexOf dataView)) (rowRingOrder dataView))
      as (sorted & Hsort & Hperm & _ & _).
    { intros v Hv.
      destruct (filedRow_inv dataView v (Hfiled v Hv)) as ((ring & Hring) & _).
      unfold ringOrder, rowRingOrder. rewrite Hring.
      unfold rowRing, rowRingKey in Hring. unfold getProp. rewrite Hring. reflexivity. }
    unfold transformData, scanRows. unfold ringIndexOf in Hsort. rewrite Hsort.
    cbn [bind].
    destruct sorted as [|v sorted].
    { apply Permutation_sym, Permutation_nil in Hperm. contradiction. }
    assert (In v (rows (table dataView))) as Hv
        by (eapply Permutation_in; [apply Permutation_sym; exact Hperm | left; reflexivity]).
    cbn [forEach].
    destruct (visitRow_filed_form sectorId blipId getColour dataView [] 0 v (Hfiled v Hv))
      as (blip & _ & _ & _ & Hvisit).
    cbn [getOwn] in Hvisit. cbv zeta in Hvisit.
    assert (sectorColour getColour (metadata dataView)
              (newSector sectorId (rowGet v (sectorIndexOf dataView))) 0
            = Throws TypeError) as Hcol.
    { destruct (sectorColour_outcome getColour (metadata dataView)
                  (newSector sectorId (rowGet v (sectorIndexOf dataView))) 0)
        as [(cg & Hn)|Ht]; [|exact Ht].
      exfalso. specialize (Hbroken v Hv).
      unfold readableRow, storeReadable in Hbroken.
      unfold sectorColour in Hn. cbn [newSector Sector.id] in Hn.
      destruct (colourLookup (metadata dataView)
                  (sectorId (rowGet v (sectorIndexOf dataView)))); discriminate. }
    rewrite Hcol in Hvisit. cbn [bind] in Hvisit.
    match goal with
    | |- bind (bind (bind ?c _) _) _ = _ =>
        assert (c = Throws TypeError) as -> by exact Hvisit
    end.
    reflexivity. }
  split; [exact Hthrow|].
  intros random self draw. apply update_rethrows. exact Hthrow.
Qed.

Lemma unreadable_store_throws_witness :
  transformData sampleId sampleId sampleColour brokenStoreView = Throws TypeError.
Proof.
  apply (unreadable_store_throws sampleId sampleId sampleColour brokenStoreView).
  - discriminate.
  - intros v Hv. simpl in Hv. destruct Hv as [<-|[<-|[<-|[]]]]; reflexivity.
  - intros v Hv. reflexivity.
Defined.

(** Without a store, on a table of plain rows, the colours of the sectors
    are the successive colours of the generator, in the order of the
    sectors: sector i has the i-th generated colour. *)
Theorem generated_colours_follow_the_sectors sectorId blipId getColour dataView :
  (forall v, In v (rows (table dataView)) -> plainRow dataView v = true) ->
  objects (metadata dataView) = None ->
  exists radar,
    transformData sectorId blipId getColour dataView = Normal radar /\
    map Sector.colour (Radar.sectors radar)
    = map getColour (seq 0 (List.length (Radar.sectors radar))).
Proof.
  intros Hplain Hnone.
  assert (forall v, In v (rows (table dataView)) -> filedRow dataView v = true) as Hfiled
      by (intros v Hv; apply plainRow_filed; apply Hplain; exact Hv).
  destruct (scanRows_invariants sectorId blipId getColour dataView Hfiled
              (fun v _ => readable_without_store sectorId dataView Hnone v))
    as (sorted & o & Hscan & Hperm & Hkeys & _ & _ & _ & Hcol).
  assert (forIn o = o) as HforIn.
  { apply forIn_named. rewrite Hkeys. apply Forall_forall. intros k Hk.
    apply firstSeen_incl in Hk. apply in_map_iff in Hk. destruct Hk as (v & <- & Hv).
    apply plainRow_named. apply Hplain.
    eapply Permutation_in; [apply Permutation_sym|]; eassumption. }
  eexists. split.
  { rewrite (transformData_from_scan sectorId blipId getColour dataView o Hscan).
    rewrite HforIn. reflexivity. }
  cbn [Radar.setSectorAngles Radar.sectors].
  rewrite assignAngles_length, (assignAngles_map Sector.colour) by reflexivity.
  rewrite length_map. exact (Hcol Hnone).
Qed.

Lemma generated_colours_follow_the_sectors_witness :
  exists radar,
    transformData sampleId sampleId sampleColour (sampleView exampleRows) = Normal radar /\
    map Sector.colour (Radar.sectors radar)
    = map sampleColour (seq 0 (List.length (Radar.sectors radar))).
Proof.
  apply (generated_colours_follow_the_sectors sampleId sampleId sampleColour
           (sampleView exampleRows)).
  - intros v Hv. simpl in Hv. destruct Hv as [<-|[<-|[<-|[]]]]; reflexivity.
  - reflexivity.
Defined.
(** Colours survive a round trip through the host: when [$instances]
    holds, under the id of every enumerated sector, a solid fill of the
    colour that [enumerateObjectInstances] reported for it, a new
    transform (of rows that can be filed, the store answering for each of
    them) gives every sector with such an id the colour of the enumerated
    sector.  Only the object [colourSelector] is enumerated, one instance
    per sector. *)
Theorem enumerated_colours_survive_a_new_transform
    sectorId blipId getColour self dataView held :
  (forall v, In v (rows (table dataView)) -> filedRow dataView v = true) ->
  (forall v, In v (rows (table dataView)) -> readableRow sectorId dataView v = true) ->
  metadata dataView = storeOf held ->
  (forall inst,
     In inst (enumerateObjectInstances self "colourSelector") ->
     getOwn held (Sector.id (selector inst)) = Some (solidFill (fillColour inst))) ->
  (forall name, name <> "colourSelector" -> enumerateObjectInstances self name = []) /\
  map selector (enumerateObjectInstances self "colourSelector")
    = Radar.sectors (radar self) /\
  exists radar',
    transformData sectorId blipId getColour dataView = Normal radar' /\
    forall s s0,
      In s (Radar.sectors radar') ->
      In s0 (Radar.sectors (radar self)) ->
      Sector.id s = Sector.id s0 ->
      Sector.colour s = Sector.colour s0.
Proof.
  intros Hfiled Hread Hstore Henum.
  split.
  { intros name Hname. unfold enumerateObjectInstances.
    destruct (String.eqb_spec name "colourSelector"); [contradiction | reflexivity]. }
  split.
  { unfold enumerateObjectInstances. cbn. rewrite map_map. cbn. apply map_id. }
  destruct (colour_of_a_sector sectorId blipId getColour dataView Hfiled Hread)
    as (radar' & Hrun & Hcol).
  exists radar'. split; [exact Hrun|].
  intros s s0 Hs Hs0 Hid.
  destruct (Hcol s Hs) as (stored & Hlook & Hc).
  specialize (Henum (mkObjectInstance "colourSelector" (Sector.name s0)
                       (Sector.colour s0) s0)).
  cbn [selector fillColour] in Henum.
  rewrite Hstore, colourLookup_storeOf, Hid in Hlook. unfold getProp in Hlook.
  rewrite Henum in Hlook.
  - cbn in Hlook. injection Hlook as <-. exact Hc.
  - unfold enumerateObjectInstances. cbn.
    apply in_map_iff. exists s0. split; [reflexivity | exact Hs0].
Qed.

Lemma enumerated_colours_survive_a_new_transform_witness :
  exists radar',
    transformData sampleId sampleId sampleColour storedExampleView = Normal radar' /\
    forall s s0,
      In s (Radar.sectors radar') ->
      In s0 (Radar.sectors (radar storedVisual)) ->
      Sector.id s = Sector.id s0 ->
      Sector.colour s = Sector.colour s0.
Proof.
  apply (enumerated_colours_survive_a_new_transform sampleId sampleId sampleColour
           storedVisual storedExampleView [("X", solidFill "#123456")]).
  - exact storedExampleView_filed.
  - exact storedExampleView_readable.
  - reflexivity.
  - intros inst Hinst. cbn in Hinst. destruct Hinst as [<-|[]]. reflexivity.
Defined.

(* --------------------------------------------------------------------- *)
(** *** Columns and roles                                                 *)
(* --------------------------------------------------------------------- *)

Lemma indexOfFrom_spec (l : list (option string)) (role : string) (i : Z) :
  (0 <= i)%Z ->
  let r := indexOfFrom i l role in
  (r = (-1)%Z <-> ~ In (Some role) l) /\
  (r <> (-1)%Z ->
   (i <= r < i + Z.of_nat (List.length l))%Z /\
   nth_error l (Z.to_nat (r - i)) = Some (Some role) /\
   forall j, (j < Z.to_nat (r - i))%nat -> nth_error l j <> Some (Some role)).
Proof.
  revert i. induction l as [|c l IH]; intros i Hi; cbn [indexOfFrom].
  - split; [split; [intros _ H; exact H | reflexivity]|]. intros H. contradiction.
  - assert (forall r,
              r = indexOfFrom (i + 1) l role ->
              c <> Some role ->
              (r = (-1)%Z <-> ~ In (Some role) (c :: l)) /\
              (r <> (-1)%Z ->
               (i <= r < i + Z.of_nat (List.length (c :: l)))%Z /\
               nth_error (c :: l) (Z.to_nat (r - i)) = Some (Some role) /\
               forall j, (j < Z.to_nat (r - i))%nat ->
                         nth_error (c :: l) j <> Some (Some role))) as Hskip.
    { intros r -> Hc. destruct (IH (i + 1)%Z) as [Hnone Hsome]; [lia|].
      split.
      - rewrite Hnone. cbn [In]. tauto.
      - intros Hr. destruct (Hsome Hr) as (Hrange & Hnth & Hfirst).
        cbn [List.length]. split; [lia|].
        replace (Z.to_nat (indexOfFrom (i + 1) l role - i))
          with (S (Z.to_nat (indexOfFrom (i + 1) l role - (i + 1)))) by lia.
        split; [exact Hnth|].
        intros j Hj. destruct j as [|j]; cbn [nth_error].
        + intros E. injection E as E. contradiction.
        + apply Hfirst. lia. }
    destruct c as [r0|].
    + destruct (String.eqb_spec r0 role) as [->|Hne].
      * split.
        -- split; [intros E; lia | intros H; exfalso; apply H; left; reflexivity].
        -- intros _. cbn [List.length]. split; [lia|].
           rewrite Z.sub_diag. cbn. split; [reflexivity|]. intros j Hj. lia.
      * apply Hskip; [reflexivity|]. intros E. injection E as E. contradiction.
    + apply Hskip; [reflexivity | discriminate].
Qed.

(** A role is resolved to the first column whose first role key it is:
    no column before that one has the role as its first key.  When no
    column has the role as its first key the index is -1, and the field
    then reads as undefined on every row. *)
Theorem role_resolves_to_its_first_column (t : Table) (role : string) (v : Row) :
  let i := indexOf (columnMap t) role in
  (i = (-1)%Z <->
   forall column, In column (columns t) -> hd_error (roles column) <> Some role) /\
  (i = (-1)%Z -> rowGet v i = VUndefined) /\
  (i <> (-1)%Z ->
   (0 <= i < Z.of_nat (List.length (columns t)))%Z /\
   (exists column,
      nth_error (columns t) (Z.to_nat i) = Some column /\
      hd_error (roles column) = Some role) /\
   (forall j earlier,
      (j < Z.to_nat i)%nat ->
      nth_error (columns t) j = Some earlier ->
      hd_error (roles earlier) <> Some role) /\
   rowGet v i = nth (Z.to_nat i) v VUndefined).
Proof.
  intros i. subst i. unfold indexOf.
  destruct (indexOfFrom_spec (columnMap t) role 0) as [Hnone Hsome]; [lia|].
  cbv zeta in Hnone, Hsome.
  split; [|split].
  - rewrite Hnone. unfold columnMap. rewrite in_map_iff. split.
    + intros H column Hin E. apply H. exists column. split; assumption.
    + intros H (column & E & Hin). exact (H column Hin E).
  - intros ->. reflexivity.
  - intros Hi. destruct (Hsome Hi) as (Hrange & Hnth & Hfirst).
    set (r := indexOfFrom 0 (columnMap t) role) in *.
    unfold columnMap in Hrange, Hnth, Hfirst. rewrite length_map in Hrange.
    rewrite Z.sub_0_r in Hnth, Hfirst.
    split; [lia|]. split; [|split].
    + rewrite nth_error_map in Hnth.
      destruct (nth_error (columns t) (Z.to_nat r)) as [column|] eqn:E; [|discriminate].
      exists column. split; [reflexivity|]. cbn in Hnth. congruence.
    + intros j earlier Hj Hearlier E. apply (Hfirst j Hj).
      rewrite nth_error_map, Hearlier. cbn. rewrite E. reflexivity.
    + unfold rowGet. destruct (Z.ltb_spec r 0); [lia | reflexivity].
Qed.

Lemma role_resolves_to_its_first_column_witness :
  rowGet (sampleRow "A" "X" "Pause") (indexOf (columnMap (mkTable roleColumns [])) "colour")
  = VUndefined /\
  forall j earlier,
    (j < Z.to_nat (indexOf (columnMap (mkTable roleColumns [])) "ring"))%nat ->
    nth_error (columns (mkTable roleColumns [])) j = Some earlier ->
    hd_error (roles earlier) <> Some "ring".
Proof.
  split.
  - apply (role_resolves_to_its_first_column (mkTable roleColumns []) "colour"
             (sampleRow "A" "X" "Pause")).
    reflexivity.
  - apply (role_resolves_to_its_first_column (mkTable roleColumns []) "ring"
             (sampleRow "A" "X" "Pause")).
    discriminate.
Defined.

(** Keyed lists that agree on the keys, with related payloads. *)
Lemma insertByKey_related {A B : Type} (R : A -> B -> Prop)
    (e1 : option nat * A) (e2 : option nat * B) l1 l2 :
  fst e1 = fst e2 -> R (snd e1) (snd e2) ->
  Forall2 (fun a b => fst a = fst b /\ R (snd a) (snd b)) l1 l2 ->
  Forall2 (fun a b => fst a = fst b /\ R (snd a) (snd b))
          (insertByKey e1 l1) (insertByKey e2 l2).
Proof.
  intros Hk Hr H. induction H as [|a b l1 l2 [Hab Hrab] H IH]; simpl.
  - constructor; [split; assumption | constructor].
  - rewrite <- Hk, <- Hab. destruct (keyLe (fst e1) (fst a)).
    + constructor; [split; assumption|]. constructor; [split; assumption | exact H].
    + constructor; [split; assumption | exact IH].
Qed.

Lemma sortKeyed_related {A B : Type} (R : A -> B -> Prop) l1 l2 :
  Forall2 (fun a b => fst a = fst b /\ R (snd a) (snd b)) l1 l2 ->
  Forall2 (fun (a : option nat * A) (b : option nat * B) =>
             fst a = fst b /\ R (snd a) (snd b))
          (sortKeyed l1) (sortKeyed l2).
Proof.
  induction 1 as [|a b l1 l2 [Hab Hrab] H IH]; simpl; [constructor|].
  apply insertByKey_related; assumption.
Qed.

(** [sortBy] on two lists of related elements, with iteratees that agree
    on related elements: the same abrupt completion or related results. *)
Lemma sortBy_related {A B : Type} (R : A -> B -> Prop)
    (f1 : A -> Completion (option nat)) (f2 : B -> Completion (option nat)) l1 l2 :
  (forall a b, R a b -> f1 a = f2 b) ->
  Forall2 R l1 l2 ->
  match sortBy l1 f1, sortBy l2 f2 with
  | Normal s1, Normal s2 => Forall2 R s1 s2
  | Throws e1, Throws e2 => e1 = e2
  | IllTyped, IllTyped => True
  | _, _ => False
  end.
Proof.
  intros Hf H. unfold sortBy.
  assert (match mapM (fun o => bind (f1 o) (fun key => Normal (key, o))) l1,
                mapM (fun o => bind (f2 o) (fun key => Normal (key, o))) l2 with
          | Normal k1, Normal k2 =>
              Forall2 (fun a b => fst a = fst b /\ R (snd a) (snd b)) k1 k2
          | Throws e1, Throws e2 => e1 = e2
          | IllTyped, IllTyped => True
          | _, _ => False
          end) as Hm.
  { induction H as [|a b l1 l2 Hab H IH]; simpl; [constructor|].
    rewrite (Hf a b Hab). destruct (f2 b) as [key| |]; simpl; auto.
    destruct (mapM (fun o => bind (f1 o) (fun key => Normal (key, o))) l1) as [k1|e1|];
      destruct (mapM (fun o => bind (f2 o) (fun key => Normal (key, o))) l2) as [k2|e2|];
      simpl; auto;
      try (constructor; [split; [reflexivity | exact Hab] | exact IH]). }
  destruct (mapM (fun o => bind (f1 o) (fun key => Normal (key, o))) l1) as [k1|e1|];
    destruct (mapM (fun o => bind (f2 o) (fun key => Normal (key, o))) l2) as [k2|e2|];
    simpl; auto.
  apply sortKeyed_related in Hm.
  induction Hm as [|a b s1 s2 [_ Hab] _ IH]; simpl; constructor; assumption.
Qed.

(** The transform reads a table only through the five role fields of its
    rows: two tables whose rows agree on them, column order and further
    columns apart, and that come with the same metadata, are transformed
    into the same result. *)
Theorem transform_reads_only_the_role_fields sectorId blipId getColour dataView1 dataView2 :
  metadata dataView1 = metadata dataView2 ->
  map (rowFields dataView1) (rows (table dataView1))
    = map (rowFields dataView2) (rows (table dataView2)) ->
  transformData sectorId blipId getColour dataView1
    = transformData sectorId blipId getColour dataView2.
Proof.
  intros Hmd Hfields.
  set (R := fun v1 v2 : Row => rowFields dataView1 v1 = rowFields dataView2 v2).
  assert (Forall2 R (rows (table dataView1)) (rows (table dataView2))) as Hrows.
  { revert Hfields. generalize (rows (table dataView2)).
    induction (rows (table dataView1)) as [|v1 l1 IH]; intros [|v2 l2] H;
      simpl in H; try discriminate; constructor.
    - unfold R. exact (f_equal (fun l => hd (rowFields dataView1 v1) l) H).
    - apply IH. exact (f_equal (@tl _) H). }
  unfold transformData. f_equal. unfold scanRows. cbv zeta.
  pose proof (sortBy_related R
                (ringOrder (indexOf (columnMap (table dataView1)) "ring"))
                (ringOrder (indexOf (columnMap (table dataView2)) "ring"))
                (rows (table dataView1)) (rows (table dataView2))) as Hsort.
  assert (forall a b, R a b ->
            ringOrder (indexOf (columnMap (table dataView1)) "ring") a
            = ringOrder (indexOf (columnMap (table dataView2)) "ring") b) as Hkey.
  { intros a b Hab. unfold R, rowFields in Hab. injection Hab as _ _ _ Hring _.
    unfold ringOrder. rewrite Hring. reflexivity. }
  specialize (Hsort Hkey Hrows).
  destruct (sortBy (rows (table dataView1)) _) as [s1|e1|];
    destruct (sortBy (rows (table dataView2)) _) as [s2|e2|];
    try contradiction; cbn [bind]; [|rewrite Hsort; reflexivity | reflexivity].
  f_equal. rewrite Hmd.
  generalize (@nil (string * Sector.t), 0%nat).
  induction Hsort as [|v1 v2 s1 s2 Hv _ IH]; intros st; cbn [forEach]; [reflexivity|].
  assert (visitRow sectorId blipId getColour (metadata dataView2)
            (indexOf (columnMap (table dataView1)) "name")
            (indexOf (columnMap (table dataView1)) "description")
            (indexOf (columnMap (table dataView1)) "sector")
            (indexOf (columnMap (table dataView1)) "ring")
            (indexOf (columnMap (table dataView1)) "isNew") st v1
          = visitRow sectorId blipId getColour (metadata dataView2)
            (indexOf (columnMap (table dataView2)) "name")
            (indexOf (columnMap (table dataView2)) "description")
            (indexOf (columnMap (table dataView2)) "sector")
            (indexOf (columnMap (table dataView2)) "ring")
            (indexOf (columnMap (table dataView2)) "isNew") st v2) as ->.
  { unfold R, rowFields in Hv. injection Hv as Hn Hd Hs Hr Hi.
    unfold visitRow. rewrite Hn, Hd, Hs, Hr, Hi. reflexivity. }
  destruct (visitRow _ _ _ _ _ _ _ _ _ st v2) as [st'| |]; cbn [bind];
    [apply IH | reflexivity | reflexivity].
Qed.

Lemma transform_reads_only_the_role_fields_witness :
  transformData sampleId sampleId sampleColour shuffledExampleView
  = transformData sampleId sampleId sampleColour (sampleView exampleRows).
Proof.
  apply (transform_reads_only_the_role_fields sampleId sampleId sampleColour
           shuffledExampleView (sampleView exampleRows)).
  - reflexivity.
  - reflexivity.
Defined.

(* ===================================================================== *)
(** ** Further properties: the update                                     *)
(* ===================================================================== *)





(* ===================================================================== *)
(** ** Further properties: what is drawn                                  *)
(* ===================================================================== *)

(** The wedges drawn for a sector, with the four fixed rings: one per
    ring, from the centre outwards, each starting where the one before
    ends, from radius 0 to radius 50; all span the angles of the sector,
    are centred in the middle of the view box and carry the ring colours. *)
Theorem sector_wedges_tile_the_disc (self : Visual) (sector : Sector.t) :
  Radar.rings (radar self) = Radar.rings Radar.new ->
  map (fun p => (innerRadius p, outerRadius p)) (paths (plotSector self sector))
    = [(0, 12.5); (12.5, 25); (25, 37.5); (37.5, 50)] /\
  Forall (fun p => arcStartAngle p = Sector.startAngle sector /\
                   arcEndAngle p = Sector.endAngle sector /\
                   arcTranslate p = mkPoint 50 50)
         (paths (plotSector self sector)) /\
  map arcFill (paths (plotSector self sector))
    = ["#C7C7C7"; "#A3A3A3"; "#7A7A7A"; "#525252"] /\
  groupId (plotSector self sector) = String.append "sector-" (Sector.id sector).
Proof.
  intros Hrings. unfold plotSector. cbn [paths groupId]. rewrite Hrings.
  unfold calculateRingRadii, calculateCenter, getViewBoxSize. rewrite Hrings.
  cbn [Radar.rings Radar.new map snd ringMap inner outer Ring.order Ring.colour
       innerRadius outerRadius arcStartAngle arcEndAngle arcTranslate arcFill
       List.length].
  split; [|split; [|split; reflexivity]].
  - simpl INR. repeat (f_equal; try lra).
  - repeat (apply Forall_cons;
            [cbn; split; [reflexivity|]; split; [reflexivity|]; f_equal; lra|]).
    apply Forall_nil.
Qed.

Lemma sector_wedges_tile_the_disc_witness :
  map arcFill (paths (plotSector sampleVisual fullSector))
    = ["#C7C7C7"; "#A3A3A3"; "#7A7A7A"; "#525252"].
Proof.
  apply (sector_wedges_tile_the_disc sampleVisual fullSector). reflexivity.
Defined.




(* ===================================================================== *)
(** ** Further properties: sector names that clash with Object.prototype  *)
(* ===================================================================== *)

Section InheritedSector.

Variables sectorId blipId : value -> string.
Variable getColour : nat -> string.
Variable dataView : DataView.

Local Abbreviation cm := (columnMap (table dataView)).
Local Abbreviation visit :=
  (visitRow sectorId blipId getColour (metadata dataView)
     (indexOf cm "name") (indexOf cm "description") (indexOf cm "sector")
     (indexOf cm "ring") (indexOf cm "isNew")).
Local Abbreviation key := (rowSectorKey dataView).
Local Abbreviation inv := (sectorInvariant sectorId getColour (metadata dataView)).

(** On a row whose sector is named like a member of Object.prototype no
    sector is created, and the call of [addBlip] throws. *)
Lemma visitRow_inherited_sector (o : JsObject Sector.t) (g : nat) (v : Row) :
  inheritedKey (key v) = true ->
  noInheritedKey o ->
  visit (o, g) v = Throws TypeError.
Proof.
  intros Hinh Hkeys. unfold visitRow.
  fold (sectorIndexOf dataView). fold (key v).
  assert (getOwn o (key v) = None) as Hown.
  { destruct (getOwn o (key v)) as [s|] eqn:E; [|reflexivity].
    apply getOwn_Some_In in E. apply (in_map fst) in E.
    unfold noInheritedKey in Hkeys. rewrite Forall_forall in Hkeys.
    specialize (Hkeys _ E). simpl in Hkeys. congruence. }
  unfold getProp. cbn [fst snd]. rewrite Hown, Hinh.
  cbn [bind fst snd]. rewrite Hown. reflexivity.
Qed.

Lemma forEach_inherited_sector (l : list Row) :
  forall (o : JsObject Sector.t) (g : nat),
  noInheritedKey o ->
  (forall v, In v l -> rowRing dataView v <> None) ->
  (exists v, In v l /\ inheritedKey (key v) = true) ->
  forEach visit l (o, g) = Throws TypeError.
Proof.
  induction l as [|v l IH]; intros o g Hkeys Hrings (bad & Hin & Hbad).
  - contradiction.
  - cbn [forEach].
    destruct (rowRing dataView v) as [ring|] eqn:Hring;
      [|exfalso; exact (Hrings v (or_introl eq_refl) Hring)].
    destruct (inheritedKey (key v)) eqn:Hinh.
    + rewrite (visitRow_inherited_sector o g v Hinh Hkeys). reflexivity.
    + assert (filedRow dataView v = true) as Hfiled
          by (unfold filedRow; rewrite Hring, Hinh; reflexivity).
      destruct (visitRow_filed_outcome sectorId blipId getColour dataView o g v Hfiled)
        as [([o1 g1] & Hvisit)|Hvisit].
      * pose proof (visitRow_keeps_keys sectorId blipId getColour dataView o g v _
                      Hfiled Hkeys Hvisit) as Hkeys1.
        match goal with
        | |- bind ?c _ = _ => assert (c = Normal (o1, g1)) as -> by exact Hvisit
        end.
        cbn [bind]. apply (IH o1 g1 Hkeys1).
        -- intros v' Hv'. apply Hrings. right. exact Hv'.
        -- exists bad. split; [|exact Hbad].
           destruct Hin as [<-|Hin]; [congruence | exact Hin].
      * match goal with
        | |- bind ?c _ = _ => assert (c = Throws TypeError) as -> by exact Hvisit
        end.
        reflexivity.
Qed.

End InheritedSector.

(** A sector value that is the name of a member of Object.prototype (such
    as constructor or toString) makes the transform throw a TypeError when
    all rings are known, whatever the other rows are; the update then
    rethrows and leaves the visual as it was. *)
Theorem prototype_named_sector_throws sectorId blipId getColour dataView :
  (forall v, In v (rows (table dataView)) -> rowRing dataView v <> None) ->
  (exists v, In v (rows (table dataView)) /\
             inheritedKey (rowSectorKey dataView v) = true) ->
  transformData sectorId blipId getColour dataView = Throws TypeError /\
  (forall random self draw,
     update sectorId blipId getColour random self dataView draw
     = (self, Throws TypeError)).
Proof.
  intros Hrings (bad & Hin & Hbad).
  assert (transformData sectorId blipId getColour dataView = Throws TypeError) as Hthrow.
  { destruct (sortBy_spec (rows (table dataView))
                (ringOrder (ringIndexOf dataView)) (rowRingOrder dataView))
      as (sorted & Hsort & Hperm & _ & _).
    { intros v Hv. specialize (Hrings v Hv).
      unfold ringOrder, rowRingOrder.
      destruct (rowRing dataView v) as [ring|] eqn:Hring; [|contradiction].
      unfold rowRing, rowRingKey in Hring. unfold getProp. rewrite Hring. reflexivity. }
    unfold transformData, scanRows. unfold ringIndexOf in Hsort. rewrite Hsort.
    cbn [bind].
    pose proof (forEach_inherited_sector sectorId blipId getColour dataView sorted [] 0)
      as Hrun.
    match goal with
    | |- bind (bind ?c _) _ = _ => assert (c = Throws TypeError) as ->; [|reflexivity]
    end.
    apply Hrun; try constructor.
    - intros v Hv. apply Hrings.
      eapply Permutation_in; [apply Permutation_sym|]; eassumption.
    - exists bad. split; [|exact Hbad]. eapply Permutation_in; eassumption. }
  split; [exact Hthrow|].
  intros random self draw. apply update_rethrows. exact Hthrow.
Qed.

Lemma prototype_named_sector_throws_witness :
  transformData sampleId sampleId sampleColour
    (sampleView [sampleRow "A" "X" "Pause"; sampleRow "B" "toString" "Accelerate"])
  = Throws TypeError.
Proof.
  apply (prototype_named_sector_throws sampleId sampleId sampleColour
           (sampleView [sampleRow "A" "X" "Pause"; sampleRow "B" "toString" "Accelerate"])).
  - intros v Hv. simpl in Hv. destruct Hv as [<-|[<-|[]]]; discriminate.
  - exists (sampleRow "B" "toString" "Accelerate"). split; [|reflexivity].
    right. left. reflexivity.
Defined.

(* ===================================================================== *)
(** ** Further properties: the size of the svg element                    *)
(* ===================================================================== *)

(** With a padding that is not negative, [calculateMaxRadius] is at most
    half of the width and half of the height of the container; it does
    not depend on which of the two is the width; and it is negative, so
    that the svg element is given a negative size, exactly when four times
    the padding exceeds the smaller side. *)
Theorem max_radius_fits_the_smaller_side (self : Visual) :
  let c := target self in
  (0 <= paddingPx c)%Z ->
  calculateMaxRadius self <= clientWidth c / 2 /\
  calculateMaxRadius self <= clientHeight c / 2 /\
  calculateMaxRadius self
    = calculateMaxRadius
        (withTarget self (mkContainer (clientHeight c) (clientWidth c) (paddingPx c))) /\
  (calculateMaxRadius self < 0 <->
   Rmin (clientWidth c) (clientHeight c) < 4 * IZR (paddingPx c)).
Proof.
  intros c Hpad. unfold calculateMaxRadius. fold c.
  cbn [target withTarget clientWidth clientHeight paddingPx].
  assert (0 <= IZR (paddingPx c)) as Hp by (apply IZR_le; exact Hpad).
  pose proof (Rmin_l (clientWidth c) (clientHeight c)) as Hl.
  pose proof (Rmin_r (clientWidth c) (clientHeight c)) as Hr.
  repeat split; try lra.
  rewrite (Rmin_comm (clientHeight c)). reflexivity.
Qed.

Lemma max_radius_fits_the_smaller_side_witness :
  calculateMaxRadius sampleVisual <= clientWidth (target sampleVisual) / 2.
Proof.
  apply (max_radius_fits_the_smaller_side sampleVisual). simpl. lia.
Defined.

(* ===================================================================== *)
(** ** Sector angles of a transformed table                               *)
(* ===================================================================== *)

Lemma insertIndexKey_map {V W : Type} (f : V -> W) n (kv : string * V) l :
  map (fun e => (fst e, (fst (snd e), f (snd (snd e))))) (insertIndexKey n kv l)
  = insertIndexKey n (fst kv, f (snd kv))
      (map (fun e => (fst e, (fst (snd e), f (snd (snd e))))) l).
Proof.
  induction l as [|[m kv'] l IH]; cbn [insertIndexKey map fst snd]; [reflexivity|].
  destruct (n <=? m)%N; cbn [map fst snd]; [reflexivity|].
  rewrite IH. reflexivity.
Qed.

(** [for .. in] visits the properties in an order that their values do
    not influence. *)
Lemma forIn_map {V W : Type} (f : V -> W) (o : JsObject V) :
  forIn (map (fun kv => (fst kv, f (snd kv))) o)
  = map (fun kv => (fst kv, f (snd kv))) (forIn o).
Proof.
  unfold forIn. rewrite map_app. f_equal.
  - assert (indexProps (map (fun kv => (fst kv, f (snd kv))) o)
            = map (fun e => (fst e, (fst (snd e), f (snd (snd e))))) (indexProps o)) as ->.
    { induction o as [|[k v] o IH]; cbn [indexProps map fst snd]; [reflexivity|].
      destruct (arrayIndex k).
      - rewrite insertIndexKey_map, IH. reflexivity.
      - exact IH. }
    rewrite !map_map. reflexivity.
  - unfold namedProps.
    induction o as [|[k v] o IH]; cbn [filter map fst snd]; [reflexivity|].
    destruct (arrayIndex k); cbn [map fst snd]; rewrite IH; reflexivity.
Qed.

(** The order of [for .. in] depends on the keys only. *)
Lemma forIn_keys {V : Type} (o : JsObject V) :
  map fst (forIn o) = enumerationOrder (map fst o).
Proof.
  unfold enumerationOrder. rewrite map_map.
  rewrite (forIn_map (fun _ : V => tt) o), map_map. reflexivity.
Qed.

Lemma enumerationOrder_named (keys : list string) :
  Forall (fun k => arrayIndex k = None) keys -> enumerationOrder keys = keys.
Proof.
  intros H. unfold enumerationOrder. rewrite forIn_named.
  - rewrite map_map. cbn [fst]. apply map_id.
  - rewrite map_map. cbn [fst]. rewrite map_id. exact H.
Qed.

(** C5 (as amended): on a table whose rows can be filed, read with a
    colour store that answers, with N distinct sector values (N at least
    1), the transform returns a radar of N sectors.  Its sectors stand in
    the order in which [for .. in] enumerates the sector names discovered
    in the sorted rows (array-index names first, ascending, then the other
    names in discovery order), which is discovery order when no sector
    name is an array index.  Sector i of the radar, counted from 0, has
    the arc from i*2pi/N to (i+1)*2pi/N: every arc is 2pi/N wide, two arcs
    never share an angle, and the arcs cover exactly the angles from 0
    included to 2pi excluded. *)
Theorem sector_arcs_partition_the_circle sectorId blipId getColour dataView :
  let N := List.length
             (firstSeen (map (rowSectorKey dataView) (rows (table dataView)))) in
  (forall v, In v (rows (table dataView)) -> filedRow dataView v = true) ->
  (forall v, In v (rows (table dataView)) -> readableRow sectorId dataView v = true) ->
  (0 < N)%nat ->
  exists sorted radar,
    sortBy (rows (table dataView)) (ringOrder (ringIndexOf dataView)) = Normal sorted /\
    transformData sectorId blipId getColour dataView = Normal radar /\
    List.length (Radar.sectors radar) = N /\
    map (fun s => toPropertyKey (Sector.name s)) (Radar.sectors radar)
      = enumerationOrder (firstSeen (map (rowSectorKey dataView) sorted)) /\
    ((forall v, In v (rows (table dataView)) -> plainRow dataView v = true) ->
     map (fun s => toPropertyKey (Sector.name s)) (Radar.sectors radar)
       = firstSeen (map (rowSectorKey dataView) sorted)) /\
    (forall i s,
       nth_error (Radar.sectors radar) i = Some s ->
       Sector.startAngle s = INR i * (2 * PI) / INR N /\
       Sector.endAngle s = INR (S i) * (2 * PI) / INR N /\
       Sector.endAngle s - Sector.startAngle s = 2 * PI / INR N) /\
    (forall i j s t theta,
       i <> j ->
       nth_error (Radar.sectors radar) i = Some s ->
       nth_error (Radar.sectors radar) j = Some t ->
       ~ (Sector.startAngle s <= theta < Sector.endAngle s /\
          Sector.startAngle t <= theta < Sector.endAngle t)) /\
    (forall theta,
       0 <= theta < 2 * PI <->
       exists i s, nth_error (Radar.sectors radar) i = Some s /\
                   Sector.startAngle s <= theta < Sector.endAngle s).
Proof.
  intros N Hfiled Hread HN.
  destruct (scanRows_filed_sort sectorId blipId getColour dataView Hfiled Hread)
    as (sorted & o & Hsort & Hscan & Hperm & _ & _ & Hkeys & _ & Hnames).
  set (radar0 := Radar.mk (map snd (forIn o)) (Radar.rings Radar.new)).
  assert (List.length (Radar.sectors radar0) = N) as Hlen.
  { unfold radar0. cbn [Radar.sectors]. rewrite length_map, forIn_length.
    rewrite <- (length_map fst o), Hkeys. unfold N.
    apply firstSeen_length_perm. apply Permutation_map. apply Permutation_sym.
    exact Hperm. }
  assert (map (fun s => toPropertyKey (Sector.name s))
              (Radar.sectors (Radar.setSectorAngles radar0))
          = enumerationOrder (firstSeen (map (rowSectorKey dataView) sorted))) as Horder.
  { unfold Radar.setSectorAngles, radar0. cbn [Radar.sectors].
    rewrite (assignAngles_map (fun s => toPropertyKey (Sector.name s))) by reflexivity.
    assert (filedByName (forIn o)) as Hnames'.
    { unfold filedByName in *. eapply Permutation_Forall; [|exact Hnames].
      apply Permutation_sym. apply forIn_perm. }
    rewrite (filedByName_keys (forIn o) Hnames'), forIn_keys, Hkeys. reflexivity. }
  exists sorted, (Radar.setSectorAngles radar0).
  split; [exact Hsort|].
  split; [exact (transformData_from_scan sectorId blipId getColour dataView o Hscan)|].
  split.
  { unfold Radar.setSectorAngles. cbn [Radar.sectors].
    rewrite assignAngles_length. exact Hlen. }
  split; [exact Horder|].
  split.
  { intros Hplain. rewrite Horder. apply enumerationOrder_named.
    apply Forall_forall. intros k Hk.
    apply firstSeen_incl in Hk. apply in_map_iff in Hk. destruct Hk as (v & <- & Hv).
    apply plainRow_named. apply Hplain.
    eapply Permutation_in; [apply Permutation_sym|]; eassumption. }
  rewrite <- Hlen in HN |- *.
  exact (setSectorAngles_partition radar0 HN).
Qed.

Lemma sector_arcs_partition_the_circle_witness :
  exists sorted radar,
    sortBy (rows (table storedExampleView)) (ringOrder (ringIndexOf storedExampleView))
      = Normal sorted /\
    transformData sampleId sampleId sampleColour storedExampleView = Normal radar /\
    List.length (Radar.sectors radar) = 2%nat.
Proof.
  destruct (sector_arcs_partition_the_circle sampleId sampleId sampleColour
              storedExampleView storedExampleView_filed storedExampleView_readable)
    as (sorted & radar & Hsort & Hrun & Hlen & _).
  - simpl. lia.
  - exists sorted, radar. split; [exact Hsort|]. split; [exact Hrun | exact Hlen].
Defined.

(** C5, as stated, fails when sector names are numerals: in the rows
    A/2/Accelerate, B/1/Accelerate the sector discovered first is sector
    2, yet its arc is the second one, from pi to 2pi, and the arc from 0
    to pi goes to sector 1. *)
Lemma first_discovered_sector_gets_second_arc :
  sortBy numeralRows (ringOrder (ringIndexOf (sampleView numeralRows)))
    = Normal numeralRows /\
  firstSeen (map (rowSectorKey (sampleView numeralRows)) numeralRows) = ["2"; "1"] /\
  exists radar s1 s2,
    transformData sampleId sampleId sampleColour (sampleView numeralRows) = Normal radar /\
    Radar.sectors radar = [s1; s2] /\
    Sector.name s1 = VString "1" /\ Sector.name s2 = VString "2" /\
    Sector.startAngle s2 = PI /\ Sector.endAngle s2 = 2 * PI /\
    Sector.startAngle s2 <> 0 * (2 * PI) / 2.
Proof.
  split; [reflexivity|]. split; [reflexivity|].
  do 3 eexists. split; [reflexivity|]. split; [reflexivity|].
  cbn [Sector.setAngles Sector.name Sector.startAngle Sector.endAngle Nat.add].
  pose proof PI_RGT_0 as Hpi.
  assert (INR 1 * (2 * PI) / INR 2 = PI) as E1 by (simpl; field).
  assert (INR 2 * (2 * PI) / INR 2 = 2 * PI) as E2 by (simpl; field).
  split; [reflexivity|]. split; [reflexivity|].
  split; [exact E1|]. split; [exact E2|].
  intros H. pose proof (eq_trans (eq_sym E1) H) as H'. lra.
Qed.
